(** * ygo-nfc-card-viewer: a shallow embedding of [card_viewer.py]

    The development follows the classes of the program:
    - [PyFloat]   Python floats (binary64) and numpy float32, on the
                  Standard Library's [spec_float];
    - [Py]        the Python values that [json.loads] produces and the
                  builtin [int];
    - [Stars]     [CardMakerWidget.draw_level_stars] / [draw_rank_stars];
    - [FontFit]   [CardMakerWidget.draw_fitted_description];
    - [Frame]     [AnimatedWebPLabel.adjust_hue], [adjust_frame] and
                  [apply_gradient];
    - [Sprite]    [AnimatedWebPLabel.update_frame] and the fades that
                  reset the playback position;
    - [Server]    [OverlayServer.read_client] and
                  [MainWindow.set_overlay_custom].

    Pillow, numpy, Qt and the [json] module are libraries the program
    calls; what the program needs from them enters as Section variables
    (per-pixel colour kernels, font metrics, the JSON decoder). *)

From Stdlib Require Import ZArith Lia Bool String Ascii SpecFloat.
From stdpp Require Import base option list gmap strings.

Set Warnings "-register-all".
Local Open Scope Z_scope.

(** ** Exceptions and results

    A Python call either returns or raises.  [Raise] carries the class of
    the exception, which is what an [except] clause inspects. *)

Inductive exn :=
  | ValueError | TypeError | OverflowError | IndexError | KeyError
  | AttributeError | JSONDecodeError | UnicodeDecodeError.

Inductive result (A : Type) :=
  | Ok (a : A)
  | Raise (e : exn).
Arguments Ok {A} a.
Arguments Raise {A} e.

Definition bind {A B} (r : result A) (k : A -> result B) : result B :=
  match r with
  | Ok a => k a
  | Raise e => Raise e
  end.

Notation "'do' x <- r ; k" := (bind r (fun x => k))
  (at level 10, x name, r at level 100, k at level 200).

Definition exn_eqb (a b : exn) : bool :=
  match a, b with
  | ValueError, ValueError | TypeError, TypeError
  | OverflowError, OverflowError | IndexError, IndexError
  | KeyError, KeyError | AttributeError, AttributeError
  | JSONDecodeError, JSONDecodeError
  | UnicodeDecodeError, UnicodeDecodeError => true
  | _, _ => false
  end.

(** [try: r  except (classes): handler]. *)
Definition try_except {A} (r : result A) (classes : list exn) (handler : A)
  : result A :=
  match r with
  | Ok a => Ok a
  | Raise e => if existsb (exn_eqb e) classes then Ok handler else Raise e
  end.

(** ** Floats *)

Module PyFloat.

(** Python's [float] is IEEE binary64; numpy's [float32] is binary32. *)
Definition float := spec_float.

Definition prec64 : Z := 53.
Definition emax64 : Z := 1024.
Definition prec32 : Z := 24.
Definition emax32 : Z := 128.

Definition of_Z (z : Z) : float := binary_normalize prec64 emax64 z 0 false.
Definition neg (x : float) : float := SFopp x.
Definition add (x y : float) : float := SFadd prec64 emax64 x y.
Definition sub (x y : float) : float := SFsub prec64 emax64 x y.
Definition mul (x y : float) : float := SFmul prec64 emax64 x y.
Definition div (x y : float) : float := SFdiv prec64 emax64 x y.

(** [==], [!=], [<], [>=] of Python floats (a NaN compares false,
    the two zeros are equal). *)
Definition eqb (x y : float) : bool := SFeqb x y.
Definition neqb (x y : float) : bool := negb (SFeqb x y).
Definition geb (x y : float) : bool := SFleb y x.

(** The integer part of a finite float, rounding toward zero. *)
Definition truncate (s : bool) (m : positive) (e : Z) : Z :=
  cond_Zopp s (Z.shiftl (Zpos m) e).

(** [int(x)] for a float [x]. *)
Definition to_int (x : float) : result Z :=
  match x with
  | S754_zero _ => Ok 0
  | S754_finite s m e => Ok (truncate s m e)
  | S754_infinity _ => Raise OverflowError
  | S754_nan => Raise ValueError
  end.

(** numpy: a float64 stored into a float32 array is rounded to nearest. *)
Definition to_f32 (x : float) : float :=
  match x with
  | S754_finite s m e => binary_round prec32 emax32 s m e
  | _ => x
  end.

Definition f32_of_Z (z : Z) : float := binary_normalize prec32 emax32 z 0 false.
Definition f32_mul (x y : float) : float := SFmul prec32 emax32 x y.

(** numpy [astype(np.uint8)] of a float32 in the range of a byte. *)
Definition to_uint8 (x : float) : Z :=
  match x with
  | S754_finite s m e => truncate s m e mod 256
  | _ => 0
  end.

Definition zero : float := S754_zero false.
Definition one : float := Eval vm_compute in of_Z 1.
Definition half : float := Eval vm_compute in div (of_Z 1) (of_Z 2).
Definition f32_one : float := Eval vm_compute in f32_of_Z 1.

End PyFloat.

(** ** Python values *)

Module Py.

(** The values [json.loads] builds: [None], booleans, integers, floats
    (the decoder also accepts [NaN] and [Infinity]), strings, lists and
    dictionaries. *)
Inductive value :=
  | VNone
  | VBool (b : bool)
  | VInt (n : Z)
  | VFloat (f : PyFloat.float)
  | VStr (s : string)
  | VList (l : list value)
  | VDict (kv : list (string * value)).

Fixpoint assoc (k : string) (kv : list (string * value)) : option value :=
  match kv with
  | [] => None
  | (k', v) :: rest => if String.eqb k k' then Some v else assoc k rest
  end.

(** [data.get(key)]: only a dictionary has the method. *)
Definition get (data : value) (key : string) : result (option value) :=
  match data with
  | VDict kv => Ok (assoc key kv)
  | _ => Raise AttributeError
  end.

(** [v == s] for a string literal [s]. *)
Definition eq_str (v : option value) (s : string) : bool :=
  match v with
  | Some (VStr s') => String.eqb s' s
  | _ => false
  end.

Section Int.

(** The builtin's reading of an integer literal in a string
    ([None]: the text is not one, and [int] raises [ValueError]). *)
Variable int_of_str : string -> option Z.

(** [int(v)]: a float is cut toward zero, and an infinite one raises
    [OverflowError]. *)
Definition int (v : value) : result Z :=
  match v with
  | VNone => Raise TypeError
  | VBool b => Ok (if b then 1 else 0)
  | VInt n => Ok n
  | VFloat f => PyFloat.to_int f
  | VStr s =>
      match int_of_str s with
      | Some n => Ok n
      | None => Raise ValueError
      end
  | VList _ | VDict _ => Raise TypeError
  end.

End Int.

End Py.

(** ** Geometry shared by the painters *)

Record QRect := { rect_x : Z; rect_y : Z; rect_width : Z; rect_height : Z }.

Definition rect_left (r : QRect) : Z := rect_x r.
Definition rect_top (r : QRect) : Z := rect_y r.
Definition rect_right (r : QRect) : Z := rect_x r + rect_width r - 1.

(** [range(n)]. *)
Definition range (n : Z) : list Z := seqZ 0 n.

(** ** Level and rank stars *)

Module Stars.
Section Stars.

Variable int_of_str : string -> option Z.

(** The star asset: whether its pixmap failed to load, and the width it
    has once scaled to a height ([scaledToHeight(h).width()]). *)
Variable star_is_null : bool.
Variable scaled_width : Z -> Z.

(** [try: level = int(level_value)  except (ValueError, TypeError): level = 0] *)
Definition level_of (level_value : Py.value) : result Z :=
  try_except (Py.int int_of_str level_value) [ValueError; TypeError] 0.

(** The painter's [drawPixmap(x, y, star_scaled)] calls, in order. *)
Definition draw_level_stars (rect : QRect) (level_value : Py.value)
    (max_stars : Z) : result (list (Z * Z)) :=
  do level <- level_of level_value;
  let stars_count := Z.min level max_stars in
  if star_is_null || (stars_count <=? 0) then Ok []
  else
    let star_height := rect_height rect in
    let star_width := scaled_width star_height in
    let gap := 4 in
    Ok ((fun i =>
           (rect_right rect - (i + 1) * star_width - i * gap,
            rect_top rect + (rect_height rect - star_height) / 2))
          <$> range stars_count).

Definition draw_rank_stars (rect : QRect) (level_value : Py.value)
    (max_stars : Z) : result (list (Z * Z)) :=
  do level <- level_of level_value;
  let stars_count := Z.min level max_stars in
  if star_is_null || (stars_count <=? 0) then Ok []
  else
    let star_height := rect_height rect in
    let star_width := scaled_width star_height in
    let gap := 4 in
    let rect :=
      if stars_count =? 13 then
        let extra_width := star_width / 2 in
        {| rect_x := rect_x rect - 18; rect_y := rect_y rect;
           rect_width := rect_width rect + extra_width;
           rect_height := rect_height rect |}
      else rect in
    Ok ((fun i =>
           (rect_left rect - 25 + i * (star_width + gap),
            rect_top rect + (rect_height rect - star_height) / 2))
          <$> range stars_count).

(** [_draw_level_and_rank_stars]: the value is
    [card_data.get("level", 0)], the rank row is used for xyz frames. *)
Definition level_rect : QRect :=
  {| rect_x := 42 + 40; rect_y := (40 + 50 - 1) + 9;
     rect_width := 415; rect_height := 33 |}.

Definition level_entry (card_data : list (string * Py.value)) : Py.value :=
  default (Py.VInt 0) (Py.assoc "level" card_data).

Definition clamp (x lo hi : Z) : Z := Z.max lo (Z.min x hi).

End Stars.
End Stars.

(** ** Animated sprite *)

Module Sprite.
Section Sprite.

Variable pixmap : Type.

(** The fields of [AnimatedWebPLabel] that frame cycling reads and
    writes: the cached frames, the playback position, the pixmap the
    label shows, and whether the 42 ms timer runs. *)
Record label := {
  frames : list pixmap;
  current_frame : nat;
  shown : option pixmap;
  timer_running : bool
}.

Definition init : label :=
  {| frames := []; current_frame := 0; shown := None;
     timer_running := false |}.

(** [self.frames[i]] *)
Definition index (l : list pixmap) (i : nat) : result pixmap :=
  match l !! i with
  | Some x => Ok x
  | None => Raise IndexError
  end.

Definition update_frame (w : label) : result label :=
  match frames w with
  | [] => Ok w
  | _ :: _ =>
      do f <- index (frames w) (current_frame w);
      Ok {| frames := frames w;
            current_frame := (current_frame w + 1) mod length (frames w);
            shown := Some f;
            timer_running := timer_running w |}
  end.

Definition next_frame (w : label) : result label := update_frame w.

(** [set_webp], once the frames are decoded and adjusted. *)
Definition set_frames (w : label) (decoded : list pixmap) : result label :=
  update_frame
    {| frames := decoded; current_frame := 0; shown := shown w;
       timer_running := true |}.

Definition fade_in (w : label) : label :=
  {| frames := frames w; current_frame := 0; shown := shown w;
     timer_running := true |}.

(** The position is an index into the frames whenever there are any. *)
Definition position_ok (w : label) : Prop :=
  frames w = [] \/ (current_frame w < length (frames w))%nat.

End Sprite.
End Sprite.

(** ** Description text fitting *)

Module FontFit.

Inductive weight := Light | Normal.

Record QFont := {
  family : string;
  point_size : Z;
  font_weight : weight;
  letter_spacing : PyFloat.float
}.

(** [self.fonts] *)
Record fonts := {
  title_font : string;
  lore_font : string;
  main_font : string;
  link_font : string
}.

Definition default_fonts : fonts :=
  {| title_font := "MatrixRegularSmallCaps";
     lore_font := "Stone Serif ITC Medium";
     main_font := "ITC Stone Serif";
     link_font := "EurostileCandyW01" |}.

Definition dquote : ascii := ascii_of_nat 34.
Definition squote : ascii := ascii_of_nat 39.

Definition is_quote (c : ascii) : bool :=
  Ascii.eqb c squote || Ascii.eqb c dquote.

Fixpoint lstrip (p : ascii -> bool) (s : list ascii) : list ascii :=
  match s with
  | [] => []
  | c :: rest => if p c then lstrip p rest else s
  end.

(** [text.strip(chars)] *)
Definition strip (p : ascii -> bool) (s : string) : string :=
  string_of_list_ascii
    (rev (lstrip p (rev (lstrip p (list_ascii_of_string s))))).

Definition lower_ascii (c : ascii) : ascii :=
  let n := nat_of_ascii c in
  if (65 <=? n)%nat && (n <=? 90)%nat then ascii_of_nat (n + 32) else c.

Fixpoint lower (s : string) : string :=
  match s with
  | EmptyString => EmptyString
  | String c rest => String (lower_ascii c) (lower rest)
  end.

(** [range(start, stop, -1)] *)
Definition range_down (start stop : Z) : list Z :=
  (fun i => start - i) <$> seqZ 0 (start - stop).

(** The default of the [min_letter_spacing] parameter, [-1.0]. *)
Definition default_min_letter_spacing : PyFloat.float :=
  Eval vm_compute in PyFloat.of_Z (-1).

(** The specification's spacings, in its order: 0, -0.5, -1.0. *)
Definition minus_half : PyFloat.float :=
  Eval vm_compute in PyFloat.neg PyFloat.half.

Definition spec_spacings : list PyFloat.float :=
  [PyFloat.zero; minus_half; default_min_letter_spacing].

Section Fitting.

Variable self_fonts : fonts.

(** [QFontMetrics(font).boundingRect(rect, Qt.TextWordWrap, text).height()] *)
Variable bounding_height : QFont -> QRect -> string -> Z.

(** The body of the [while] loop: the font built for one size and one
    spacing, when the wrapped text is no taller than the rectangle. *)
Definition attempt (lore : bool) (rect : QRect) (text : string)
    (font_size : Z) (spacing : PyFloat.float) : option QFont :=
  let font_family := if lore then lore_font self_fonts
                     else main_font self_fonts in
  let font := {| family := font_family; point_size := font_size;
                 font_weight := Light; letter_spacing := spacing |} in
  if bounding_height font rect text <=? rect_height rect
  then Some font else None.

(** [while letter_spacing >= min_letter_spacing: ... letter_spacing -= 0.5].
    Each test of the loop condition takes one unit of fuel; the outer
    [None] is a loop that has not finished within the fuel. *)
Fixpoint while_spacing (fuel : nat) (lore : bool) (rect : QRect)
    (text : string) (font_size : Z)
    (spacing min_letter_spacing : PyFloat.float) : option (option QFont) :=
  match fuel with
  | O => None
  | S fuel' =>
      if PyFloat.geb spacing min_letter_spacing then
        match attempt lore rect text font_size spacing with
        | Some font => Some (Some font)
        | None =>
            while_spacing fuel' lore rect text font_size
              (PyFloat.sub spacing PyFloat.half) min_letter_spacing
        end
      else Some None
  end.

(** [for font_size in range(...)], left as soon as a font is chosen. *)
Fixpoint for_sizes (fuel : nat) (lore : bool) (rect : QRect) (text : string)
    (sizes : list Z) (min_letter_spacing : PyFloat.float)
    : option (option QFont) :=
  match sizes with
  | [] => Some None
  | font_size :: rest =>
      match while_spacing fuel lore rect text font_size PyFloat.zero
              min_letter_spacing with
      | None => None
      | Some (Some font) => Some (Some font)
      | Some None => for_sizes fuel lore rect text rest min_letter_spacing
      end
  end.

Definition fallback_font (min_font_size : Z)
    (min_letter_spacing : PyFloat.float) : QFont :=
  {| family := main_font self_fonts; point_size := min_font_size;
     font_weight := Normal; letter_spacing := min_letter_spacing |}.

(** Returns the font given to [painter.setFont] and the text given to
    [painter.drawText(rect, Qt.TextWordWrap, text)]. *)
Definition draw_fitted_description (fuel : nat) (frame_type : string)
    (rect : QRect) (text : string) (max_font_size min_font_size : Z)
    (min_letter_spacing : PyFloat.float) : option (QFont * string) :=
  let lore := String.eqb (lower frame_type) "normal" in
  let text := if lore then strip is_quote text else text in
  match for_sizes fuel lore rect text
          (range_down max_font_size (min_font_size - 1))
          min_letter_spacing with
  | None => None
  | Some (Some font) => Some (font, text)
  | Some None => Some (fallback_font min_font_size min_letter_spacing, text)
  end.

End Fitting.

End FontFit.

(** ** Frames: hue, saturation, brightness and the alpha gradient *)

Module Frame.

(** One RGBA pixel; each channel is a byte. *)
Record rgba := { red : Z; green : Z; blue : Z; alpha : Z }.

Record hsv := { hue : Z; sat : Z; val : Z }.

(** A raster as numpy has it: rows of pixels, [arr[row][column]]. *)
Abbreviation raster A := (list (list A)).
Abbreviation image := (raster rgba).

Definition map_raster {A B} (f : A -> B) (a : raster A) : raster B :=
  (fun row : list A => f <$> row) <$> a.

Definition zip_raster {A B C} (f : A -> B -> C) (a : raster A) (b : raster B)
  : raster C :=
  zip_with (zip_with f) a b.

(** The pixel in column [i] of row [j], when the frame has one there. *)
Definition pixel_at {A} (a : raster A) (i j : Z) : option A :=
  if (i <? 0) || (j <? 0) then None
  else match a !! Z.to_nat j with
       | Some row => row !! Z.to_nat i
       | None => None
       end.

Definition transparent : rgba := {| red := 0; green := 0; blue := 0; alpha := 0 |}.

Abbreviation box := (Z * Z * Z * Z)%type.

Definition in_box (b : box) (i j : Z) : bool :=
  let '(x0, y0, x1, y1) := b in
  (x0 <=? i) && (i <? x1) && (y0 <=? j) && (j <? y1).

(** [Image.crop(box)]: the rectangle, transparent where it leaves the
    image; Pillow refuses a box whose right or lower edge comes first. *)
Definition crop (im : image) (b : box) : result image :=
  let '(x0, y0, x1, y1) := b in
  if (x1 <? x0) || (y1 <? y0) then Raise ValueError
  else
    Ok ((fun r =>
           (fun c => default transparent (pixel_at im (x0 + c) (y0 + r)))
             <$> seqZ 0 (x1 - x0))
          <$> seqZ 0 (y1 - y0)).

(** [Image.paste(src, box)]: the pixels of [src] replace those of the image
    inside the box, clipped to the image. *)
Definition paste (im src : image) (b : box) : image :=
  let '(x0, y0, _, _) := b in
  imap (fun j row =>
          imap (fun i p =>
                  if in_box b (Z.of_nat i) (Z.of_nat j)
                  then default p (pixel_at src (Z.of_nat i - x0) (Z.of_nat j - y0))
                  else p)
               row)
       im.

(** [mod_arr[mask] = orig_arr[mask]] with [mask] a test on the original
    pixel. *)
Definition restore (mask : rgba -> bool) (orig_arr mod_arr : image) : image :=
  zip_raster (fun o m => if mask o then o else m) orig_arr mod_arr.

(** [int((hue / 360.0) * 255)] *)
Definition hue_shift (hue_deg : PyFloat.float) : result Z :=
  PyFloat.to_int
    (PyFloat.mul (PyFloat.div hue_deg (PyFloat.of_Z 360)) (PyFloat.of_Z 255)).

(** [(np_h.astype(int) + shift) % 256], for a shift that the integer
    type of the array holds, as every hue from -180 to 180 gives; beyond
    it numpy refuses the addition with [OverflowError], which this
    definition does not follow. *)
Definition shift_plane (shift : Z) (np_h : raster Z) : raster Z :=
  map_raster (fun h => (h + shift) mod 256) np_h.

(** [Image.merge("HSV", (h, s, v))] *)
Definition merge (h s v : raster Z) : raster hsv :=
  zip_raster (fun a sv => {| hue := a; sat := fst sv; val := snd sv |})
             h (zip_raster pair s v).

(** Python's [round] of a float: to the nearest integer, ties to even.
    The specification names it for the shift; the code calls [int]. *)
Definition py_round (x : PyFloat.float) : result Z :=
  match x with
  | S754_zero _ => Ok 0
  | S754_infinity _ => Raise OverflowError
  | S754_nan => Raise ValueError
  | S754_finite s m e =>
      let q := Z.shiftl (Zpos m) e in
      let r := Zpos m - Z.shiftl q (- e) in
      let twice := 2 * r in
      let unit := Z.shiftl 1 (- e) in
      let n := if e >=? 0 then Zpos m * 2 ^ e
               else if twice <? unit then q
               else if unit <? twice then q + 1
               else if Z.even q then q else q + 1 in
      Ok (cond_Zopp s n)
  end.

Definition spec_hue_shift (hue_deg : PyFloat.float) : result Z :=
  py_round
    (PyFloat.mul (PyFloat.div hue_deg (PyFloat.of_Z 360)) (PyFloat.of_Z 255)).

(** What [adjust_hue] does to the HSV triple of one pixel. *)
Definition shift_hue (shift : Z) (t : hsv) : hsv :=
  {| hue := (hue t + shift) mod 256;
     sat := sat t;
     val := val t |}.

Section Kernels.

(** Pillow's per-pixel colour kernels: RGB to HSV and back (the alpha
    channel takes no part), [ImageEnhance.Color(im).enhance(factor)] and
    [ImageEnhance.Brightness(im).enhance(factor)]. *)
Variable rgb_to_hsv : rgba -> hsv.
Variable hsv_to_rgb : hsv -> Z * Z * Z.
Variable enhance_color : PyFloat.float -> rgba -> rgba.
Variable enhance_brightness : PyFloat.float -> rgba -> rgba.

(** [hsv.convert("RGBA")]: the alpha channel is reset to opaque. *)
Definition hsv_to_rgba (t : hsv) : rgba :=
  let '(r, g, b) := hsv_to_rgb t in
  {| red := r; green := g; blue := b; alpha := 255 |}.

(** The HSV image that [adjust_hue] merges before converting back. *)
Definition shifted_hsv (im : image) (shift : Z) : raster hsv :=
  let hsv_im := map_raster rgb_to_hsv im in
  let h := map_raster hue hsv_im in
  let s := map_raster sat hsv_im in
  let v := map_raster val hsv_im in
  let np_h := shift_plane shift h in
  merge np_h s v.

Definition adjust_hue (im : image) (hue_deg : PyFloat.float) : result image :=
  do shift <- hue_shift hue_deg;
  Ok (map_raster hsv_to_rgba (shifted_hsv im shift)).

(** The three guarded steps that both branches of [adjust_frame] run. *)
Definition adjust_colours (im : image)
    (hue_deg saturation brightness : PyFloat.float) : result image :=
  do im1 <- (if PyFloat.neqb hue_deg PyFloat.zero
             then adjust_hue im hue_deg else Ok im);
  let im2 := if PyFloat.neqb saturation PyFloat.one
             then map_raster (enhance_color saturation) im1 else im1 in
  let im3 := if PyFloat.neqb brightness PyFloat.zero
             then
               let factor :=
                 PyFloat.add PyFloat.one
                   (PyFloat.div brightness (PyFloat.of_Z 150)) in
               map_raster (enhance_brightness factor) im2
             else im2 in
  Ok im3.

Definition adjust_frame (frame : image)
    (hue_deg saturation brightness : PyFloat.float)
    (region : option (Z * Z * Z * Z)) : result image :=
  match region with
  | Some (x, y, w, h) =>
      let region_box : box := (x, y, x + w, y + h) in
      do orig_region <- crop frame region_box;
      do mod_region <- adjust_colours orig_region hue_deg saturation brightness;
      let mod_arr := restore (fun p => alpha p <? 255) orig_region mod_region in
      Ok (paste frame mod_arr region_box)
  | None =>
      do mod_im <- adjust_colours frame hue_deg saturation brightness;
      Ok (restore (fun p => alpha p =? 0) frame mod_im)
  end.

(** What the three guarded steps do to one pixel. *)
Definition adjust_pixel (hue_deg saturation brightness : PyFloat.float)
    (shift : Z) (p : rgba) : rgba :=
  let p1 := if PyFloat.neqb hue_deg PyFloat.zero
            then hsv_to_rgba (shift_hue shift (rgb_to_hsv p))
            else p in
  let p2 := if PyFloat.neqb saturation PyFloat.one
            then enhance_color saturation p1 else p1 in
  if PyFloat.neqb brightness PyFloat.zero
  then enhance_brightness
         (PyFloat.add PyFloat.one (PyFloat.div brightness (PyFloat.of_Z 150))) p2
  else p2.

End Kernels.

(** *** The gradient *)

(** A slice bound, as Python normalises it for a sequence of length [n]. *)
Definition slice_bound (n i : Z) : Z :=
  if i <? 0 then Z.max (i + n) 0 else Z.min i n.

Definition in_slice (n lo hi : Z) (k : nat) : bool :=
  (slice_bound n lo <=? Z.of_nat k) && (Z.of_nat k <? slice_bound n hi).

(** [a[lo:hi] = x] for a scalar [x]. *)
Definition slice_fill {A} (a : list A) (lo hi : Z) (x : A) : list A :=
  let n := Z.of_nat (length a) in
  imap (fun k y => if in_slice n lo hi k then x else y) a.

(** [a[lo:hi] = src] for an array [src]: the lengths must agree (a single
    element is broadcast). *)
Definition slice_store {A} (a : list A) (lo hi : Z) (src : list A)
  : result (list A) :=
  let n := Z.of_nat (length a) in
  let len := Z.max 0 (slice_bound n hi - slice_bound n lo) in
  match src with
  | [x] => Ok (slice_fill a lo hi x)
  | _ =>
      if len =? Z.of_nat (length src) then
        Ok (imap (fun k y =>
                    if in_slice n lo hi k
                    then default y (src !! (k - Z.to_nat (slice_bound n lo))%nat)
                    else y)
                 a)
      else Raise ValueError
  end.

(** [np.linspace(start, stop, num, endpoint=True)] in float64. *)
Definition linspace (start stop : PyFloat.float) (num : Z)
  : list PyFloat.float :=
  let div := num - 1 in
  let delta := PyFloat.sub stop start in
  let y := PyFloat.of_Z <$> seqZ 0 num in
  let y := if 0 <? div
           then (fun t => PyFloat.mul t (PyFloat.div delta (PyFloat.of_Z div))) <$> y
           else (fun t => PyFloat.mul t delta) <$> y in
  let y := (fun t => PyFloat.add t start) <$> y in
  if 1 <? num then <[Z.to_nat (num - 1) := stop]> y else y.

Definition gradient_band_height : Z := 100.

(** The float32 row mask of [apply_gradient] for a frame of [height] rows. *)
Definition gradient_mask (height : Z) : result (list PyFloat.float) :=
  let start_y := (height - gradient_band_height) / 2 in
  let end_y := start_y + gradient_band_height in
  let mask := replicate (Z.to_nat height) PyFloat.f32_one in
  let mask := slice_fill mask 0 start_y PyFloat.zero in
  do mask <- slice_store mask start_y end_y
               (PyFloat.to_f32 <$>
                  linspace PyFloat.zero PyFloat.one gradient_band_height);
  Ok (slice_fill mask end_y height PyFloat.f32_one).

(** [(original_alpha * mask).astype(np.uint8)] for one pixel. *)
Definition scale_alpha (m : PyFloat.float) (p : rgba) : rgba :=
  {| red := red p; green := green p; blue := blue p;
     alpha := PyFloat.to_uint8 (PyFloat.f32_mul (PyFloat.f32_of_Z (alpha p)) m) |}.

Definition apply_gradient (frame : image) : result image :=
  let height := Z.of_nat (length frame) in
  do mask <- gradient_mask height;
  Ok (zip_with (fun m row => scale_alpha m <$> row) mask frame).

(** The ramp stored into the band, as float32 values. *)
Definition gradient_ramp : list PyFloat.float :=
  PyFloat.to_f32 <$>
    linspace PyFloat.zero PyFloat.one gradient_band_height.


End Frame.

(** ** Ingestion server and overlay transition *)

Module Server.

(** The sprites that [set_overlay_custom] fades. *)
Inductive widget :=
  | webp_main_spell_label | webp_main_trap_label | webp_xyz_label
  | webp_main_fusion_label | webp_main_normal_label | webp_main_label
  | webp_main_ritual_label | webp_link_label | webp_main_synchro_label
  | webp_main_pendulum_label | webp_desc_label | webp_artframe_label.

(** What the window asks of its children, in the order of the calls. *)
Inductive ui_call :=
  | fade_out (w : widget) (duration : Z)
  | fade_in (w : widget) (duration : Z)
  | opacity_animation (start_value end_value : Z)
  | transition_visible (b : bool)
  | transition_restart
  | transition_sound_play.

(** What a handler does to its socket. *)
Inductive net_call :=
  | socket_write (sock : nat) (data : string)
  | disconnect_from_host (sock : nat).

(** [border.startswith(p)] and ["_pendulum" in border]. *)
Definition startswith (border p : string) : bool := String.prefix p border.

Definition contains (needle s : string) : bool :=
  match String.index 0 needle s with
  | Some _ => true
  | None => false
  end.

Definition get_border_widget (border : string) : option widget :=
  if String.eqb border "spell" then Some webp_main_spell_label
  else if String.eqb border "trap" then Some webp_main_trap_label
  else if startswith border "xyz" then Some webp_xyz_label
  else if startswith border "fusion" then Some webp_main_fusion_label
  else if startswith border "normal" then Some webp_main_normal_label
  else if startswith border "effect" then Some webp_main_label
  else if startswith border "ritual" then Some webp_main_ritual_label
  else if startswith border "link" then Some webp_link_label
  else if startswith border "synchro" then Some webp_main_synchro_label
  else None.

Definition fade_border (border : string) (fade_method : widget -> Z -> ui_call)
    (duration : Z) : list ui_call :=
  match get_border_widget border with
  | Some w => [fade_method w duration]
  | None => []
  end.

(** The bytes of successive reads, put end to end. *)
Definition join (reads : list string) : string :=
  foldr String.append EmptyString reads.

(** The acknowledgement and the close that follow a dispatch. *)
Definition ack (socket : nat) : list net_call :=
  [socket_write socket "ACK"; disconnect_from_host socket].

Section Handlers.

Variable pixmap : Type.

(** [QPixmap("Default.png")] *)
Variable default_pixmap : pixmap.

(** [self.buffers[socket].decode("utf-8").strip()] followed by
    [json.loads]: the decoded document, or the exception raised. *)
Variable loads : string -> result Py.value.

(** The body of [if data.get("status") == "NewCard":]: the card data is
    decoded, the card is rendered, and the frame type and the rendered
    pixmap come back, unless one of the steps raises. *)
Variable new_card : Py.value -> result (string * pixmap).

(** [MainWindow]: the active border, the overlay's pixmap and the calls
    made on the child widgets. *)
Record window := {
  active_border : string;
  overlay : option pixmap;
  ui_calls : list ui_call
}.

(** [MainWindow.__init__] *)
Definition window_init : window :=
  {| active_border := "token"; overlay := None; ui_calls := [] |}.

Definition set_overlay_custom (frame : string) (card_pixmap : pixmap)
    (win : window) : window :=
  let fadeout_duration := 250 in
  let fadein_duration := 500 in
  let old := active_border win in
  let calls1 :=
    fade_border old fade_out fadeout_duration ++
    (if contains "_pendulum" old
     then [fade_out webp_main_pendulum_label fadeout_duration;
           fade_in webp_desc_label fadein_duration;
           fade_in webp_artframe_label fadein_duration]
     else []) in
  let calls2 :=
    fade_border frame fade_in fadein_duration ++
    (if contains "_pendulum" frame
     then [fade_in webp_main_pendulum_label fadein_duration;
           fade_out webp_desc_label fadeout_duration;
           fade_out webp_artframe_label fadeout_duration]
     else []) in
  let calls3 :=
    [opacity_animation 1 0; transition_visible true; transition_restart;
     transition_sound_play; opacity_animation 0 1; transition_visible false] in
  {| active_border := frame;
     overlay := Some card_pixmap;
     ui_calls := ui_calls win ++ calls1 ++ calls2 ++ calls3 |}.

(** [OverlayServer]: the per-socket accumulators, the calls made on the
    sockets, and the callbacks handed to [QTimer.singleShot(0, ...)]. *)
Record server := {
  buffers : gmap nat string;
  net_calls : list net_call;
  deferred : list (string * pixmap)
}.

Definition server_init : server :=
  {| buffers := ∅; net_calls := []; deferred := [] |}.

Definition set_buffer (sock : nat) (data : string) (st : server) : server :=
  {| buffers := <[sock := data]> (buffers st);
     net_calls := net_calls st;
     deferred := deferred st |}.

Definition handle_new_connection (sock : nat) (st : server) : server :=
  set_buffer sock EmptyString st.

(** The slot connected to [disconnected]: [self.buffers.pop(sock, None)]. *)
Definition on_disconnected (sock : nat) (st : server) : server :=
  {| buffers := delete sock (buffers st);
     net_calls := net_calls st;
     deferred := deferred st |}.

(** The frame type and pixmap that the handler passes on. *)
Definition select_card (data : Py.value) : result (string * pixmap) :=
  do status <- Py.get data "status";
  if Py.eq_str status "NewCard" then new_card data
  else Ok ("Default", default_pixmap).

(** [read_client]: the state it leaves, and the exception that leaves the
    slot, if any. *)
Definition read_client (sender : option nat) (new_data : string)
    (st : server) : server * option exn :=
  match sender with
  | None => (st, None)
  | Some socket =>
      match buffers st !! socket with
      | None => (st, Some KeyError)
      | Some buf =>
          let st := set_buffer socket (buf +:+ new_data) st in
          match loads (buf +:+ new_data) with
          | Raise JSONDecodeError => (st, None)
          | Raise e => (st, Some e)
          | Ok data =>
              let st := set_buffer socket EmptyString st in
              match select_card data with
              | Raise e => (st, Some e)
              | Ok (frame_type, card_pix) =>
                  ({| buffers := buffers st;
                      net_calls := net_calls st ++
                                   [socket_write socket "ACK";
                                    disconnect_from_host socket];
                      deferred := deferred st ++ [(frame_type, card_pix)] |},
                   None)
              end
          end
      end
  end.

(** Successive [readyRead] signals of one socket; an exception that leaves
    a slot is reported and the event loop goes on. *)
Fixpoint read_all (socket : nat) (reads : list string) (st : server)
  : server * list exn :=
  match reads with
  | [] => (st, [])
  | new_data :: rest =>
      let '(st1, e) := read_client (Some socket) new_data st in
      let '(st2, es) := read_all socket rest st1 in
      (st2, option_list e ++ es)
  end.

(** The application: the server and the window it drives. *)
Record app := { the_server : server; the_window : window }.

(** The next turn of the event loop runs the zero-delay callbacks in the
    order they were queued. *)
Definition run_deferred (a : app) : app :=
  {| the_server :=
       {| buffers := buffers (the_server a);
          net_calls := net_calls (the_server a);
          deferred := [] |};
     the_window :=
       fold_left (fun win cb => set_overlay_custom (fst cb) (snd cb) win)
                 (deferred (the_server a)) (the_window a) |}.

(** One [readyRead] and the event-loop turn that follows it. *)
Definition handle_read (socket : nat) (new_data : string) (a : app)
  : app * option exn :=
  let '(st, e) := read_client (Some socket) new_data (the_server a) in
  (run_deferred {| the_server := st; the_window := the_window a |}, e).

End Handlers.

(** A decoder for the documents of the examples below: the empty object
    and unsigned decimal literals, on which it agrees with [json.loads];
    everything else is refused. *)
Definition digit_value (c : ascii) : option Z :=
  let n := nat_of_ascii c in
  if (48 <=? n)%nat && (n <=? 57)%nat then Some (Z.of_nat n - 48) else None.

Fixpoint digits_value (acc : Z) (s : string) : option Z :=
  match s with
  | EmptyString => Some acc
  | String c rest =>
      match digit_value c with
      | Some d => digits_value (10 * acc + d) rest
      | None => None
      end
  end.

Definition loads_literal (s : string) : result Py.value :=
  if String.eqb s "{}" then Ok (Py.VDict [])
  else
    match s with
    | EmptyString => Raise JSONDecodeError
    | String c rest =>
        if Ascii.eqb c "0" && negb (String.eqb rest EmptyString)
        then Raise JSONDecodeError
        else match digits_value 0 s with
             | Some n => Ok (Py.VInt n)
             | None => Raise JSONDecodeError
             end
    end.

End Server.

(** * The rest of the card painter, the sprite loader and the window *)

(** Exceptions of the functions below that the ingestion path never
    meets, beside the builtin ones of [exn]. *)
Inductive error :=
  | ZeroDivisionError
  | FileNotFoundError
  | Builtin (e : exn).

Inductive outcome (A : Type) :=
  | Returns (a : A)
  | Raises (e : error).
Arguments Returns {A} a.
Arguments Raises {A} e.

(** ** [CardMakerWidget]: stars by card kind, art fade, link arrows, typeline *)

Module Widget.

(** [CARD_WIDTH], which [setFixedSize] makes [self.width()]. *)
Definition card_width : Z := 549.

(** [card_data.get(key, default)] *)
Definition get_default (card_data : list (string * Py.value)) (key : string)
    (dflt : Py.value) : Py.value :=
  default dflt (Py.assoc key card_data).

(** [v == s] for a string literal [s]. *)
Definition is_str (v : Py.value) (s : string) : bool :=
  match v with
  | Py.VStr s' => String.eqb s' s
  | _ => false
  end.

(** [card_type in ("Spell Card", "Trap Card")] *)
Definition is_spell_or_trap (card_type : Py.value) : bool :=
  is_str card_type "Spell Card" || is_str card_type "Trap Card".

(** [v.lower()]: only a string has the method. *)
Definition lower_of (v : Py.value) : result string :=
  match v with
  | Py.VStr s => Ok (FontFit.lower s)
  | _ => Raise AttributeError
  end.

(** The star image that a [drawPixmap] paints: [self.level_star] or
    [self.rank_star], scaled. *)
Inductive star_image := level_star | rank_star.

Section StarsByKind.

Variable int_of_str : string -> option Z.

(** The two star assets. *)
Variable level_star_is_null : bool.
Variable level_scaled_width : Z -> Z.
Variable rank_star_is_null : bool.
Variable rank_scaled_width : Z -> Z.

(** The [drawPixmap(x, y, star_scaled)] calls, each with the image it
    paints. *)
Definition _draw_level_and_rank_stars (card_data : list (string * Py.value))
  : result (list (star_image * (Z * Z))) :=
  let card_type := get_default card_data "type" (Py.VStr EmptyString) in
  if negb (is_spell_or_trap card_type) then
    do frame_type <- lower_of (get_default card_data "frameType"
                                 (Py.VStr EmptyString));
    if Server.startswith frame_type "xyz" then
      do draws <- Stars.draw_rank_stars int_of_str rank_star_is_null
                    rank_scaled_width Stars.level_rect
                    (Stars.level_entry card_data) 13;
      Ok (pair rank_star <$> draws)
    else
      do draws <- Stars.draw_level_stars int_of_str level_star_is_null
                    level_scaled_width Stars.level_rect
                    (Stars.level_entry card_data) 12;
      Ok (pair level_star <$> draws)
  else Ok [].

End StarsByKind.

(** *** [_fade_image] *)

(** [float(n)] and the conversion of an integer operand of a float
    operation: a value beyond the range of a float raises. *)
Definition float_of_int (n : Z) : outcome PyFloat.float :=
  match PyFloat.of_Z n with
  | S754_infinity _ => Raises (Builtin OverflowError)
  | x => Returns x
  end.

Definition is_zero (x : PyFloat.float) : bool :=
  match x with
  | S754_zero _ => true
  | _ => false
  end.

(** [a / b] on floats. *)
Definition float_div (a b : PyFloat.float) : outcome PyFloat.float :=
  if is_zero b then Raises ZeroDivisionError else Returns (PyFloat.div a b).

Definition lift {A} (r : result A) : outcome A :=
  match r with
  | Ok a => Returns a
  | Raise e => Raises (Builtin e)
  end.

Definition and_then {A B} (o : outcome A) (k : A -> outcome B) : outcome B :=
  match o with
  | Returns a => k a
  | Raises e => Raises e
  end.

(** The alpha of row [y]:
    [fade_progress = (y - fade_start) / float(fade_height)],
    [alpha = int(255 * (1.0 - fade_progress))], clamped to a byte. *)
Definition fade_alpha (fade_start fade_height y : Z) : outcome Z :=
  and_then (float_of_int fade_height) (fun fh =>
  and_then (float_of_int (y - fade_start)) (fun d =>
  and_then (float_div d fh) (fun fade_progress =>
  and_then (lift (PyFloat.to_int
                    (PyFloat.mul (PyFloat.of_Z 255)
                       (PyFloat.sub PyFloat.one fade_progress)))) (fun alpha =>
  Returns (Z.max 0 (Z.min 255 alpha)))))).

(** [QColor(r, g, b, alpha)] from the channels of [pixel]. *)
Definition with_alpha (alpha : Z) (pixel : Frame.rgba) : Frame.rgba :=
  {| Frame.red := Frame.red pixel; Frame.green := Frame.green pixel;
     Frame.blue := Frame.blue pixel; Frame.alpha := alpha |}.

(** The inner loop, on an ARGB32 image:
    [setPixelColor(x, y, QColor(r, g, b, alpha))] for every [x]; a row
    outside the image is not there to be written. *)
Definition set_row_alpha (y alpha : Z) (image : list (list Frame.rgba))
  : list (list Frame.rgba) :=
  if y <? 0 then image
  else alter (fmap (with_alpha alpha)) (Z.to_nat y) image.

Fixpoint fade_rows (fade_start fade_height : Z) (ys : list Z)
    (image : list (list Frame.rgba)) : outcome (list (list Frame.rgba)) :=
  match ys with
  | [] => Returns image
  | y :: rest =>
      and_then (fade_alpha fade_start fade_height y) (fun alpha =>
      fade_rows fade_start fade_height rest (set_row_alpha y alpha image))
  end.

(** [for y in range(fade_start, image.height()): ...] *)
Definition _fade_image (image : list (list Frame.rgba))
    (fade_start fade_height : Z) : outcome (list (list Frame.rgba)) :=
  let height := Z.of_nat (length image) in
  fade_rows fade_start fade_height (seqZ fade_start (height - fade_start)) image.

(** The fade of the pendulum art in [_draw_card_art]. *)
Definition fade_art (scaled_image : list (list Frame.rgba))
  : outcome (list (list Frame.rgba)) :=
  let fade_end := 100 in
  let fade_height := 90 in
  let fade_start := Z.max 0 (Z.of_nat (length scaled_image) - fade_end) in
  _fade_image scaled_image fade_start fade_height.

(** The alpha of the art fade written with integers, [offset] rows
    below the first faded row: the exact quotient, except on the three
    rows where the float product falls just short of a whole number. *)
Definition spec_fade_alpha (offset : Z) : Z :=
  if 90 <=? offset then 0
  else 255 * (90 - offset) / 90
       - (if bool_decide (offset ∈ [72; 78; 84]) then 1 else 0).

(** *** [_draw_link_arrows] *)

Inductive arrow_call :=
  | draw_base
  | draw_arrow (name : string) (x y : Z).

(** [arrow_positions.get(arrow_name, (0, 0))] *)
Definition arrow_position (arrow_name : string) : Z * Z :=
  if String.eqb arrow_name "Top" then (card_width / 2, 116)
  else if String.eqb arrow_name "Bottom" then (card_width / 2, 562)
  else if String.eqb arrow_name "Left" then (35, 304)
  else if String.eqb arrow_name "Right" then (482, 304)
  else if String.eqb arrow_name "Top-Left" then (46, 126)
  else if String.eqb arrow_name "Top-Right" then (453, 126)
  else if String.eqb arrow_name "Bottom-Left" then (46, 534)
  else if String.eqb arrow_name "Bottom-Right" then (453, 534)
  else (0, 0).

Section Arrows.

(** The width of the arrow image of a name, [None] when the pixmap is
    null. *)
Variable arrow_width : string -> option Z.

Definition place_arrow (arrow_name : string) (width : Z) : arrow_call :=
  let '(x, y) := arrow_position arrow_name in
  let x := if String.eqb arrow_name "Top" || String.eqb arrow_name "Bottom"
           then x - width / 2 else x in
  draw_arrow arrow_name x y.

Fixpoint draw_arrows (link_arrows : list string) : list arrow_call :=
  match link_arrows with
  | [] => []
  | arrow_name :: rest =>
      match arrow_width arrow_name with
      | None => draw_arrows rest
      | Some width => place_arrow arrow_name width :: draw_arrows rest
      end
  end.

(** [link_arrows] is the list of marker names of the card. *)
Definition _draw_link_arrows (link_arrows : list string) : list arrow_call :=
  match link_arrows with
  | [] => []
  | _ => draw_base :: draw_arrows link_arrows
  end.

End Arrows.

(** *** [_draw_typeline] *)

(** [str.upper] and [word[0]] on a text of ASCII characters, where a
    character is a byte: the letters a to z become A to Z and nothing
    else changes. On other text Python works on code points and this
    definition is not its model. *)
Definition upper_ascii (c : ascii) : ascii :=
  let n := nat_of_ascii c in
  if (97 <=? n)%nat && (n <=? 122)%nat then ascii_of_nat (n - 32) else c.

Fixpoint upper (s : string) : string :=
  match s with
  | EmptyString => EmptyString
  | String c rest => String (upper_ascii c) (upper rest)
  end.

(** One [painter.drawText(x, baseline, text)] under the font set, of the
    given point size. *)
Record text_call := {
  call_font_size : Z;
  call_x : Z;
  call_baseline : Z;
  call_text : string
}.

(** What a list of calls writes, read from left to right. *)
Definition drawn_text (calls : list text_call) : string :=
  foldr (fun c acc => call_text c +:+ acc) EmptyString calls.

Section Typeline.

(** [QFontMetrics(QFont(main_font, size, Bold))]: advance of a text,
    ascent and descent. *)
Variable advance : Z -> string -> Z.
Variable ascent : Z -> Z.
Variable descent : Z -> Z.

Definition font_size : Z := 15.
Definition front_font : Z := font_size + 1.
Definition full_font : Z := font_size.

(** [int(font_size * font_percentage)] with percentage 0.85. *)
Definition small_font : Z :=
  match PyFloat.to_int
          (PyFloat.mul (PyFloat.of_Z font_size)
             (PyFloat.div (PyFloat.of_Z 85) (PyFloat.of_Z 100))) with
  | Ok n => n
  | Raise _ => 0
  end.

(** The body of the loop for [word] at index [i] of [n] words: the calls
    it makes and the [x] it leaves. *)
Definition draw_word (baseline x i n : Z) (word : string)
  : list text_call * Z :=
  let '(calls, x) :=
    match word with
    | EmptyString => ([], x)
    | String c rest =>
        let first_letter := String (upper_ascii c) EmptyString in
        let calls := [ {| call_font_size := full_font; call_x := x;
                          call_baseline := baseline;
                          call_text := first_letter |} ] in
        let x := x + advance full_font first_letter in
        match rest with
        | EmptyString => (calls, x)
        | _ =>
            (calls ++ [ {| call_font_size := small_font; call_x := x;
                           call_baseline := baseline;
                           call_text := upper rest |} ],
             x + advance small_font (upper rest))
        end
    end in
  if i <? n - 1 then
    (calls ++ [ {| call_font_size := front_font; call_x := x;
                   call_baseline := baseline; call_text := "/" |} ],
     x + advance full_font "/")
  else (calls, x).

Fixpoint draw_words (baseline x i n : Z) (words : list string)
  : list text_call * Z :=
  match words with
  | [] => ([], x)
  | word :: rest =>
      let '(calls, x) := draw_word baseline x i n word in
      let '(more, x) := draw_words baseline x (i + 1) n rest in
      (calls ++ more, x)
  end.

Definition typeline_rect : QRect :=
  {| rect_x := 40; rect_y := 600; rect_width := 420; rect_height := 30 |}.

Definition _draw_typeline (card_type : Py.value) (typeline_words : list string)
  : list text_call :=
  if is_spell_or_trap card_type then []
  else
    let x := rect_x typeline_rect in
    let baseline :=
      rect_y typeline_rect
      + (rect_height typeline_rect + ascent full_font - descent full_font) / 2 in
    let open :=
      {| call_font_size := front_font; call_x := x;
         call_baseline := baseline; call_text := "[" |} in
    let x := x + advance full_font "[" in
    let '(calls, x) :=
      draw_words baseline x 0 (Z.of_nat (length typeline_words))
        typeline_words in
    open :: calls ++
      [ {| call_font_size := front_font; call_x := x;
           call_baseline := baseline; call_text := "]" |} ].

End Typeline.

End Widget.

(** ** [AnimatedWebPLabel.set_webp], repeated ticks, [AnimatedAPNGLabel.restart] *)

Module Label.

Section Loader.

Variable rgb_to_hsv : Frame.rgba -> Frame.hsv.
Variable hsv_to_rgb : Frame.hsv -> Z * Z * Z.
Variable enhance_color : PyFloat.float -> Frame.rgba -> Frame.rgba.
Variable enhance_brightness : PyFloat.float -> Frame.rgba -> Frame.rgba.

(** What [set_webp] does to one decoded RGBA frame before caching it. *)
Definition prepare_frame (hue_deg saturation brightness : PyFloat.float)
    (region : option (Z * Z * Z * Z)) (gradient : bool)
    (frame : list (list Frame.rgba)) : result (list (list Frame.rgba)) :=
  do frame <- (if PyFloat.neqb hue_deg PyFloat.zero
                  || PyFloat.neqb saturation PyFloat.one
                  || PyFloat.neqb brightness PyFloat.zero
               then Frame.adjust_frame rgb_to_hsv hsv_to_rgb enhance_color
                      enhance_brightness frame hue_deg saturation brightness
                      region
               else Ok frame);
  if gradient then Frame.apply_gradient frame else Ok frame.

(** The loop over the frames of the file: each prepared frame is
    appended; an exception leaves the loop with what was appended. *)
Fixpoint append_frames (hue_deg saturation brightness : PyFloat.float)
    (region : option (Z * Z * Z * Z)) (gradient : bool)
    (decoded : list (list (list Frame.rgba)))
    (w : Sprite.label (list (list Frame.rgba)))
  : Sprite.label (list (list Frame.rgba)) * option exn :=
  match decoded with
  | [] => (w, None)
  | frame :: rest =>
      match prepare_frame hue_deg saturation brightness region gradient frame with
      | Raise e => (w, Some e)
      | Ok prepared =>
          append_frames hue_deg saturation brightness region gradient rest
            {| Sprite.frames := Sprite.frames _ w ++ [prepared];
               Sprite.current_frame := Sprite.current_frame _ w;
               Sprite.shown := Sprite.shown _ w;
               Sprite.timer_running := Sprite.timer_running _ w |}
      end
  end.

(** [set_webp], given the RGBA frames that the file decodes to. *)
Definition set_webp (w : Sprite.label (list (list Frame.rgba)))
    (decoded : list (list (list Frame.rgba)))
    (hue_deg saturation brightness : PyFloat.float)
    (region : option (Z * Z * Z * Z)) (gradient : bool)
  : Sprite.label (list (list Frame.rgba)) * option exn :=
  let w0 := {| Sprite.frames := []; Sprite.current_frame := 0;
               Sprite.shown := Sprite.shown _ w;
               Sprite.timer_running := Sprite.timer_running _ w |} in
  match append_frames hue_deg saturation brightness region gradient decoded w0 with
  | (w1, Some e) => (w1, Some e)
  | (w1, None) =>
      let w2 := {| Sprite.frames := Sprite.frames _ w1;
                   Sprite.current_frame := Sprite.current_frame _ w1;
                   Sprite.shown := Sprite.shown _ w1;
                   Sprite.timer_running := true |} in
      match Sprite.update_frame _ w2 with
      | Ok w3 => (w3, None)
      | Raise e => (w2, Some e)
      end
  end.

End Loader.

Section Ticks.

Variable pixmap : Type.

(** [n] timeouts of the 42 ms timer. *)
Fixpoint ticks (n : nat) (w : Sprite.label pixmap) : result (Sprite.label pixmap) :=
  match n with
  | O => Ok w
  | S n' => do w' <- Sprite.next_frame pixmap w; ticks n' w'
  end.

(** [AnimatedAPNGLabel.restart] *)
Definition restart (w : Sprite.label pixmap) : result (Sprite.label pixmap) :=
  Sprite.update_frame pixmap
    {| Sprite.frames := Sprite.frames pixmap w; Sprite.current_frame := 0;
       Sprite.shown := Sprite.shown pixmap w;
       Sprite.timer_running := Sprite.timer_running pixmap w |}.

End Ticks.

End Label.

(** ** [AnimatedWebPLabel]: [fade_in], [fade_out], [_on_fade_out_finished] *)

Module Fade.

(** The opacity animation while it runs: the end value it goes to and
    its duration in ms. *)
Record animation := { end_value : PyFloat.float; duration : Z }.

#[global] Instance widget_eq_dec : EqDecision Server.widget.
Proof. solve_decision. Defined.

Section Fade.

Variable pixmap : Type.

(** [finished.disconnect(slot)] inside [try ... except Exception: pass]:
    how many of [n] connections of the slot are left. *)
Variable disconnect : nat -> nat.

(** The fields that the fades read and write: the sprite with its timer,
    the flag, the animation ([None] when it is stopped) and the number of
    connections of [finished] to [_on_fade_out_finished]. *)
Record fading := {
  sprite : Sprite.label pixmap;
  _is_fading_out : bool;
  fade_animation : option animation;
  finished_slots : nat
}.

(** [AnimatedWebPLabel.__init__] *)
Definition init : fading :=
  {| sprite := Sprite.init pixmap; _is_fading_out := false;
     fade_animation := None; finished_slots := 0 |}.

(** [fade_in]: the running animation is stopped short of its end, which
    emits nothing; the position is reset, the timer started, and the
    animation started towards 1.0. *)
Definition fade_in (duration : Z) (w : fading) : fading :=
  {| sprite := Sprite.fade_in pixmap (sprite w);
     _is_fading_out := _is_fading_out w;
     fade_animation := Some {| end_value := PyFloat.one; duration := duration |};
     finished_slots := finished_slots w |}.

(** [fade_out]: the flag is set, the slot connected once more, and the
    animation started towards 0.0. *)
Definition fade_out (duration : Z) (w : fading) : fading :=
  {| sprite := sprite w;
     _is_fading_out := true;
     fade_animation := Some {| end_value := PyFloat.zero; duration := duration |};
     finished_slots := S (finished_slots w) |}.

(** [self.timer.stop()] *)
Definition stop_timer (s : Sprite.label pixmap) : Sprite.label pixmap :=
  {| Sprite.frames := Sprite.frames pixmap s;
     Sprite.current_frame := Sprite.current_frame pixmap s;
     Sprite.shown := Sprite.shown pixmap s;
     Sprite.timer_running := false |}.

Definition _on_fade_out_finished (w : fading) : fading :=
  {| sprite := if _is_fading_out w then stop_timer (sprite w) else sprite w;
     _is_fading_out := false;
     fade_animation := fade_animation w;
     finished_slots := disconnect (finished_slots w) |}.

(** The running animation reaches its end: it is stopped and [finished]
    is emitted, which runs the slot when it is connected. *)
Definition animation_finished (w : fading) : fading :=
  match fade_animation w with
  | None => w
  | Some _ =>
      let stopped := {| sprite := sprite w;
                        _is_fading_out := _is_fading_out w;
                        fade_animation := None;
                        finished_slots := finished_slots w |} in
      match finished_slots w with
      | O => stopped
      | S _ => _on_fade_out_finished stopped
      end
  end.

(** What the label goes through: the two fades and the ends of the
    animation. *)
Inductive event :=
  | FadeIn (duration : Z)
  | FadeOut (duration : Z)
  | Finished.

Definition step (w : fading) (e : event) : fading :=
  match e with
  | FadeIn d => fade_in d w
  | FadeOut d => fade_out d w
  | Finished => animation_finished w
  end.

Definition run (events : list event) (w : fading) : fading :=
  fold_left step events w.

(** The flag is only set while the slot is connected. *)
Definition flag_connected (w : fading) : Prop :=
  _is_fading_out w = true -> finished_slots w <> 0%nat.

(** What the events alone say of a label: whether the timer runs,
    whether [fade_out] was called since an animation last reached its
    end, and whether an animation runs. *)
Record summary := { timer_on : bool; pending_out : bool; animating : bool }.

Definition summary_of (w : fading) : summary :=
  {| timer_on := Sprite.timer_running pixmap (sprite w);
     pending_out := _is_fading_out w;
     animating := match fade_animation w with Some _ => true | None => false end |}.

Definition spec_step (s : summary) (e : event) : summary :=
  match e with
  | FadeIn _ =>
      {| timer_on := true; pending_out := pending_out s; animating := true |}
  | FadeOut _ =>
      {| timer_on := timer_on s; pending_out := true; animating := true |}
  | Finished =>
      if animating s
      then {| timer_on := timer_on s && negb (pending_out s);
              pending_out := false; animating := false |}
      else s
  end.

(** The calls of a window transition that are made on one sprite. *)
Definition events_of (target : Server.widget) (calls : list Server.ui_call)
  : list event :=
  omap (fun c => match c with
                 | Server.fade_in t d =>
                     if bool_decide (t = target) then Some (FadeIn d) else None
                 | Server.fade_out t d =>
                     if bool_decide (t = target) then Some (FadeOut d) else None
                 | _ => None
                 end) calls.

End Fade.

End Fade.

(** ** [MainWindow.get_asset_path] *)

Module Window.

(** The truth value of a Python value. *)
Definition truthy (v : Py.value) : bool :=
  match v with
  | Py.VNone => false
  | Py.VBool b => b
  | Py.VInt n => negb (n =? 0)
  | Py.VFloat f => PyFloat.neqb f PyFloat.zero
  | Py.VStr s => negb (String.eqb s EmptyString)
  | Py.VList l => match l with [] => false | _ => true end
  | Py.VDict kv => match kv with [] => false | _ => true end
  end.

(** [self.args and self.args.get("static", False)] as a condition. *)
Definition static_flag (args : option (list (string * Py.value))) : bool :=
  match args with
  | None | Some [] => false
  | Some kv => truthy (default (Py.VBool false) (Py.assoc "static" kv))
  end.

Definition ext_order (args : option (list (string * Py.value))) : list string :=
  if static_flag args then ["png"] else ["webp"; "png"]%string.

Section Assets.

(** [os.path.exists] and [os.path.join]. *)
Variable path_exists : string -> bool.
Variable path_join : string -> string -> string.

Definition candidate (rootpath asset_name ext : string) : string :=
  path_join rootpath ("all_card/" +:+ asset_name +:+ "." +:+ ext).

Fixpoint first_existing (rootpath asset_name : string) (exts : list string)
  : outcome string :=
  match exts with
  | [] => Raises FileNotFoundError
  | ext :: rest =>
      if path_exists (candidate rootpath asset_name ext)
      then Returns (candidate rootpath asset_name ext)
      else first_existing rootpath asset_name rest
  end.

Definition get_asset_path (args : option (list (string * Py.value)))
    (rootpath asset_name : string) : outcome string :=
  first_existing rootpath asset_name (ext_order args).

End Assets.

End Window.

(** * Sample data

    Concrete inputs on which the definitions are run in the examples. *)

Definition two_frames : Sprite.label nat :=
  {| Sprite.frames := [10; 20]%nat; Sprite.current_frame := 0;
     Sprite.shown := None; Sprite.timer_running := true |}.

Definition no_frames : Sprite.label nat :=
  {| Sprite.frames := []; Sprite.current_frame := 0;
     Sprite.shown := None; Sprite.timer_running := true |}.

(** A run of the search: a metric under which only size 9 and below fits
    the description rectangle of a monster card. *)
Definition desc_rect : QRect :=
  {| rect_x := 42; rect_y := 628; rect_width := 465; rect_height := 99 |}.

Definition tall_metric (font : FontFit.QFont) (rect : QRect) (text : string) : Z :=
  11 * FontFit.point_size font.

(** Stand-ins for Pillow's kernels, to run the definitions on examples;
    the theorems below hold for every kernel. *)
Definition plain_rgb_to_hsv (p : Frame.rgba) : Frame.hsv :=
  {| Frame.hue := Frame.red p; Frame.sat := Frame.green p;
     Frame.val := Frame.blue p |}.

Definition plain_hsv_to_rgb (t : Frame.hsv) : Z * Z * Z :=
  (Frame.hue t, Frame.sat t, Frame.val t).

Definition plain_enhance (factor : PyFloat.float) (p : Frame.rgba) : Frame.rgba :=
  {| Frame.red := Frame.red p / 2; Frame.green := Frame.green p / 2;
     Frame.blue := Frame.blue p / 2; Frame.alpha := Frame.alpha p |}.

Definition px (r g b a : Z) : Frame.rgba :=
  {| Frame.red := r; Frame.green := g; Frame.blue := b; Frame.alpha := a |}.

(** A frame of two rows and two columns: an opaque, a translucent and a
    transparent pixel. *)
Definition sample_frame : list (list Frame.rgba) :=
  [[px 250 20 30 255; px 10 20 30 128];
   [px 1 2 3 0; px 200 100 50 255]].

Definition hue_90 : PyFloat.float := Eval vm_compute in PyFloat.of_Z 90.
Definition hue_1 : PyFloat.float := Eval vm_compute in PyFloat.of_Z 1.
Definition sat_08 : PyFloat.float :=
  Eval vm_compute in PyFloat.div (PyFloat.of_Z 4) (PyFloat.of_Z 5).

Definition tall_frame : list (list Frame.rgba) :=
  replicate 120 [px 1 2 3 200].

(** The examples run the server on pixmaps named by numbers, with the
    decoder [Server.loads_literal]; none of them takes the NewCard branch. *)
Definition no_new_card (data : Py.value) : result (string * nat) :=
  Raise ValueError.

Definition one_connection : Server.server nat :=
  Server.handle_new_connection nat 0 (Server.server_init nat).

Definition app_start : Server.app nat :=
  {| Server.the_server := one_connection;
     Server.the_window := Server.window_init nat |}.

(** A second connection, a decoder that refuses an opening brace alone
    and reads any other text as a NewCard message, and a render that
    returns: with them the examples take the NewCard branch. *)
Definition two_connections : Server.server nat :=
  Server.handle_new_connection nat 1 one_connection.

Definition new_card_message : list (string * Py.value) :=
  [("status"%string, Py.VStr "NewCard")].

Definition loads_new_card (s : string) : result Py.value :=
  if String.eqb s "{" then Raise JSONDecodeError
  else Ok (Py.VDict new_card_message).

Definition render_xyz (data : Py.value) : result (string * nat) :=
  Ok ("xyz"%string, 7%nat).

(** A sprite before its file is loaded. *)
Definition blank_sprite : Sprite.label (list (list Frame.rgba)) :=
  {| Sprite.frames := []; Sprite.current_frame := 0;
     Sprite.shown := None; Sprite.timer_running := false |}.

(** Star assets as wide as they are high, and no text that reads as an
    integer. *)
Definition square_star (height : Z) : Z := height.

Definition no_int_of_str (s : string) : option Z := None.

Definition xyz_card : list (string * Py.value) :=
  [("type"%string, Py.VStr "XYZ Monster");
   ("frameType"%string, Py.VStr "XYZ");
   ("level"%string, Py.VInt 4)].

(** Arrow images 40 wide, one of them missing. *)
Definition arrow_widths (name : string) : option Z :=
  if String.eqb name "Missing" then None else Some 40.

(** Font metrics in which every character advances by the point size. *)
Definition char_advance (size : Z) (text : string) : Z :=
  size * Z.of_nat (String.length text).

Definition plain_ascent (size : Z) : Z := size.

Definition plain_descent (size : Z) : Z := 3.

(** A file system that holds one png, and one that holds the webp too. *)
Definition slash_join (a b : string) : string := a +:+ "/" +:+ b.

Definition only_png (path : string) : bool :=
  String.eqb path "root/all_card/xyz.png".

Definition both_files (path : string) : bool :=
  String.eqb path "root/all_card/xyz.png"
  || String.eqb path "root/all_card/xyz.webp".

(** A window whose active border is an effect monster, and a sprite as
    it is made. *)
Definition effect_window : Server.window nat :=
  Server.set_overlay_custom nat "effect" 1%nat (Server.window_init nat).

Definition new_label : Fade.fading nat := Fade.init nat.

(** * Properties *)

(** ** Floats: negation commutes with the operations of the hue shift *)

Lemma float_neg_involutive x : PyFloat.neg (PyFloat.neg x) = x.
Proof. destruct x as [s|s| |s m e]; simpl; try destruct s; reflexivity. Qed.

Lemma round_aux_sign prec emax s mx ex lx :
  binary_round_aux prec emax (negb s) mx ex lx
  = SFopp (binary_round_aux prec emax s mx ex lx).
Proof.
  unfold binary_round_aux.
  destruct (shr_fexp _ _ _ _ _) as [mrs' e'].
  destruct (shr_fexp _ _ _ _ _) as [mrs'' e''].
  destruct (shr_m mrs'') as [|p|p]; simpl; try reflexivity.
  destruct (e'' <=? _)%Z; reflexivity.
Qed.

Lemma float_mul_neg_l x y :
  PyFloat.mul (PyFloat.neg x) y = PyFloat.neg (PyFloat.mul x y).
Proof.
  destruct x as [sx|sx| |sx mx ex], y as [sy|sy| |sy my ey];
    try reflexivity; simpl;
    try (destruct sx, sy; reflexivity).
  rewrite <- round_aux_sign. f_equal. destruct sx, sy; reflexivity.
Qed.

Lemma float_div_neg_l x y :
  PyFloat.div (PyFloat.neg x) y = PyFloat.neg (PyFloat.div x y).
Proof.
  destruct x as [sx|sx| |sx mx ex], y as [sy|sy| |sy my ey];
    try reflexivity; simpl;
    try (destruct sx, sy; reflexivity).
  destruct (SFdiv_core_binary _ _ _ _ _ _) as [[mz ez] lz].
  rewrite <- round_aux_sign. f_equal. destruct sx, sy; reflexivity.
Qed.

Lemma float_to_int_neg x z :
  PyFloat.to_int x = Ok z -> PyFloat.to_int (PyFloat.neg x) = Ok (- z).
Proof.
  destruct x as [s|s| |s m e]; simpl; intros H; inversion H; subst; clear H.
  - reflexivity.
  - unfold PyFloat.truncate. destruct s; simpl; f_equal; lia.
Qed.

(** ** Animated sprite *)

Section SpriteFacts.

Context {pixmap : Type}.
Implicit Types w : Sprite.label pixmap.

Lemma index_in_range (l : list pixmap) (i : nat) :
  (i < length l)%nat -> exists f, l !! i = Some f /\ Sprite.index pixmap l i = Ok f.
Proof.
  intros Hi. destruct (lookup_lt_is_Some_2 l i Hi) as [f Hf].
  exists f. unfold Sprite.index. rewrite Hf. auto.
Qed.

(** The position stays an index into the frames. *)
Lemma update_frame_position_ok w w' :
  Sprite.position_ok pixmap w ->
  Sprite.update_frame pixmap w = Ok w' ->
  Sprite.position_ok pixmap w'.
Proof.
  unfold Sprite.position_ok, Sprite.update_frame.
  intros Hok. destruct (Sprite.frames pixmap w) as [|f0 fs] eqn:Hfs.
  - intros [= <-]. left. exact Hfs.
  - destruct (Sprite.index pixmap _ _) as [f|e]; unfold bind; [|discriminate].
    intros H.
    assert (Hw' : w' = {| Sprite.frames := f0 :: fs;
                          Sprite.current_frame :=
                            (Sprite.current_frame pixmap w + 1)
                              mod length (f0 :: fs);
                          Sprite.shown := Some f;
                          Sprite.timer_running := Sprite.timer_running pixmap w |})
      by congruence.
    subst w'. right.
    unfold Sprite.frames at 1, Sprite.current_frame at 1.
    apply Nat.mod_upper_bound. discriminate.
Qed.

Lemma init_position_ok : Sprite.position_ok pixmap (Sprite.init pixmap).
Proof. left. reflexivity. Qed.

Lemma fade_in_position_ok w : Sprite.position_ok pixmap (Sprite.fade_in pixmap w).
Proof.
  unfold Sprite.position_ok, Sprite.fade_in. simpl.
  destruct (Sprite.frames pixmap w); [left; reflexivity | right; simpl; lia].
Qed.

Lemma set_frames_returns w decoded :
  exists w', Sprite.set_frames pixmap w decoded = Ok w'
             /\ Sprite.position_ok pixmap w'
             /\ Sprite.frames pixmap w' = decoded.
Proof.
  destruct (Sprite.set_frames pixmap w decoded) as [w'|e] eqn:Hset.
  - exists w'. split; [reflexivity|].
    unfold Sprite.set_frames in Hset. split.
    + apply (update_frame_position_ok _ _ (fade_in_position_ok
               {| Sprite.frames := decoded; Sprite.current_frame := 0;
                  Sprite.shown := Sprite.shown pixmap w;
                  Sprite.timer_running := true |}) Hset).
    + unfold Sprite.update_frame in Hset.
      destruct decoded as [|f fs]; cbn [Sprite.frames] in Hset.
      * injection Hset as <-. reflexivity.
      * destruct (Sprite.index pixmap _ _); unfold bind in Hset;
          [|discriminate].
        assert (Hw' : Ok w' = Ok _) by (symmetry; exact Hset).
        clear Hset. apply (f_equal (fun r => match r with
                                             | Ok a => Sprite.frames pixmap a
                                             | Raise _ => []
                                             end)) in Hw'.
        exact Hw'.
  - exfalso. unfold Sprite.set_frames, Sprite.update_frame in Hset.
    destruct decoded as [|f fs]; cbn [Sprite.frames] in Hset; [discriminate|].
    unfold Sprite.index in Hset. discriminate.
Qed.

(** C8 (amended): on a sprite that has frames, a tick shows the frame at
    the position it finds and then moves the position on by one modulo the
    number of frames; the frame shown is the one at the position before
    the advance. *)
Theorem update_frame_shows_then_advances w :
  Sprite.frames pixmap w <> [] ->
  (Sprite.current_frame pixmap w < length (Sprite.frames pixmap w))%nat ->
  exists f w',
    Sprite.update_frame pixmap w = Ok w'
    /\ Sprite.frames pixmap w !! Sprite.current_frame pixmap w = Some f
    /\ Sprite.shown pixmap w' = Some f
    /\ Sprite.current_frame pixmap w'
       = ((Sprite.current_frame pixmap w + 1)
            mod length (Sprite.frames pixmap w))%nat
    /\ Sprite.frames pixmap w' = Sprite.frames pixmap w
    /\ Sprite.timer_running pixmap w' = Sprite.timer_running pixmap w.
Proof.
  intros Hne Hlt.
  destruct (index_in_range _ _ Hlt) as (f & Hf & Hidx).
  unfold Sprite.update_frame.
  destruct (Sprite.frames pixmap w) as [|f0 fs] eqn:Hfs; [congruence|].
  rewrite Hidx. cbn [bind]. exists f. eexists. split; [reflexivity|].
  cbn [Sprite.frames Sprite.current_frame Sprite.shown Sprite.timer_running].
  auto.
Qed.

(** C10: a tick on a sprite without frames returns the sprite as it was:
    nothing is shown, the position stays, and nothing is raised. *)
Theorem update_frame_no_frames w :
  Sprite.frames pixmap w = [] ->
  Sprite.update_frame pixmap w = Ok w
  /\ Sprite.next_frame pixmap w = Ok w.
Proof.
  intros Hfs. unfold Sprite.next_frame, Sprite.update_frame.
  rewrite Hfs. auto.
Qed.

End SpriteFacts.

Lemma update_frame_shows_then_advances_witness :
  exists f w',
    Sprite.update_frame nat two_frames = Ok w'
    /\ Sprite.frames nat two_frames !! Sprite.current_frame nat two_frames = Some f
    /\ Sprite.shown nat w' = Some f
    /\ Sprite.current_frame nat w'
       = ((Sprite.current_frame nat two_frames + 1)
            mod length (Sprite.frames nat two_frames))%nat
    /\ Sprite.frames nat w' = Sprite.frames nat two_frames
    /\ Sprite.timer_running nat w' = Sprite.timer_running nat two_frames.
Proof.
  apply (update_frame_shows_then_advances two_frames).
  - discriminate.
  - simpl. lia.
Defined.

(** C8 as the specification words it fails on a sprite of two frames at
    position 0: the tick moves the position to 1, where frame 20 is, and
    the label shows frame 10. *)
Lemma update_frame_new_position_counterexample :
  exists w',
    Sprite.update_frame nat two_frames = Ok w'
    /\ Sprite.current_frame nat w' = 1%nat
    /\ Sprite.frames nat w' !! Sprite.current_frame nat w' = Some 20%nat
    /\ Sprite.shown nat w' = Some 10%nat
    /\ Sprite.shown nat w'
       <> Sprite.frames nat w' !! Sprite.current_frame nat w'.
Proof.
  eexists. split; [reflexivity|]. simpl.
  repeat split; discriminate.
Qed.

Lemma update_frame_no_frames_witness :
  Sprite.update_frame nat no_frames = Ok no_frames
  /\ Sprite.next_frame nat no_frames = Ok no_frames.
Proof. apply (update_frame_no_frames no_frames). reflexivity. Defined.

(** ** Level and rank stars *)

Section StarsFacts.

Variable int_of_str : string -> option Z.
Variable scaled_width : Z -> Z.

Lemma length_range n : Z.of_nat (length (range n)) = Z.max 0 n.
Proof. unfold range. rewrite length_seqZ. lia. Qed.

Lemma clamp_cases level max_stars :
  Stars.clamp level 0 max_stars = Z.max 0 (Z.min level max_stars).
Proof. reflexivity. Qed.

(** With the star image loaded, the level row has
    [clamp(level, 0, max_stars)] stars. *)
Lemma draw_level_stars_count rect level_value max_stars level :
  Stars.level_of int_of_str level_value = Ok level ->
  exists draws,
    Stars.draw_level_stars int_of_str false scaled_width rect level_value max_stars
      = Ok draws
    /\ Z.of_nat (length draws) = Stars.clamp level 0 max_stars.
Proof.
  intros Hlevel. unfold Stars.draw_level_stars. rewrite Hlevel.
  unfold bind, Stars.clamp. rewrite orb_false_l.
  destruct (Z.min level max_stars <=? 0) eqn:Hle.
  - exists []. split; [reflexivity|]. simpl. lia.
  - eexists. split; [reflexivity|].
    rewrite length_fmap, length_range. lia.
Qed.

(** The same for the rank row. *)
Lemma draw_rank_stars_count rect level_value max_stars level :
  Stars.level_of int_of_str level_value = Ok level ->
  exists draws,
    Stars.draw_rank_stars int_of_str false scaled_width rect level_value max_stars
      = Ok draws
    /\ Z.of_nat (length draws) = Stars.clamp level 0 max_stars.
Proof.
  intros Hlevel. unfold Stars.draw_rank_stars. rewrite Hlevel.
  unfold bind, Stars.clamp. rewrite orb_false_l.
  destruct (Z.min level max_stars <=? 0) eqn:Hle.
  - exists []. split; [reflexivity|]. simpl. lia.
  - eexists. split; [reflexivity|].
    rewrite length_fmap, length_range. lia.
Qed.

(** The conversions that the [except] clause catches give level 0. *)
Lemma level_of_caught level_value e :
  Py.int int_of_str level_value = Raise e ->
  e = ValueError \/ e = TypeError ->
  Stars.level_of int_of_str level_value = Ok 0.
Proof.
  intros Hint He. unfold Stars.level_of. rewrite Hint.
  destruct He as [-> | ->]; reflexivity.
Qed.

Lemma level_of_converted level_value level :
  Py.int int_of_str level_value = Ok level ->
  Stars.level_of int_of_str level_value = Ok level.
Proof. intros Hint. unfold Stars.level_of. rewrite Hint. reflexivity. Qed.

(** [None], a NaN, a list, a dictionary and a string that is no integer
    literal are such inputs; so is a missing entry, which reads as 0. *)
Lemma level_of_none : Stars.level_of int_of_str Py.VNone = Ok 0.
Proof. reflexivity. Qed.

Lemma level_of_nan : Stars.level_of int_of_str (Py.VFloat S754_nan) = Ok 0.
Proof. reflexivity. Qed.

Lemma level_of_text s :
  int_of_str s = None -> Stars.level_of int_of_str (Py.VStr s) = Ok 0.
Proof. intros Hs. unfold Stars.level_of. simpl. rewrite Hs. reflexivity. Qed.

Lemma level_of_missing card_data :
  Py.assoc "level" card_data = None ->
  Stars.level_of int_of_str (Stars.level_entry card_data) = Ok 0.
Proof. intros Hm. unfold Stars.level_entry. rewrite Hm. reflexivity. Qed.

(** Level 0 draws nothing. *)
Lemma draw_nothing_at_zero star_is_null rect level_value max_stars :
  Stars.level_of int_of_str level_value = Ok 0 ->
  Stars.draw_level_stars int_of_str star_is_null scaled_width rect level_value max_stars
    = Ok []
  /\ Stars.draw_rank_stars int_of_str star_is_null scaled_width rect level_value max_stars
    = Ok [].
Proof.
  intros Hlevel. unfold Stars.draw_level_stars, Stars.draw_rank_stars.
  rewrite Hlevel. unfold bind.
  assert (Hle : (Z.min 0 max_stars <=? 0) = true) by (apply Z.leb_le; lia).
  rewrite Hle, orb_true_r. auto.
Qed.

(** C5, at the input where the code departs from it: an infinite float
    is not convertible to an integer, [int] raises [OverflowError], the
    [except (ValueError, TypeError)] clause lets it through, and both
    painters raise instead of drawing no star. *)
Theorem draw_stars_infinity_raises star_is_null rect s :
  Stars.draw_level_stars int_of_str star_is_null scaled_width rect
    (Py.VFloat (S754_infinity s)) 12 = Raise OverflowError
  /\ Stars.draw_rank_stars int_of_str star_is_null scaled_width rect
    (Py.VFloat (S754_infinity s)) 13 = Raise OverflowError.
Proof. split; reflexivity. Qed.

End StarsFacts.

(** ** Description text fitting *)

Section FontFitFacts.

Variable self_fonts : FontFit.fonts.
Variable bounding_height : FontFit.QFont -> QRect -> string -> Z.

Abbreviation attempt := (FontFit.attempt self_fonts bounding_height).

(** The font of a candidate: the lore or the main family, light, with
    the size and the spacing of the candidate. *)
Abbreviation font_of lore size spacing :=
  {| FontFit.family := if lore then FontFit.lore_font self_fonts
                       else FontFit.main_font self_fonts;
     FontFit.point_size := size;
     FontFit.font_weight := FontFit.Light;
     FontFit.letter_spacing := spacing |}.

Lemma range_down_length start stop :
  Z.of_nat (length (FontFit.range_down start stop)) = Z.max 0 (start - stop).
Proof. unfold FontFit.range_down. rewrite length_fmap, length_seqZ. lia. Qed.

(** [range_down max (min - 1)] lists [max, max - 1, ..., min]. *)
Lemma range_down_lookup start stop (i : nat) :
  Z.of_nat i < start - stop ->
  FontFit.range_down start stop !! i = Some (start - Z.of_nat i).
Proof.
  intros Hi. unfold FontFit.range_down.
  rewrite list_lookup_fmap, lookup_seqZ_lt by lia. reflexivity.
Qed.

Lemma range_down_cons start stop :
  0 < start - stop ->
  FontFit.range_down start stop = start :: FontFit.range_down (start - 1) stop.
Proof.
  intros Hpos. unfold FontFit.range_down.
  rewrite (seqZ_cons 0) by lia. cbn [fmap list_fmap].
  rewrite Z.sub_0_r. f_equal.
  replace (Z.succ 0) with (1 + 0) by lia.
  rewrite <- fmap_add_seqZ, <- list_fmap_compose.
  replace (Z.pred (start - stop)) with (start - 1 - stop) by lia.
  apply list_fmap_ext. intros _ i _. simpl. lia.
Qed.

Lemma range_down_nil start stop :
  start - stop <= 0 -> FontFit.range_down start stop = [].
Proof.
  intros Hle. unfold FontFit.range_down. rewrite seqZ_nil by lia. reflexivity.
Qed.

Lemma attempt_cases lore rect text size spacing :
  attempt lore rect text size spacing
  = if bounding_height (font_of lore size spacing) rect text <=? rect_height rect
    then Some (font_of lore size spacing) else None.
Proof. reflexivity. Qed.

(** The inner loop with the default bound tests spacings 0, -0.5 and -1.0
    and stops. *)
Lemma while_spacing_default fuel lore rect text font_size :
  (4 <= fuel)%nat ->
  FontFit.while_spacing self_fonts bounding_height fuel lore rect text
    font_size PyFloat.zero FontFit.default_min_letter_spacing
  = Some (head (omap (attempt lore rect text font_size) FontFit.spec_spacings)).
Proof.
  intros Hfuel.
  destruct fuel as [|[|[|[|fuel]]]]; try lia. clear Hfuel.
  cbn [FontFit.while_spacing].
  change (PyFloat.geb PyFloat.zero FontFit.default_min_letter_spacing) with true.
  change (PyFloat.sub PyFloat.zero PyFloat.half) with FontFit.minus_half.
  change (PyFloat.geb FontFit.minus_half FontFit.default_min_letter_spacing) with true.
  replace (PyFloat.sub FontFit.minus_half PyFloat.half)
    with FontFit.default_min_letter_spacing by (vm_compute; reflexivity).
  change (PyFloat.geb FontFit.default_min_letter_spacing
            FontFit.default_min_letter_spacing) with true.
  replace (PyFloat.geb (PyFloat.sub FontFit.default_min_letter_spacing PyFloat.half)
             FontFit.default_min_letter_spacing)
    with false by (vm_compute; reflexivity).
  unfold FontFit.spec_spacings. cbn [omap list_omap].
  destruct (attempt lore rect text font_size PyFloat.zero); [reflexivity|].
  destruct (attempt lore rect text font_size FontFit.minus_half); [reflexivity|].
  destruct (attempt lore rect text font_size FontFit.default_min_letter_spacing);
    reflexivity.
Qed.

(** For one size, the loop over the spacings takes the first spacing at
    which the wrapped text is no taller than the rectangle. *)
Lemma while_spacing_first_fit fuel lore rect text size :
  (4 <= fuel)%nat ->
  match FontFit.while_spacing self_fonts bounding_height fuel lore rect text
          size PyFloat.zero FontFit.default_min_letter_spacing with
  | Some (Some font) =>
      exists (k : nat) spacing,
        FontFit.spec_spacings !! k = Some spacing
        /\ font = font_of lore size spacing
        /\ bounding_height (font_of lore size spacing) rect text
           <= rect_height rect
        /\ forall (k' : nat) spacing',
             FontFit.spec_spacings !! k' = Some spacing' -> (k' < k)%nat ->
             rect_height rect
             < bounding_height (font_of lore size spacing') rect text
  | Some None =>
      forall (k : nat) spacing,
        FontFit.spec_spacings !! k = Some spacing ->
        rect_height rect < bounding_height (font_of lore size spacing) rect text
  | None => False
  end.
Proof.
  intros Hfuel. rewrite while_spacing_default by exact Hfuel.
  unfold FontFit.spec_spacings. cbn [omap list_omap].
  rewrite !attempt_cases.
  destruct (bounding_height (font_of lore size PyFloat.zero) rect text
            <=? rect_height rect) eqn:H0.
  { apply Z.leb_le in H0. cbn [head].
    exists 0%nat, PyFloat.zero. split; [reflexivity|]. split; [reflexivity|].
    split; [exact H0|]. intros k' sp' _ Hlt. lia. }
  apply Z.leb_gt in H0.
  destruct (bounding_height (font_of lore size FontFit.minus_half) rect text
            <=? rect_height rect) eqn:H1.
  { apply Z.leb_le in H1. cbn [head].
    exists 1%nat, FontFit.minus_half. split; [reflexivity|].
    split; [reflexivity|]. split; [exact H1|].
    intros k' sp' Hk Hlt. destruct k' as [|k']; [|lia].
    simpl in Hk. injection Hk as <-. exact H0. }
  apply Z.leb_gt in H1.
  destruct (bounding_height (font_of lore size FontFit.default_min_letter_spacing)
              rect text <=? rect_height rect) eqn:H2.
  { apply Z.leb_le in H2. cbn [head].
    exists 2%nat, FontFit.default_min_letter_spacing. split; [reflexivity|].
    split; [reflexivity|]. split; [exact H2|].
    intros k' sp' Hk Hlt. destruct k' as [|[|k']]; [| |lia];
      simpl in Hk; injection Hk as <-; assumption. }
  apply Z.leb_gt in H2. cbn [head].
  intros k sp Hk. destruct k as [|[|[|k]]]; simpl in Hk;
    [| | |discriminate]; injection Hk as <-; assumption.
Qed.

(** The loop over the sizes takes the first candidate that fits, in the
    order of the sizes from [start] down to [stop + 1] and, within a
    size, of the spacings. *)
Lemma for_sizes_first_fit fuel lore rect text (n : nat) : forall start stop,
  (4 <= fuel)%nat ->
  Z.to_nat (start - stop) = n ->
  match FontFit.for_sizes self_fonts bounding_height fuel lore rect text
          (FontFit.range_down start stop) FontFit.default_min_letter_spacing with
  | Some (Some font) =>
      exists size (k : nat) spacing,
        stop < size <= start
        /\ FontFit.spec_spacings !! k = Some spacing
        /\ font = font_of lore size spacing
        /\ bounding_height (font_of lore size spacing) rect text
           <= rect_height rect
        /\ forall size' (k' : nat) spacing',
             stop < size' <= start ->
             FontFit.spec_spacings !! k' = Some spacing' ->
             size < size' \/ (size' = size /\ (k' < k)%nat) ->
             rect_height rect
             < bounding_height (font_of lore size' spacing') rect text
  | Some None =>
      forall size (k : nat) spacing,
        stop < size <= start ->
        FontFit.spec_spacings !! k = Some spacing ->
        rect_height rect < bounding_height (font_of lore size spacing) rect text
  | None => False
  end.
Proof.
  induction n as [|n IH]; intros start stop Hfuel Hn.
  - rewrite range_down_nil by lia. cbn [FontFit.for_sizes].
    intros size k sp Hs. lia.
  - rewrite range_down_cons by lia. cbn [FontFit.for_sizes].
    pose proof (while_spacing_first_fit fuel lore rect text start Hfuel) as Hw.
    destruct (FontFit.while_spacing self_fonts bounding_height fuel lore rect
                text start PyFloat.zero FontFit.default_min_letter_spacing)
      as [[font|]|]; [| |contradiction].
    + destruct Hw as (k & sp & Hk & Hfont & Hfit & Hearlier).
      exists start, k, sp. split; [lia|]. split; [exact Hk|].
      split; [exact Hfont|]. split; [exact Hfit|].
      intros size' k' sp' Hs Hk' [Hlt | [-> Hlt]]; [lia|].
      apply (Hearlier k' sp' Hk' Hlt).
    + specialize (IH (start - 1) stop Hfuel ltac:(lia)).
      destruct (FontFit.for_sizes self_fonts bounding_height fuel lore rect text
                  (FontFit.range_down (start - 1) stop)
                  FontFit.default_min_letter_spacing) as [[font|]|];
        [| |contradiction].
      * destruct IH as (size & k & sp & Hs & Hk & Hfont & Hfit & Hearlier).
        exists size, k, sp. split; [lia|]. split; [exact Hk|].
        split; [exact Hfont|]. split; [exact Hfit|].
        intros size' k' sp' Hs' Hk' Hbefore.
        destruct (Z.eq_dec size' start) as [-> | Hneq].
        -- apply (Hw k' sp' Hk').
        -- apply (Hearlier size' k' sp'); [lia | exact Hk' | exact Hbefore].
      * intros size k sp Hs Hk.
        destruct (Z.eq_dec size start) as [-> | Hneq].
        -- apply (Hw k sp Hk).
        -- apply (IH size k sp); [lia | exact Hk].
Qed.

(** C6: with the default spacing bound the search always sets a font and
    draws the text. Number the candidates by size, from [max_font_size]
    down to [min_font_size], and within a size by spacing, 0, -0.5, -1.0.
    If some candidate's wrapped height is no more than the height of the
    rectangle, the font set is the font of the first such candidate: it
    fits, and every candidate before it (a larger size, or the same size
    at an earlier spacing) is taller than the rectangle. If no candidate
    fits, the font set is the main family at [min_font_size], of normal
    weight, with spacing -1.0. *)
Theorem draw_fitted_description_first_fit fuel frame_type rect text
    max_font_size min_font_size :
  (4 <= fuel)%nat ->
  let lore := String.eqb (FontFit.lower frame_type) "normal" in
  let spacings := [PyFloat.zero; PyFloat.neg PyFloat.half; PyFloat.of_Z (-1)] in
  let candidate size spacing :=
    {| FontFit.family := if lore then FontFit.lore_font self_fonts
                         else FontFit.main_font self_fonts;
       FontFit.point_size := size;
       FontFit.font_weight := FontFit.Light;
       FontFit.letter_spacing := spacing |} in
  exists font text',
    FontFit.draw_fitted_description self_fonts bounding_height fuel frame_type
      rect text max_font_size min_font_size FontFit.default_min_letter_spacing
    = Some (font, text')
    /\ text' = (if lore then FontFit.strip FontFit.is_quote text else text)
    /\ ((exists size (k : nat) spacing,
           min_font_size <= size <= max_font_size
           /\ spacings !! k = Some spacing
           /\ font = candidate size spacing
           /\ bounding_height font rect text' <= rect_height rect
           /\ forall size' (k' : nat) spacing',
                min_font_size <= size' <= max_font_size ->
                spacings !! k' = Some spacing' ->
                size < size' \/ (size' = size /\ (k' < k)%nat) ->
                rect_height rect
                < bounding_height (candidate size' spacing') rect text')
        \/ ((forall size (k : nat) spacing,
               min_font_size <= size <= max_font_size ->
               spacings !! k = Some spacing ->
               rect_height rect
               < bounding_height (candidate size spacing) rect text')
            /\ font = {| FontFit.family := FontFit.main_font self_fonts;
                         FontFit.point_size := min_font_size;
                         FontFit.font_weight := FontFit.Normal;
                         FontFit.letter_spacing := PyFloat.of_Z (-1) |})).
Proof.
  intros Hfuel lore spacings candidate.
  change spacings with FontFit.spec_spacings. clear spacings.
  unfold FontFit.draw_fitted_description. fold lore.
  set (text' := if lore then FontFit.strip FontFit.is_quote text else text).
  pose proof (for_sizes_first_fit fuel lore rect text'
                (Z.to_nat (max_font_size - (min_font_size - 1)))
                max_font_size (min_font_size - 1) Hfuel eq_refl) as H.
  destruct (FontFit.for_sizes self_fonts bounding_height fuel lore rect text'
              (FontFit.range_down max_font_size (min_font_size - 1))
              FontFit.default_min_letter_spacing) as [[font|]|];
    [| |contradiction].
  - exists font, text'. split; [reflexivity|]. split; [reflexivity|]. left.
    destruct H as (size & k & sp & Hs & Hk & Hfont & Hfit & Hearlier).
    exists size, k, sp. split; [lia|]. split; [exact Hk|].
    split; [exact Hfont|]. split; [rewrite Hfont; exact Hfit|].
    intros size' k' sp' Hs' Hk' Hbefore.
    apply (Hearlier size' k' sp'); [lia | exact Hk' | exact Hbefore].
  - eexists. exists text'. split; [reflexivity|]. split; [reflexivity|]. right.
    split; [|reflexivity].
    intros size k sp Hs Hk. apply (H size k sp); [lia | exact Hk].
Qed.

End FontFitFacts.

Lemma draw_fitted_description_first_fit_witness :
  exists font text',
    FontFit.draw_fitted_description FontFit.default_fonts tall_metric 4 "Normal"
      desc_rect "'A dragon.'" 12 9 FontFit.default_min_letter_spacing
    = Some (font, text')
    /\ text' = "A dragon."%string
    /\ font = {| FontFit.family := "Stone Serif ITC Medium";
                 FontFit.point_size := 9;
                 FontFit.font_weight := FontFit.Light;
                 FontFit.letter_spacing := PyFloat.zero |}.
Proof.
  destruct (draw_fitted_description_first_fit FontFit.default_fonts tall_metric
              4 "Normal" desc_rect "'A dragon.'" 12 9 ltac:(lia))
    as (font & text' & Hrun & Htext & Hchoice).
  exists font, text'. split; [exact Hrun|]. split; [exact Htext|].
  injection (eq_trans (eq_sym Hrun) eq_refl) as Hfont _. exact Hfont.
Defined.

(** On that run the sizes 12, 11 and 10 are refused at all three spacings
    and size 9 is taken at spacing 0, with the quotes of the lore text
    stripped. *)
Example draw_fitted_description_run :
  FontFit.draw_fitted_description FontFit.default_fonts tall_metric 4 "Normal"
    desc_rect "'A dragon.'" 12 9 FontFit.default_min_letter_spacing
  = Some ({| FontFit.family := "Stone Serif ITC Medium";
             FontFit.point_size := 9;
             FontFit.font_weight := FontFit.Light;
             FontFit.letter_spacing := PyFloat.zero |}, "A dragon."%string).
Proof. vm_compute. reflexivity. Qed.

(** When nothing fits, the fallback is set. *)
Example draw_fitted_description_fallback :
  FontFit.draw_fitted_description FontFit.default_fonts
    (fun _ _ _ => 1000) 4 "effect" desc_rect "text" 12 9
    FontFit.default_min_letter_spacing
  = Some ({| FontFit.family := "ITC Stone Serif";
             FontFit.point_size := 9;
             FontFit.font_weight := FontFit.Normal;
             FontFit.letter_spacing := FontFit.default_min_letter_spacing |},
          "text"%string).
Proof. vm_compute. reflexivity. Qed.

(** ** Frames *)

(** *** Reading pixels of derived rasters *)

Lemma pixel_at_Some_nonneg {A} (a : list (list A)) i j p :
  Frame.pixel_at a i j = Some p -> 0 <= i /\ 0 <= j.
Proof.
  unfold Frame.pixel_at.
  destruct (i <? 0) eqn:Hi; [discriminate|].
  destruct (j <? 0) eqn:Hj; [discriminate|].
  intros _. lia.
Qed.

Lemma pixel_at_map_raster {A B} (f : A -> B) (a : list (list A)) i j :
  Frame.pixel_at (Frame.map_raster f a) i j = f <$> Frame.pixel_at a i j.
Proof.
  unfold Frame.pixel_at, Frame.map_raster.
  destruct ((i <? 0) || (j <? 0)); [reflexivity|].
  rewrite list_lookup_fmap.
  destruct (a !! Z.to_nat j) as [row|]; simpl; [|reflexivity].
  apply list_lookup_fmap.
Qed.

Lemma pixel_at_zip_raster {A B C} (f : A -> B -> C)
    (a : list (list A)) (b : list (list B)) i j :
  Frame.pixel_at (Frame.zip_raster f a b) i j
  = match Frame.pixel_at a i j, Frame.pixel_at b i j with
    | Some x, Some y => Some (f x y)
    | _, _ => None
    end.
Proof.
  unfold Frame.pixel_at, Frame.zip_raster.
  destruct ((i <? 0) || (j <? 0)); [reflexivity|].
  rewrite lookup_zip_with.
  destruct (a !! Z.to_nat j) as [ra|]; simpl; [|reflexivity].
  destruct (b !! Z.to_nat j) as [rb|]; simpl.
  - rewrite lookup_zip_with.
    destruct (ra !! Z.to_nat i); simpl; [|reflexivity].
    destruct (rb !! Z.to_nat i); reflexivity.
  - destruct (ra !! Z.to_nat i); reflexivity.
Qed.

Lemma pixel_at_crop im x0 y0 x1 y1 c i j :
  Frame.crop im (x0, y0, x1, y1) = Ok c ->
  0 <= i < x1 - x0 -> 0 <= j < y1 - y0 ->
  Frame.pixel_at c i j
  = Some (default Frame.transparent (Frame.pixel_at im (x0 + i) (y0 + j))).
Proof.
  unfold Frame.crop.
  destruct ((x1 <? x0) || (y1 <? y0)); [discriminate|].
  intros [= <-] Hi Hj. unfold Frame.pixel_at at 1.
  replace ((i <? 0) || (j <? 0)) with false
    by (symmetry; apply orb_false_intro; apply Z.ltb_ge; lia).
  rewrite list_lookup_fmap, lookup_seqZ_lt by lia. simpl.
  rewrite list_lookup_fmap, lookup_seqZ_lt by lia. simpl.
  rewrite !Z2Nat.id by lia. reflexivity.
Qed.

Lemma pixel_at_paste im src x0 y0 x1 y1 i j :
  Frame.pixel_at (Frame.paste im src (x0, y0, x1, y1)) i j
  = (fun p => if Frame.in_box (x0, y0, x1, y1) i j
              then default p (Frame.pixel_at src (i - x0) (j - y0))
              else p) <$> Frame.pixel_at im i j.
Proof.
  unfold Frame.pixel_at at 1 3, Frame.paste.
  destruct ((i <? 0) || (j <? 0)) eqn:Hneg; [reflexivity|].
  apply orb_false_elim in Hneg as [Hi Hj].
  apply Z.ltb_ge in Hi. apply Z.ltb_ge in Hj.
  rewrite list_lookup_imap.
  destruct (im !! Z.to_nat j) as [row|]; simpl; [|reflexivity].
  rewrite list_lookup_imap. rewrite !Z2Nat.id by lia. reflexivity.
Qed.

(** *** The hue shift *)

(** On whole degrees the code's shift is the quotient of [255 * hue] by
    360 rounded toward zero, and [int] never raises there. *)
Lemma hue_shift_whole_degrees :
  forallb (fun d => match Frame.hue_shift (PyFloat.of_Z d) with
                    | Ok k => k =? Z.quot (d * 255) 360
                    | Raise _ => false
                    end)
          (seqZ (-180) 361) = true.
Proof. vm_compute. reflexivity. Qed.

Lemma hue_shift_degrees d :
  -180 <= d <= 180 ->
  Frame.hue_shift (PyFloat.of_Z d) = Ok (Z.quot (d * 255) 360).
Proof.
  intros Hd. pose proof hue_shift_whole_degrees as H.
  rewrite forallb_forall in H.
  specialize (H d). 
  assert (Hin : In d (seqZ (-180) 361)).
  { apply list_elem_of_In, elem_of_seqZ. lia. }
  specialize (H Hin).
  destruct (Frame.hue_shift (PyFloat.of_Z d)) as [k|e]; [|discriminate].
  apply Z.eqb_eq in H. congruence.
Qed.

(** The shift of the negated hue is the negated shift. *)
Lemma hue_shift_neg hue_deg k :
  Frame.hue_shift hue_deg = Ok k ->
  Frame.hue_shift (PyFloat.neg hue_deg) = Ok (- k).
Proof.
  unfold Frame.hue_shift. intros H.
  rewrite float_div_neg_l, float_mul_neg_l.
  apply float_to_int_neg. exact H.
Qed.

(** Shifting a hue plane by [k] and then by [-k] gives the plane back. *)
Lemma shift_plane_round_trip k (np_h : list (list Z)) :
  Forall (Forall (fun h => 0 <= h < 256)) np_h ->
  Frame.shift_plane (- k) (Frame.shift_plane k np_h) = np_h.
Proof.
  unfold Frame.shift_plane, Frame.map_raster. intros Hrange.
  induction Hrange as [|row rows Hrow _ IH]; [reflexivity|].
  cbn [fmap list_fmap]. f_equal; [|exact IH].
  clear IH. induction Hrow as [|h hs Hh _ IHrow]; [reflexivity|].
  cbn [fmap list_fmap]. f_equal; [|exact IHrow].
  rewrite Zplus_mod_idemp_l.
  replace (h + k + - k) with h by lia. apply Z.mod_small. exact Hh.
Qed.

Section FrameFacts.

Variable rgb_to_hsv : Frame.rgba -> Frame.hsv.
Variable hsv_to_rgb : Frame.hsv -> Z * Z * Z.
Variable enhance_color : PyFloat.float -> Frame.rgba -> Frame.rgba.
Variable enhance_brightness : PyFloat.float -> Frame.rgba -> Frame.rgba.

Abbreviation adjust_hue := (Frame.adjust_hue rgb_to_hsv hsv_to_rgb).
Abbreviation adjust_colours :=
  (Frame.adjust_colours rgb_to_hsv hsv_to_rgb enhance_color enhance_brightness).
Abbreviation adjust_frame :=
  (Frame.adjust_frame rgb_to_hsv hsv_to_rgb enhance_color enhance_brightness).
Abbreviation adjust_pixel :=
  (Frame.adjust_pixel rgb_to_hsv hsv_to_rgb enhance_color enhance_brightness).

Lemma merge_split_row (f : Z -> Z) (row : list Frame.hsv) :
  zip_with (fun a sv => {| Frame.hue := a; Frame.sat := fst sv; Frame.val := snd sv |})
    (f <$> (Frame.hue <$> row))
    (zip_with pair (Frame.sat <$> row) (Frame.val <$> row))
  = (fun t => {| Frame.hue := f (Frame.hue t); Frame.sat := Frame.sat t;
                 Frame.val := Frame.val t |}) <$> row.
Proof.
  induction row as [|t row IH]; [reflexivity|].
  cbn [fmap list_fmap zip_with]. f_equal. exact IH.
Qed.

(** Splitting into bands, shifting the hue band and merging is a map over
    the pixels that leaves saturation and value alone. *)
Lemma shifted_hsv_pixelwise im shift :
  Frame.shifted_hsv rgb_to_hsv im shift
  = Frame.map_raster (fun p => Frame.shift_hue shift (rgb_to_hsv p)) im.
Proof.
  unfold Frame.shifted_hsv, Frame.merge, Frame.shift_plane, Frame.zip_raster,
    Frame.map_raster.
  induction im as [|row im IH]; [reflexivity|].
  cbn [fmap list_fmap zip_with]. f_equal; [|exact IH].
  rewrite (merge_split_row (fun h => (h + shift) mod 256)).
  rewrite <- list_fmap_compose. reflexivity.
Qed.

Lemma map_raster_compose {A B C} (f : A -> B) (g : B -> C) (a : list (list A)) :
  Frame.map_raster g (Frame.map_raster f a) = Frame.map_raster (fun x => g (f x)) a.
Proof.
  unfold Frame.map_raster. rewrite <- list_fmap_compose.
  apply list_fmap_ext. intros _ row _. simpl.
  rewrite <- list_fmap_compose. reflexivity.
Qed.

Lemma map_raster_id {A} (a : list (list A)) :
  Frame.map_raster (fun x => x) a = a.
Proof.
  unfold Frame.map_raster. induction a as [|row a IH]; [reflexivity|].
  cbn [fmap list_fmap]. rewrite IH. f_equal. apply list_fmap_id.
Qed.

(** C3 (amended): [adjust_hue] converts each pixel to its HSV triple,
    adds [int(hue / 360.0 * 255)], the product rounded toward zero, to
    the hue channel modulo 256, leaves saturation and value as they are,
    and converts each triple back (to an opaque pixel); on whole degrees
    from -180 to 180 that shift is the quotient of [255 * hue] by 360
    rounded toward zero. *)
Theorem adjust_hue_pixelwise (im : list (list Frame.rgba)) hue_deg shift :
  Frame.hue_shift hue_deg = Ok shift ->
  exists out,
    adjust_hue im hue_deg = Ok out
    /\ Frame.shifted_hsv rgb_to_hsv im shift
       = Frame.map_raster (fun p => Frame.shift_hue shift (rgb_to_hsv p)) im
    /\ out = Frame.map_raster (Frame.hsv_to_rgba hsv_to_rgb)
               (Frame.shifted_hsv rgb_to_hsv im shift)
    /\ (forall i j p,
          Frame.pixel_at im i j = Some p ->
          Frame.pixel_at (Frame.shifted_hsv rgb_to_hsv im shift) i j
          = Some {| Frame.hue := (Frame.hue (rgb_to_hsv p) + shift) mod 256;
                    Frame.sat := Frame.sat (rgb_to_hsv p);
                    Frame.val := Frame.val (rgb_to_hsv p) |}
          /\ Frame.pixel_at out i j
             = Some (Frame.hsv_to_rgba hsv_to_rgb
                       (Frame.shift_hue shift (rgb_to_hsv p))))
    /\ (forall d, -180 <= d <= 180 ->
          Frame.hue_shift (PyFloat.of_Z d) = Ok (Z.quot (d * 255) 360)).
Proof.
  intros Hshift. unfold Frame.adjust_hue. rewrite Hshift. unfold bind.
  eexists. split; [reflexivity|].
  split; [apply shifted_hsv_pixelwise|]. split; [reflexivity|].
  split; [|exact hue_shift_degrees].
  intros i j p Hp.
  rewrite pixel_at_map_raster, shifted_hsv_pixelwise, pixel_at_map_raster, Hp.
  split; reflexivity.
Qed.

(** The two shifts of a round trip cancel on an HSV triple. *)
Lemma shift_hue_round_trip k t :
  0 <= Frame.hue t < 256 -> Frame.shift_hue (- k) (Frame.shift_hue k t) = t.
Proof.
  intros Ht. destruct t as [h s v]. unfold Frame.shift_hue. cbn [Frame.hue Frame.sat Frame.val] in *.
  f_equal. rewrite Zplus_mod_idemp_l.
  replace (h + k + - k) with h by lia. apply Z.mod_small. exact Ht.
Qed.

Lemma adjust_colours_pixelwise (im : list (list Frame.rgba))
    hue_deg saturation brightness shift :
  Frame.hue_shift hue_deg = Ok shift ->
  adjust_colours im hue_deg saturation brightness
  = Ok (Frame.map_raster (adjust_pixel hue_deg saturation brightness shift) im).
Proof.
  intros Hshift. unfold Frame.adjust_colours, Frame.adjust_hue, adjust_pixel.
  rewrite Hshift.
  destruct (PyFloat.neqb hue_deg PyFloat.zero);
    destruct (PyFloat.neqb saturation PyFloat.one);
    destruct (PyFloat.neqb brightness PyFloat.zero);
    cbn [bind]; f_equal;
    rewrite ?shifted_hsv_pixelwise, ?map_raster_compose, ?map_raster_id;
    reflexivity.
Qed.

(** A region edit: inside the box, a pixel that was not opaque keeps its
    value and an opaque one takes the adjusted value; outside, nothing
    changes. *)
Lemma adjust_frame_region frame hue_deg saturation brightness shift x y w h :
  Frame.hue_shift hue_deg = Ok shift ->
  0 <= w -> 0 <= h ->
  exists out,
    adjust_frame frame hue_deg saturation brightness (Some (x, y, w, h)) = Ok out
    /\ forall i j p,
         Frame.pixel_at frame i j = Some p ->
         Frame.pixel_at out i j
         = Some (if Frame.in_box (x, y, x + w, y + h) i j
                 then if Frame.alpha p <? 255 then p
                      else adjust_pixel hue_deg saturation brightness shift p
                 else p).
Proof.
  intros Hshift Hw Hh. unfold Frame.adjust_frame.
  destruct (Frame.crop frame (x, y, x + w, y + h)) as [orig|e] eqn:Hcrop.
  2:{ unfold Frame.crop in Hcrop.
      replace ((x + w <? x) || (y + h <? y)) with false in Hcrop
        by (symmetry; apply orb_false_intro; apply Z.ltb_ge; lia).
      discriminate. }
  cbn [bind]. rewrite (adjust_colours_pixelwise _ _ _ _ _ Hshift). cbn [bind].
  eexists. split; [reflexivity|].
  intros i j p Hp. rewrite pixel_at_paste, Hp. cbn [fmap option_fmap option_map].
  f_equal.
  destruct (Frame.in_box (x, y, x + w, y + h) i j) eqn:Hin; [|reflexivity].
  unfold Frame.in_box in Hin.
  apply andb_prop in Hin as [Hin Hj2]. apply andb_prop in Hin as [Hin Hj1].
  apply andb_prop in Hin as [Hi1 Hi2].
  apply Z.leb_le in Hi1, Hj1. apply Z.ltb_lt in Hi2, Hj2.
  unfold Frame.restore. rewrite pixel_at_zip_raster, pixel_at_map_raster.
  rewrite (pixel_at_crop _ _ _ _ _ _ _ _ Hcrop) by lia.
  replace (x + (i - x)) with i by lia. replace (y + (j - y)) with j by lia.
  rewrite Hp. reflexivity.
Qed.

(** A whole-frame edit: a pixel whose alpha is 0 keeps its value and
    every other pixel takes the adjusted value. *)
Lemma adjust_frame_whole frame hue_deg saturation brightness shift :
  Frame.hue_shift hue_deg = Ok shift ->
  exists out,
    adjust_frame frame hue_deg saturation brightness None = Ok out
    /\ forall i j p,
         Frame.pixel_at frame i j = Some p ->
         Frame.pixel_at out i j
         = Some (if Frame.alpha p =? 0 then p
                 else adjust_pixel hue_deg saturation brightness shift p).
Proof.
  intros Hshift. unfold Frame.adjust_frame.
  rewrite (adjust_colours_pixelwise _ _ _ _ _ Hshift). cbn [bind].
  eexists. split; [reflexivity|].
  intros i j p Hp. unfold Frame.restore.
  rewrite pixel_at_zip_raster, pixel_at_map_raster, Hp. reflexivity.
Qed.

(** A hue edit alone makes every pixel it adjusts opaque. *)
Lemma adjust_pixel_hue_only_alpha hue_deg shift p :
  PyFloat.neqb hue_deg PyFloat.zero = true ->
  Frame.alpha (adjust_pixel hue_deg PyFloat.one PyFloat.zero shift p) = 255.
Proof.
  intros Hhue. unfold adjust_pixel. rewrite Hhue.
  change (PyFloat.neqb PyFloat.one PyFloat.one) with false.
  change (PyFloat.neqb PyFloat.zero PyFloat.zero) with false.
  unfold Frame.hsv_to_rgba.
  destruct (hsv_to_rgb _) as [[r g] b]. reflexivity.
Qed.

(** C1: with a region, every pixel of the frame inside it whose alpha is
    below 255 has its original value after the adjustment; without a
    region, the pixels whose alpha is 0 have their original value and
    every other pixel has the adjusted one, so that a translucent pixel
    is not restored: a hue edit leaves it opaque. *)
Theorem adjust_frame_alpha_preservation frame hue_deg saturation brightness shift :
  Frame.hue_shift hue_deg = Ok shift ->
  (forall x y w h i j p,
      Frame.pixel_at frame i j = Some p ->
      Frame.in_box (x, y, x + w, y + h) i j = true ->
      Frame.alpha p < 255 ->
      exists out,
        adjust_frame frame hue_deg saturation brightness (Some (x, y, w, h)) = Ok out
        /\ Frame.pixel_at out i j = Some p)
  /\ (exists out,
        adjust_frame frame hue_deg saturation brightness None = Ok out
        /\ (forall i j p,
              Frame.pixel_at frame i j = Some p -> Frame.alpha p = 0 ->
              Frame.pixel_at out i j = Some p)
        /\ (forall i j p,
              Frame.pixel_at frame i j = Some p -> Frame.alpha p <> 0 ->
              Frame.pixel_at out i j
              = Some (adjust_pixel hue_deg saturation brightness shift p)))
  /\ (PyFloat.neqb hue_deg PyFloat.zero = true ->
      exists out,
        adjust_frame frame hue_deg PyFloat.one PyFloat.zero None = Ok out
        /\ forall i j p,
             Frame.pixel_at frame i j = Some p ->
             0 < Frame.alpha p < 255 ->
             exists q, Frame.pixel_at out i j = Some q
                       /\ Frame.alpha q = 255 /\ q <> p).
Proof.
  intros Hshift. split; [|split].
  - intros x y w h i j p Hp Hin Halpha.
    assert (Hwh : 0 <= w /\ 0 <= h).
    { unfold Frame.in_box in Hin.
      apply andb_prop in Hin as [Hin Hj2]. apply andb_prop in Hin as [Hin Hj1].
      apply andb_prop in Hin as [Hi1 Hi2].
      apply Z.leb_le in Hi1, Hj1. apply Z.ltb_lt in Hi2, Hj2. lia. }
    destruct (adjust_frame_region frame hue_deg saturation brightness shift
                x y w h Hshift (proj1 Hwh) (proj2 Hwh)) as (out & Hout & Hpix).
    exists out. split; [exact Hout|].
    rewrite (Hpix i j p Hp), Hin.
    replace (Frame.alpha p <? 255) with true
      by (symmetry; apply Z.ltb_lt; exact Halpha).
    reflexivity.
  - destruct (adjust_frame_whole frame hue_deg saturation brightness shift Hshift)
      as (out & Hout & Hpix).
    exists out. split; [exact Hout|]. split.
    + intros i j p Hp Ha. rewrite (Hpix i j p Hp), Ha. reflexivity.
    + intros i j p Hp Ha. rewrite (Hpix i j p Hp).
      replace (Frame.alpha p =? 0) with false
        by (symmetry; apply Z.eqb_neq; exact Ha).
      reflexivity.
  - intros Hhue.
    destruct (adjust_frame_whole frame hue_deg PyFloat.one PyFloat.zero shift Hshift)
      as (out & Hout & Hpix).
    exists out. split; [exact Hout|].
    intros i j p Hp Ha. eexists. split; [apply (Hpix i j p Hp)|].
    replace (Frame.alpha p =? 0) with false
      by (symmetry; apply Z.eqb_neq; lia).
    pose proof (adjust_pixel_hue_only_alpha hue_deg shift p Hhue) as H255.
    split; [exact H255|].
    intros Heq. rewrite Heq in H255. lia.
Qed.

(** *** Hue there and back

    A whole-frame hue edit followed by the edit with the negated hue: the
    two shifts cancel modulo 256.  A transparent pixel is restored by
    both edits; another pixel comes back as the conversion of its own HSV
    triple wherever the conversion from RGB to HSV inverts the conversion
    back at the shifted triple.  Whether Pillow's 8-bit conversions are
    exact there is not decided by the program. *)

Lemma neqb_zero_neg hue_deg :
  PyFloat.neqb (PyFloat.neg hue_deg) PyFloat.zero
  = PyFloat.neqb hue_deg PyFloat.zero.
Proof. destruct hue_deg as [s|s| |s m e]; try destruct s; reflexivity. Qed.

Lemma adjust_frame_hue_there_and_back frame hue_deg shift :
  Frame.hue_shift hue_deg = Ok shift ->
  PyFloat.neqb hue_deg PyFloat.zero = true ->
  exists out1 out2,
    adjust_frame frame hue_deg PyFloat.one PyFloat.zero None = Ok out1
    /\ adjust_frame out1 (PyFloat.neg hue_deg) PyFloat.one PyFloat.zero None
       = Ok out2
    /\ forall i j p,
         Frame.pixel_at frame i j = Some p ->
         (Frame.alpha p = 0 -> Frame.pixel_at out2 i j = Some p)
         /\ (Frame.alpha p <> 0 ->
             0 <= Frame.hue (rgb_to_hsv p) < 256 ->
             rgb_to_hsv (Frame.hsv_to_rgba hsv_to_rgb
                           (Frame.shift_hue shift (rgb_to_hsv p)))
             = Frame.shift_hue shift (rgb_to_hsv p) ->
             Frame.pixel_at out2 i j
             = Some (Frame.hsv_to_rgba hsv_to_rgb (rgb_to_hsv p))).
Proof.
  intros Hshift Hhue.
  destruct (adjust_frame_whole frame hue_deg PyFloat.one PyFloat.zero shift Hshift)
    as (out1 & Hout1 & Hpix1).
  destruct (adjust_frame_whole out1 (PyFloat.neg hue_deg) PyFloat.one
              PyFloat.zero (- shift) (hue_shift_neg _ _ Hshift))
    as (out2 & Hout2 & Hpix2).
  exists out1, out2. split; [exact Hout1|]. split; [exact Hout2|].
  intros i j p Hp. pose proof (Hpix1 i j p Hp) as H1. split.
  - intros Ha. rewrite Ha in H1. cbn [Z.eqb] in H1.
    rewrite (Hpix2 i j p H1), Ha. reflexivity.
  - intros Ha Hrange Hexact.
    replace (Frame.alpha p =? 0) with false in H1
      by (symmetry; apply Z.eqb_neq; exact Ha).
    rewrite (Hpix2 i j _ H1).
    rewrite (adjust_pixel_hue_only_alpha hue_deg shift p Hhue).
    cbn [Z.eqb]. f_equal.
    unfold adjust_pixel. rewrite neqb_zero_neg, Hhue.
    change (PyFloat.neqb PyFloat.one PyFloat.one) with false.
    change (PyFloat.neqb PyFloat.zero PyFloat.zero) with false.
    cbv iota. rewrite Hexact, shift_hue_round_trip by exact Hrange.
    reflexivity.
Qed.

End FrameFacts.

Lemma adjust_hue_pixelwise_witness :
  exists out,
    Frame.adjust_hue plain_rgb_to_hsv plain_hsv_to_rgb sample_frame hue_90 = Ok out
    /\ Frame.pixel_at (Frame.shifted_hsv plain_rgb_to_hsv sample_frame 63) 0 0
       = Some {| Frame.hue := (250 + 63) mod 256; Frame.sat := 20;
                 Frame.val := 30 |}.
Proof.
  destruct (adjust_hue_pixelwise plain_rgb_to_hsv plain_hsv_to_rgb
              sample_frame hue_90 63 eq_refl) as (out & Hout & _ & _ & Hpix & _).
  exists out. split; [exact Hout|].
  apply (Hpix 0 0 (px 250 20 30 255) eq_refl).
Defined.

(** C3 as the specification words it fails at hue 1 (and again at 90 and
    180): [round(1 / 360 * 255)] is 1, the code adds [int(1 / 360.0 * 255)],
    which is 0, and a hue channel of 10 stays 10 where the specification
    has 11. *)
Lemma hue_shift_round_counterexample :
  Frame.spec_hue_shift hue_1 = Ok 1
  /\ Frame.hue_shift hue_1 = Ok 0
  /\ Frame.shifted_hsv plain_rgb_to_hsv [[px 10 20 30 255]] 0
     = [[ {| Frame.hue := 10; Frame.sat := 20; Frame.val := 30 |} ]]
  /\ Frame.shifted_hsv plain_rgb_to_hsv [[px 10 20 30 255]] 1
     = [[ {| Frame.hue := 11; Frame.sat := 20; Frame.val := 30 |} ]]
  /\ Frame.adjust_hue plain_rgb_to_hsv plain_hsv_to_rgb [[px 10 20 30 255]] hue_1
     = Ok [[px 10 20 30 255]]
  /\ Frame.spec_hue_shift hue_90 = Ok 64
  /\ Frame.hue_shift hue_90 = Ok 63.
Proof. vm_compute. repeat split; reflexivity. Qed.

Lemma adjust_frame_alpha_preservation_witness :
  (exists out,
     Frame.adjust_frame plain_rgb_to_hsv plain_hsv_to_rgb plain_enhance
       plain_enhance sample_frame hue_90 sat_08 PyFloat.zero
       (Some (0, 0, 2, 1)) = Ok out
     /\ Frame.pixel_at out 1 0 = Some (px 10 20 30 128))
  /\ (exists out,
        Frame.adjust_frame plain_rgb_to_hsv plain_hsv_to_rgb plain_enhance
          plain_enhance sample_frame hue_90 sat_08 PyFloat.zero None = Ok out
        /\ Frame.pixel_at out 0 1 = Some (px 1 2 3 0)).
Proof.
  destruct (adjust_frame_alpha_preservation plain_rgb_to_hsv plain_hsv_to_rgb
              plain_enhance plain_enhance sample_frame hue_90 sat_08
              PyFloat.zero 63 eq_refl) as (Hregion & Hwhole & _).
  split.
  - apply (Hregion 0 0 2 1 1 0 (px 10 20 30 128)).
    + reflexivity.
    + reflexivity.
    + simpl. lia.
  - destruct Hwhole as (out & Hout & Hzero & _).
    exists out. split; [exact Hout|].
    apply (Hzero 0 1 (px 1 2 3 0)); reflexivity.
Defined.

(** The two edits on the sample frame, computed. *)
Example adjust_frame_region_run :
  Frame.adjust_frame plain_rgb_to_hsv plain_hsv_to_rgb plain_enhance
    plain_enhance sample_frame hue_90 PyFloat.one PyFloat.zero
    (Some (0, 0, 2, 1))
  = Ok [[px 57 20 30 255; px 10 20 30 128];
        [px 1 2 3 0; px 200 100 50 255]].
Proof. vm_compute. reflexivity. Qed.

Example adjust_frame_whole_run :
  Frame.adjust_frame plain_rgb_to_hsv plain_hsv_to_rgb plain_enhance
    plain_enhance sample_frame hue_90 PyFloat.one PyFloat.zero None
  = Ok [[px 57 20 30 255; px 73 20 30 255];
        [px 1 2 3 0; px 7 100 50 255]].
Proof. vm_compute. reflexivity. Qed.

(** *** The gradient mask *)

Lemma slice_bound_inside n i : 0 <= i <= n -> Frame.slice_bound n i = i.
Proof. intros Hi. unfold Frame.slice_bound. destruct (i <? 0) eqn:H; lia. Qed.

Lemma lookup_slice_fill {A} (a : list A) lo hi x (k : nat) :
  Frame.slice_fill a lo hi x !! k
  = (fun y => if Frame.in_slice (Z.of_nat (length a)) lo hi k then x else y)
      <$> a !! k.
Proof. unfold Frame.slice_fill. apply list_lookup_imap. Qed.

Lemma length_slice_fill {A} (a : list A) lo hi x :
  length (Frame.slice_fill a lo hi x) = length a.
Proof. unfold Frame.slice_fill. apply length_imap. Qed.

Lemma slice_store_same_length {A} (a : list A) lo hi (src : list A) :
  (1 < length src)%nat ->
  Z.of_nat (length src)
  = Z.max 0 (Frame.slice_bound (Z.of_nat (length a)) hi
             - Frame.slice_bound (Z.of_nat (length a)) lo) ->
  Frame.slice_store a lo hi src
  = Ok (imap (fun k y =>
                if Frame.in_slice (Z.of_nat (length a)) lo hi k
                then default y
                       (src !! (k - Z.to_nat
                                      (Frame.slice_bound (Z.of_nat (length a)) lo))%nat)
                else y)
             a).
Proof.
  intros Hlen Heq. unfold Frame.slice_store.
  destruct src as [|x [|x' src]]; [simpl in Hlen; lia | simpl in Hlen; lia |].
  rewrite <- Heq, Z.eqb_refl. reflexivity.
Qed.


Lemma gradient_ramp_length : length Frame.gradient_ramp = 100%nat.
Proof. vm_compute. reflexivity. Qed.


Lemma gradient_ramp_last : Frame.gradient_ramp !! 99%nat = Some PyFloat.f32_one.
Proof. vm_compute. reflexivity. Qed.


(** Row [k] of the mask of a frame of at least 100 rows. *)
Lemma gradient_mask_rows height :
  100 <= height ->
  let start_y := (height - 100) / 2 in
  exists mask,
    Frame.gradient_mask height = Ok mask
    /\ length mask = Z.to_nat height
    /\ forall k : nat,
         Z.of_nat k < height ->
         mask !! k
         = Some (if start_y + 100 <=? Z.of_nat k then PyFloat.f32_one
                 else if start_y <=? Z.of_nat k
                      then default PyFloat.f32_one
                             (Frame.gradient_ramp !! (k - Z.to_nat start_y)%nat)
                      else PyFloat.zero).
Proof.
  intros Hh start_y.
  assert (Hstart : 0 <= start_y) by (apply Z.div_pos; lia).
  assert (Hend : start_y + 100 <= height).
  { unfold start_y.
    pose proof (Z.mul_div_le (height - 100) 2 ltac:(lia)). lia. }
  unfold Frame.gradient_mask. fold Frame.gradient_ramp.
  change Frame.gradient_band_height with 100. fold start_y.
  set (m0 := replicate (Z.to_nat height) PyFloat.f32_one).
  set (m1 := Frame.slice_fill m0 0 start_y PyFloat.zero).
  assert (Hlen0 : Z.of_nat (length m0) = height).
  { unfold m0. rewrite length_replicate. lia. }
  assert (Hlen1 : Z.of_nat (length m1) = height).
  { unfold m1. rewrite length_slice_fill. exact Hlen0. }
  rewrite slice_store_same_length.
  2:{ rewrite gradient_ramp_length. lia. }
  2:{ rewrite gradient_ramp_length, Hlen1.
      rewrite !slice_bound_inside by lia. lia. }
  cbn [bind]. eexists. split; [reflexivity|]. split.
  { rewrite length_slice_fill, length_imap. lia. }
  intros k Hk.
  assert (Hm1 : m1 !! k
                = Some (if Z.of_nat k <? start_y then PyFloat.zero
                        else PyFloat.f32_one)).
  { unfold m1. rewrite lookup_slice_fill. unfold m0 at 2.
    rewrite lookup_replicate_2 by lia.
    cbn [fmap option_fmap option_map]. rewrite Hlen0.
    unfold Frame.in_slice. rewrite !slice_bound_inside by lia.
    replace (0 <=? Z.of_nat k) with true by (symmetry; apply Z.leb_le; lia).
    reflexivity. }
  rewrite lookup_slice_fill, list_lookup_imap, Hm1.
  cbn [fmap option_fmap option_map].
  rewrite length_imap, Hlen1.
  unfold Frame.in_slice. rewrite !slice_bound_inside by lia.
  f_equal.
  destruct (start_y + 100 <=? Z.of_nat k) eqn:H1.
  - apply Z.leb_le in H1.
    replace (Z.of_nat k <? height) with true by (symmetry; apply Z.ltb_lt; lia).
    reflexivity.
  - apply Z.leb_gt in H1. cbn [andb].
    replace (Z.of_nat k <? start_y + 100) with true
      by (symmetry; apply Z.ltb_lt; lia).
    rewrite andb_true_r.
    destruct (start_y <=? Z.of_nat k) eqn:H2.
    + apply Z.leb_le in H2.
      destruct (lookup_lt_is_Some_2 Frame.gradient_ramp (k - Z.to_nat start_y)) as [v Hv].
      { rewrite gradient_ramp_length. lia. }
      rewrite Hv. reflexivity.
    + apply Z.leb_gt in H2.
      replace (Z.of_nat k <? start_y) with true
        by (symmetry; apply Z.ltb_lt; lia).
      reflexivity.
Qed.

Lemma pixel_at_apply_rows (mask : list PyFloat.float) (frame : list (list Frame.rgba))
    i j p m :
  Frame.pixel_at frame i j = Some p ->
  mask !! Z.to_nat j = Some m ->
  Frame.pixel_at (zip_with (fun m row => Frame.scale_alpha m <$> row) mask frame) i j
  = Some (Frame.scale_alpha m p).
Proof.
  unfold Frame.pixel_at. intros Hp Hm.
  destruct ((i <? 0) || (j <? 0)); [discriminate|].
  rewrite lookup_zip_with, Hm. cbn [mbind option_bind].
  destruct (frame !! Z.to_nat j) as [row|]; [|discriminate].
  cbn [mbind option_bind]. rewrite list_lookup_fmap, Hp. reflexivity.
Qed.


(** Above the band every alpha becomes 0; on the last row of the band and
    below, a byte alpha is kept. *)
Lemma scale_alpha_zero p :
  Frame.alpha (Frame.scale_alpha PyFloat.zero p) = 0.
Proof.
  unfold Frame.scale_alpha. cbn [Frame.alpha].
  destruct (PyFloat.f32_of_Z (Frame.alpha p)) as [s|s| |s m e]; reflexivity.
Qed.

Lemma scale_alpha_one_bytes :
  forallb (fun a => PyFloat.to_uint8
                      (PyFloat.f32_mul (PyFloat.f32_of_Z a) PyFloat.f32_one) =? a)
          (seqZ 0 256) = true.
Proof. vm_compute. reflexivity. Qed.

Lemma scale_alpha_one p :
  0 <= Frame.alpha p < 256 ->
  Frame.scale_alpha PyFloat.f32_one p = p.
Proof.
  intros Ha. pose proof scale_alpha_one_bytes as H.
  rewrite forallb_forall in H.
  assert (Hin : In (Frame.alpha p) (seqZ 0 256))
    by (apply list_elem_of_In, elem_of_seqZ; lia).
  apply H in Hin. apply Z.eqb_eq in Hin.
  destruct p as [r g b a]. unfold Frame.scale_alpha. cbn [Frame.alpha] in *.
  rewrite Hin. reflexivity.
Qed.

(** A frame with fewer than 100 rows: storing the ramp raises. *)
Example gradient_mask_short : Frame.gradient_mask 50 = Raise ValueError.
Proof. vm_compute. reflexivity. Qed.

(** The float32 product is not the exact one: alpha 99 on the row whose
    mask is 50/99 gives 49. *)
Example scale_alpha_rounding :
  Frame.gradient_ramp !! 50%nat = Some (S754_finite false 8473341 (-24))
  /\ PyFloat.to_uint8
       (PyFloat.f32_mul (PyFloat.f32_of_Z 99) (S754_finite false 8473341 (-24)))
     = 49.
Proof. vm_compute. split; reflexivity. Qed.


(** ** Ingestion server *)

Lemma string_app_cons x (a b : string) : String x a +:+ b = String x (a +:+ b).
Proof. reflexivity. Qed.

Lemma string_app_nil_l (b : string) : EmptyString +:+ b = b.
Proof. reflexivity. Qed.

Lemma string_app_assoc (a b c : string) : (a +:+ b) +:+ c = a +:+ (b +:+ c).
Proof.
  induction a as [|x a IH]; [reflexivity|].
  rewrite !string_app_cons, IH. reflexivity.
Qed.

Lemma string_app_nil_r (a : string) : a +:+ EmptyString = a.
Proof.
  induction a as [|x a IH]; [reflexivity|].
  rewrite string_app_cons, IH. reflexivity.
Qed.

Lemma join_cons (x : string) (a : list string) : Server.join (x :: a) = x +:+ Server.join a.
Proof. reflexivity. Qed.

Lemma join_app (a b : list string) : Server.join (a ++ b) = Server.join a +:+ Server.join b.
Proof.
  induction a as [|x a IH]; [reflexivity|].
  rewrite <- app_comm_cons, !join_cons, IH, string_app_assoc. reflexivity.
Qed.

Section ServerFacts.

Variable pixmap : Type.
Variable default_pixmap : pixmap.
Variable loads : string -> result Py.value.
Variable new_card : Py.value -> result (string * pixmap).

Abbreviation server := (Server.server pixmap).
Abbreviation read_client := (Server.read_client pixmap default_pixmap loads new_card).
Abbreviation read_all := (Server.read_all pixmap default_pixmap loads new_card).
Abbreviation select_card := (Server.select_card pixmap default_pixmap new_card).
Abbreviation handle_read := (Server.handle_read pixmap default_pixmap loads new_card).

Lemma select_card_other_status kv :
  Py.eq_str (Py.assoc "status" kv) "NewCard" = false ->
  select_card (Py.VDict kv) = Ok ("Default"%string, default_pixmap).
Proof.
  intros Hstatus. unfold Server.select_card. cbn [Py.get bind].
  rewrite Hstatus. reflexivity.
Qed.

Lemma select_card_absent kv :
  Py.assoc "status" kv = None ->
  select_card (Py.VDict kv) = Ok ("Default"%string, default_pixmap).
Proof. intros Habs. apply select_card_other_status. rewrite Habs. reflexivity. Qed.

Lemma select_card_not_object data :
  (forall kv, data <> Py.VDict kv) ->
  select_card data = Raise AttributeError.
Proof.
  intros Hno. unfold Server.select_card.
  destruct data; try reflexivity. exfalso. eapply Hno. reflexivity.
Qed.

(** A read whose accumulated bytes do not decode keeps them and does
    nothing else. *)
Lemma read_client_retains (st : server) socket buf new_data e :
  Server.buffers pixmap st !! socket = Some buf ->
  loads (buf +:+ new_data) = Raise e ->
  read_client (Some socket) new_data st
  = (Server.set_buffer pixmap socket (buf +:+ new_data) st,
     match e with JSONDecodeError => None | _ => Some e end).
Proof.
  intros Hbuf Hloads. unfold Server.read_client. rewrite Hbuf, Hloads.
  destruct e; reflexivity.
Qed.

(** A read whose accumulated bytes decode clears the accumulator, and,
    when the card is selected without an exception, acknowledges, closes
    and queues one overlay update. *)
Lemma read_client_dispatches (st : server) socket buf new_data data frame pix :
  Server.buffers pixmap st !! socket = Some buf ->
  loads (buf +:+ new_data) = Ok data ->
  select_card data = Ok (frame, pix) ->
  read_client (Some socket) new_data st
  = ({| Server.buffers := <[socket := EmptyString]> (Server.buffers pixmap st);
        Server.net_calls := Server.net_calls pixmap st ++ Server.ack socket;
        Server.deferred := Server.deferred pixmap st ++ [(frame, pix)] |},
     None).
Proof.
  intros Hbuf Hloads Hsel. unfold Server.read_client.
  rewrite Hbuf, Hloads, Hsel.
  unfold Server.set_buffer. cbn [Server.buffers Server.net_calls Server.deferred].
  rewrite insert_insert_eq. reflexivity.
Qed.

Lemma read_client_decode_raises (st : server) socket buf new_data data e :
  Server.buffers pixmap st !! socket = Some buf ->
  loads (buf +:+ new_data) = Ok data ->
  select_card data = Raise e ->
  read_client (Some socket) new_data st
  = (Server.set_buffer pixmap socket EmptyString
       (Server.set_buffer pixmap socket (buf +:+ new_data) st), Some e).
Proof.
  intros Hbuf Hloads Hsel. unfold Server.read_client.
  rewrite Hbuf, Hloads, Hsel. reflexivity.
Qed.

(** The last queued update decides the active border. *)
Lemma run_deferred_last (st : server) win frame pix queued :
  Server.deferred pixmap st = queued ++ [(frame, pix)] ->
  Server.active_border pixmap
    (Server.the_window pixmap
       (Server.run_deferred pixmap
          {| Server.the_server := st; Server.the_window := win |}))
  = frame.
Proof.
  intros Hq. unfold Server.run_deferred.
  cbn [Server.the_window Server.the_server]. rewrite Hq.
  rewrite fold_left_app. reflexivity.
Qed.

(** C2 (amended): a message that decodes to a JSON object whose status is
    absent or is not "NewCard" is acknowledged with ACK and the connection
    is closed; the read handler queues one overlay update for the frame
    "Default", and the event-loop turn that follows makes "Default" the
    active border. *)
Theorem read_client_other_status (st : server) win socket buf new_data kv :
  Server.buffers pixmap st !! socket = Some buf ->
  loads (buf +:+ new_data) = Ok (Py.VDict kv) ->
  Py.eq_str (Py.assoc "status" kv) "NewCard" = false ->
  read_client (Some socket) new_data st
  = ({| Server.buffers := <[socket := EmptyString]> (Server.buffers pixmap st);
        Server.net_calls := Server.net_calls pixmap st ++ Server.ack socket;
        Server.deferred := Server.deferred pixmap st
                           ++ [("Default"%string, default_pixmap)] |},
     None)
  /\ exists a,
       handle_read socket new_data
         {| Server.the_server := st; Server.the_window := win |} = (a, None)
       /\ Server.net_calls pixmap (Server.the_server pixmap a)
          = Server.net_calls pixmap st ++ Server.ack socket
       /\ Server.active_border pixmap (Server.the_window pixmap a) = "Default"%string.
Proof.
  intros Hbuf Hloads Hstatus.
  pose proof (read_client_dispatches st socket buf new_data _ _ _ Hbuf Hloads
                (select_card_other_status kv Hstatus)) as Hread.
  split; [exact Hread|].
  unfold Server.handle_read. cbn [Server.the_server Server.the_window].
  rewrite Hread. eexists. split; [reflexivity|]. split.
  - reflexivity.
  - apply (run_deferred_last _ win "Default" default_pixmap
             (Server.deferred pixmap st)). reflexivity.
Qed.

(** Reads none of whose accumulations decode pile up in the accumulator. *)
Lemma read_all_retains reads : forall (st : server) socket buf,
  Server.buffers pixmap st !! socket = Some buf ->
  (forall p s, reads = p ++ s -> p <> [] ->
               exists e, loads (buf +:+ Server.join p) = Raise e) ->
  exists errs,
    read_all socket reads st
    = ({| Server.buffers :=
            match reads with
            | [] => Server.buffers pixmap st
            | _ => <[socket := buf +:+ Server.join reads]> (Server.buffers pixmap st)
            end;
          Server.net_calls := Server.net_calls pixmap st;
          Server.deferred := Server.deferred pixmap st |}, errs).
Proof.
  induction reads as [|c rest IH]; intros st socket buf Hbuf Hno.
  - exists []. destruct st. reflexivity.
  - destruct (Hno [c] rest eq_refl ltac:(discriminate)) as [e He].
    simpl in He. rewrite string_app_nil_r in He.
    cbn [Server.read_all].
    rewrite (read_client_retains st socket buf c e Hbuf He).
    destruct (IH (Server.set_buffer pixmap socket (buf +:+ c) st) socket
                (buf +:+ c)) as [errs Hrest].
    { unfold Server.set_buffer. cbn [Server.buffers]. apply lookup_insert_eq. }
    { intros p s Hps Hp.
      destruct (Hno (c :: p) s) as [e' He']; [rewrite Hps; reflexivity | discriminate |].
      exists e'. rewrite string_app_assoc. exact He'. }
    rewrite Hrest. eexists. f_equal. 
    unfold Server.set_buffer.
    cbn [Server.buffers Server.net_calls Server.deferred].
    f_equal.
    destruct rest as [|c' rest'].
    + simpl. rewrite string_app_nil_r. reflexivity.
    + rewrite insert_insert_eq, string_app_assoc. reflexivity.
Qed.

(** C9 (amended): when the bytes of a run of reads first decode after its
    last read (no earlier accumulation decodes) and the card is selected
    without an exception, the run queues exactly one overlay update, for
    that document, acknowledges once, and leaves the accumulator empty;
    and any read after which the accumulated bytes do not decode changes
    nothing but the accumulator, which keeps all the bytes. *)
Theorem read_all_dispatches_once (st : server) socket buf earlier last doc frame pix :
  Server.buffers pixmap st !! socket = Some buf ->
  (forall p s, earlier = p ++ s -> p <> [] ->
               exists e, loads (buf +:+ Server.join p) = Raise e) ->
  loads (buf +:+ Server.join (earlier ++ [last])) = Ok doc ->
  select_card doc = Ok (frame, pix) ->
  (exists errs,
     read_all socket (earlier ++ [last]) st
     = ({| Server.buffers := <[socket := EmptyString]> (Server.buffers pixmap st);
           Server.net_calls := Server.net_calls pixmap st ++ Server.ack socket;
           Server.deferred := Server.deferred pixmap st ++ [(frame, pix)] |},
        errs))
  /\ (forall (st1 : server) buf1 new_data e,
        Server.buffers pixmap st1 !! socket = Some buf1 ->
        loads (buf1 +:+ new_data) = Raise e ->
        exists st2 r,
          read_client (Some socket) new_data st1 = (st2, r)
          /\ Server.buffers pixmap st2 !! socket = Some (buf1 +:+ new_data)
          /\ Server.net_calls pixmap st2 = Server.net_calls pixmap st1
          /\ Server.deferred pixmap st2 = Server.deferred pixmap st1).
Proof.
  intros Hbuf Hno Hloads Hsel. split.
  - destruct (read_all_retains earlier st socket buf Hbuf Hno) as [errs Hpre].
    assert (Hsplit : forall (reads : list string) (s0 : server),
      read_all socket (reads ++ [last]) s0
      = let '(s1, es) := read_all socket reads s0 in
        let '(s2, e) := read_client (Some socket) last s1 in
        (s2, es ++ option_list e)).
    { induction reads as [|c rest IH]; intros s0.
      - cbn [app Server.read_all].
        destruct (read_client (Some socket) last s0) as [s2 e].
        rewrite app_nil_r. reflexivity.
      - cbn [app Server.read_all].
        destruct (read_client (Some socket) c s0) as [s1 e1].
        rewrite IH.
        destruct (read_all socket rest s1) as [s2 es].
        destruct (read_client (Some socket) last s2) as [s3 e3].
        rewrite app_assoc. reflexivity. }
    rewrite Hsplit, Hpre.
    rewrite join_app in Hloads. simpl in Hloads.
    rewrite string_app_nil_r in Hloads.
    destruct earlier as [|c rest].
    + simpl in Hloads.
      rewrite (read_client_dispatches _ socket buf last doc frame pix);
        [| destruct st; exact Hbuf | exact Hloads | exact Hsel].
      eexists. reflexivity.
    + rewrite <- string_app_assoc in Hloads.
      rewrite (read_client_dispatches _ socket (buf +:+ Server.join (c :: rest))
                 last doc frame pix);
        [| apply lookup_insert_eq | exact Hloads | exact Hsel].
      cbn [Server.buffers Server.net_calls Server.deferred].
      rewrite insert_insert_eq. eexists. reflexivity.
  - intros st1 buf1 new_data e Hb He.
    rewrite (read_client_retains st1 socket buf1 new_data e Hb He).
    eexists. eexists. split; [reflexivity|].
    unfold Server.set_buffer.
    cbn [Server.buffers Server.net_calls Server.deferred].
    split; [apply lookup_insert_eq | split; reflexivity].
Qed.

End ServerFacts.

Lemma read_client_other_status_witness :
  Server.read_client nat 0%nat Server.loads_literal no_new_card (Some 0%nat)
    "{}" one_connection
  = ({| Server.buffers :=
          <[0%nat := EmptyString]> (Server.buffers nat one_connection);
        Server.net_calls := Server.net_calls nat one_connection ++ Server.ack 0;
        Server.deferred := Server.deferred nat one_connection
                           ++ [("Default"%string, 0%nat)] |},
     None)
  /\ exists a,
       Server.handle_read nat 0%nat Server.loads_literal no_new_card 0 "{}"
         app_start = (a, None)
       /\ Server.net_calls nat (Server.the_server nat a)
          = Server.net_calls nat one_connection ++ Server.ack 0
       /\ Server.active_border nat (Server.the_window nat a) = "Default"%string.
Proof.
  apply (read_client_other_status nat 0%nat Server.loads_literal no_new_card
           one_connection (Server.window_init nat) 0%nat EmptyString "{}" []).
  - reflexivity.
  - reflexivity.
  - reflexivity.
Defined.

(** C2 as the specification words it fails on the message [{}], whose
    status is absent: the window starts with the active border "token",
    the message is acknowledged, and after the event-loop turn the active
    border is "Default". *)
Lemma other_status_active_border_counterexample :
  Server.loads_literal "{}" = Ok (Py.VDict [])
  /\ Py.assoc "status" [] = None
  /\ Server.active_border nat (Server.the_window nat app_start) = "token"%string
  /\ exists a,
       Server.handle_read nat 0%nat Server.loads_literal no_new_card 0 "{}"
         app_start = (a, None)
       /\ Server.net_calls nat (Server.the_server nat a) = Server.ack 0
       /\ Server.active_border nat (Server.the_window nat a) = "Default"%string
       /\ Server.active_border nat (Server.the_window nat a)
          <> Server.active_border nat (Server.the_window nat app_start).
Proof.
  split; [reflexivity|]. split; [reflexivity|]. split; [reflexivity|].
  eexists. split; [reflexivity|]. split; [reflexivity|].
  split; [reflexivity|]. discriminate.
Qed.

(** A message that is valid JSON but no object is decoded, and the
    handler raises before it acknowledges. *)
Example read_client_not_object :
  snd (Server.read_client nat 0%nat Server.loads_literal no_new_card
         (Some 0%nat) "7" one_connection) = Some AttributeError
  /\ Server.net_calls nat
       (fst (Server.read_client nat 0%nat Server.loads_literal no_new_card
               (Some 0%nat) "7" one_connection)) = [].
Proof. split; reflexivity. Qed.

Lemma read_all_dispatches_once_witness :
  exists errs,
    Server.read_all nat 0%nat Server.loads_literal no_new_card 0 ["{"; "}"]%string
      one_connection
    = ({| Server.buffers :=
            <[0%nat := EmptyString]> (Server.buffers nat one_connection);
          Server.net_calls := Server.net_calls nat one_connection ++ Server.ack 0;
          Server.deferred := Server.deferred nat one_connection
                             ++ [("Default"%string, 0%nat)] |},
       errs).
Proof.
  refine (proj1 (read_all_dispatches_once nat 0%nat Server.loads_literal
                   no_new_card one_connection 0%nat EmptyString ["{"%string]
                   "}" (Py.VDict []) "Default" 0%nat _ _ _ _)).
  - reflexivity.
  - intros p s Hps Hp. exists JSONDecodeError.
    destruct p as [|c p]; [congruence|].
    destruct p as [|c' p]; [|destruct s; discriminate].
    injection Hps as <- _. reflexivity.
  - reflexivity.
  - reflexivity.
Defined.

(** C9 as the specification words it fails on the document [12] read as
    [1] and then [2]: the bytes together are one valid document, yet the
    first read already decodes (to 1) and the second decodes again (to 2);
    the document 12 is never decoded, nothing is acknowledged and no
    overlay update is queued. *)
Lemma split_number_counterexample :
  Server.loads_literal (Server.join ["1"; "2"]%string) = Ok (Py.VInt 12)
  /\ Server.loads_literal "1" = Ok (Py.VInt 1)
  /\ snd (Server.read_all nat 0%nat Server.loads_literal no_new_card 0
            ["1"; "2"]%string one_connection)
     = [AttributeError; AttributeError]
  /\ Server.deferred nat
       (fst (Server.read_all nat 0%nat Server.loads_literal no_new_card 0
               ["1"; "2"]%string one_connection)) = []
  /\ Server.net_calls nat
       (fst (Server.read_all nat 0%nat Server.loads_literal no_new_card 0
               ["1"; "2"]%string one_connection)) = [].
Proof. repeat split; reflexivity. Qed.

(** * Further properties *)

(** ** Frames *)

Lemma pixel_at_None_map_raster {A B} (f : A -> B) (a : list (list A)) i j :
  Frame.pixel_at a i j = None ->
  Frame.pixel_at (Frame.map_raster f a) i j = None.
Proof. intros H. rewrite pixel_at_map_raster, H. reflexivity. Qed.

Lemma raster_eq {A} (a b : list (list A)) :
  length a = length b ->
  (forall (j : nat) ra rb, a !! j = Some ra -> b !! j = Some rb ->
     length ra = length rb) ->
  (forall i j, Frame.pixel_at a i j = Frame.pixel_at b i j) ->
  a = b.
Proof.
  intros Hlen Hrows Hpix. apply list_eq. intros j.
  destruct (a !! j) as [ra|] eqn:Ha.
  - destruct (lookup_lt_is_Some_2 b j) as [rb Hb].
    { rewrite <- Hlen. apply (lookup_lt_Some _ _ _ Ha). }
    rewrite Hb. f_equal. apply list_eq. intros i.
    specialize (Hpix (Z.of_nat i) (Z.of_nat j)).
    unfold Frame.pixel_at in Hpix.
    replace ((Z.of_nat i <? 0) || (Z.of_nat j <? 0)) with false in Hpix
      by (symmetry; apply orb_false_intro; apply Z.ltb_ge; lia).
    rewrite !Nat2Z.id, Ha, Hb in Hpix. exact Hpix.
  - symmetry. apply lookup_ge_None. rewrite <- Hlen.
    apply lookup_ge_None. exact Ha.
Qed.

Lemma restore_same (mask : Frame.rgba -> bool) (a : list (list Frame.rgba)) :
  Frame.restore mask a a = a.
Proof.
  unfold Frame.restore, Frame.zip_raster.
  induction a as [|row a IH]; [reflexivity|].
  cbn [zip_with]. rewrite IH. f_equal.
  induction row as [|p row IHrow]; [reflexivity|].
  cbn [zip_with]. rewrite IHrow. destruct (mask p); reflexivity.
Qed.

Lemma paste_same_pixels (im src : list (list Frame.rgba)) x0 y0 x1 y1 :
  (forall i j p, Frame.pixel_at im i j = Some p ->
                 Frame.in_box (x0, y0, x1, y1) i j = true ->
                 Frame.pixel_at src (i - x0) (j - y0) = Some p) ->
  Frame.paste im src (x0, y0, x1, y1) = im.
Proof.
  intros Hsame. apply raster_eq.
  - unfold Frame.paste. apply length_imap.
  - intros j ra rb Ha Hb. unfold Frame.paste in Ha.
    rewrite list_lookup_imap, Hb in Ha. injection Ha as <-.
    apply length_imap.
  - intros i j. rewrite pixel_at_paste.
    destruct (Frame.pixel_at im i j) as [p|] eqn:Hp; [|reflexivity].
    cbn [fmap option_fmap option_map]. f_equal.
    destruct (Frame.in_box (x0, y0, x1, y1) i j) eqn:Hin; [|reflexivity].
    rewrite (Hsame i j p Hp Hin). reflexivity.
Qed.

Section FrameMore.

Variable rgb_to_hsv : Frame.rgba -> Frame.hsv.
Variable hsv_to_rgb : Frame.hsv -> Z * Z * Z.
Variable enhance_color : PyFloat.float -> Frame.rgba -> Frame.rgba.
Variable enhance_brightness : PyFloat.float -> Frame.rgba -> Frame.rgba.

Abbreviation adjust_hue := (Frame.adjust_hue rgb_to_hsv hsv_to_rgb).
Abbreviation adjust_colours :=
  (Frame.adjust_colours rgb_to_hsv hsv_to_rgb enhance_color enhance_brightness).
Abbreviation adjust_frame :=
  (Frame.adjust_frame rgb_to_hsv hsv_to_rgb enhance_color enhance_brightness).
Abbreviation adjust_pixel :=
  (Frame.adjust_pixel rgb_to_hsv hsv_to_rgb enhance_color enhance_brightness).

(** X1: for a hue whose shift fits a 32-bit integer (as every hue from
    -180 to 180 does), a region edit leaves every pixel outside the
    region as it was, gives every opaque pixel inside it the adjusted
    value, and keeps the shape of the frame. *)
Theorem adjust_frame_region_scoping frame hue_deg saturation brightness shift
    x y w h :
  Frame.hue_shift hue_deg = Ok shift ->
  - 2147483648 < shift < 2147483648 ->
  0 <= w -> 0 <= h ->
  exists out,
    adjust_frame frame hue_deg saturation brightness (Some (x, y, w, h)) = Ok out
    /\ (forall i j p,
          Frame.pixel_at frame i j = Some p ->
          Frame.in_box (x, y, x + w, y + h) i j = false ->
          Frame.pixel_at out i j = Some p)
    /\ (forall i j p,
          Frame.pixel_at frame i j = Some p ->
          Frame.in_box (x, y, x + w, y + h) i j = true ->
          255 <= Frame.alpha p ->
          Frame.pixel_at out i j
          = Some (adjust_pixel hue_deg saturation brightness shift p))
    /\ (forall i j, Frame.pixel_at frame i j = None ->
                    Frame.pixel_at out i j = None).
Proof.
  intros Hshift _ Hw Hh. unfold Frame.adjust_frame.
  destruct (Frame.crop frame (x, y, x + w, y + h)) as [orig|e] eqn:Hcrop.
  2:{ unfold Frame.crop in Hcrop.
      replace ((x + w <? x) || (y + h <? y)) with false in Hcrop
        by (symmetry; apply orb_false_intro; apply Z.ltb_ge; lia).
      discriminate. }
  cbn [bind]. rewrite (adjust_colours_pixelwise _ _ _ _ _ _ _ _ _ Hshift).
  cbn [bind]. eexists. split; [reflexivity|]. split; [|split].
  - intros i j p Hp Hout. rewrite pixel_at_paste, Hp, Hout. reflexivity.
  - intros i j p Hp Hin Ha. rewrite pixel_at_paste, Hp, Hin.
    cbn [fmap option_fmap option_map]. f_equal.
    unfold Frame.in_box in Hin.
    apply andb_prop in Hin as [Hin Hj2]. apply andb_prop in Hin as [Hin Hj1].
    apply andb_prop in Hin as [Hi1 Hi2].
    apply Z.leb_le in Hi1, Hj1. apply Z.ltb_lt in Hi2, Hj2.
    unfold Frame.restore. rewrite pixel_at_zip_raster, pixel_at_map_raster.
    rewrite (pixel_at_crop _ _ _ _ _ _ _ _ Hcrop) by lia.
    replace (x + (i - x)) with i by lia. replace (y + (j - y)) with j by lia.
    rewrite Hp. cbn [default fmap option_fmap option_map from_option id].
    replace (Frame.alpha p <? 255) with false
      by (symmetry; apply Z.ltb_ge; exact Ha).
    reflexivity.
  - intros i j Hnone. rewrite pixel_at_paste, Hnone. reflexivity.
Qed.

Lemma adjust_colours_identity (im : list (list Frame.rgba))
    hue_deg saturation brightness :
  PyFloat.neqb hue_deg PyFloat.zero = false ->
  PyFloat.neqb saturation PyFloat.one = false ->
  PyFloat.neqb brightness PyFloat.zero = false ->
  adjust_colours im hue_deg saturation brightness = Ok im.
Proof.
  intros Hh Hs Hb. unfold Frame.adjust_colours. rewrite Hh, Hs, Hb. reflexivity.
Qed.

(** X2: with a hue equal to 0, saturation 1.0 and brightness 0 the
    adjustment returns the frame it was given, pixel for pixel, with or
    without a region, whatever the colour kernels are. *)
Theorem adjust_frame_identity frame hue_deg saturation brightness region :
  PyFloat.neqb hue_deg PyFloat.zero = false ->
  PyFloat.neqb saturation PyFloat.one = false ->
  PyFloat.neqb brightness PyFloat.zero = false ->
  match region with
  | Some (_, _, w, h) => 0 <= w /\ 0 <= h
  | None => True
  end ->
  adjust_frame frame hue_deg saturation brightness region = Ok frame.
Proof.
  intros Hh Hs Hb Hregion. unfold Frame.adjust_frame.
  destruct region as [[[[x y] w] h]|].
  - destruct Hregion as [Hw Hhh].
    destruct (Frame.crop frame (x, y, x + w, y + h)) as [orig|e] eqn:Hcrop.
    2:{ unfold Frame.crop in Hcrop.
        replace ((x + w <? x) || (y + h <? y)) with false in Hcrop
          by (symmetry; apply orb_false_intro; apply Z.ltb_ge; lia).
        discriminate. }
    cbn [bind]. rewrite (adjust_colours_identity _ _ _ _ Hh Hs Hb).
    cbn [bind]. rewrite restore_same. f_equal.
    apply paste_same_pixels. intros i j p Hp Hin.
    unfold Frame.in_box in Hin.
    apply andb_prop in Hin as [Hin Hj2]. apply andb_prop in Hin as [Hin Hj1].
    apply andb_prop in Hin as [Hi1 Hi2].
    apply Z.leb_le in Hi1, Hj1. apply Z.ltb_lt in Hi2, Hj2.
    rewrite (pixel_at_crop _ _ _ _ _ _ _ _ Hcrop) by lia.
    replace (x + (i - x)) with i by lia. replace (y + (j - y)) with j by lia.
    rewrite Hp. reflexivity.
  - rewrite (adjust_colours_identity _ _ _ _ Hh Hs Hb). cbn [bind].
    rewrite restore_same. reflexivity.
Qed.

(** X3: for a hue whose shift fits a 32-bit integer (as every hue from
    -180 to 180 does), [adjust_hue] returns an image of the same shape
    in which every pixel is opaque, whatever the alpha it had. *)
Theorem adjust_hue_opaque (im : list (list Frame.rgba)) hue_deg shift :
  Frame.hue_shift hue_deg = Ok shift ->
  - 2147483648 < shift < 2147483648 ->
  exists out,
    adjust_hue im hue_deg = Ok out
    /\ length out = length im
    /\ (forall i j q, Frame.pixel_at out i j = Some q -> Frame.alpha q = 255)
    /\ (forall i j, Frame.pixel_at out i j = None <-> Frame.pixel_at im i j = None).
Proof.
  intros Hshift _. unfold Frame.adjust_hue. rewrite Hshift. cbn [bind].
  eexists. split; [reflexivity|]. split; [|split].
  - rewrite shifted_hsv_pixelwise. unfold Frame.map_raster.
    rewrite !length_fmap. reflexivity.
  - intros i j q. rewrite pixel_at_map_raster.
    destruct (Frame.pixel_at _ i j) as [t|]; [|discriminate].
    cbn [fmap option_fmap option_map]. intros [= <-].
    unfold Frame.hsv_to_rgba. destruct (hsv_to_rgb t) as [[r g] b]. reflexivity.
  - intros i j.
    rewrite pixel_at_map_raster, shifted_hsv_pixelwise, pixel_at_map_raster.
    destruct (Frame.pixel_at im i j); cbn [fmap option_fmap option_map];
      split; congruence.
Qed.

(** X4: a hue that is not finite makes the edit raise, in [adjust_hue]
    and in both branches of [adjust_frame] (no region, or any region of
    non-negative size): [int] refuses an infinity with [OverflowError]
    and a NaN with [ValueError]. *)
Theorem adjust_frame_hue_not_finite frame saturation brightness s :
  adjust_hue frame (S754_infinity s) = Raise OverflowError
  /\ adjust_hue frame S754_nan = Raise ValueError
  /\ adjust_frame frame (S754_infinity s) saturation brightness None
     = Raise OverflowError
  /\ adjust_frame frame S754_nan saturation brightness None = Raise ValueError
  /\ (forall x y w h,
        0 <= w -> 0 <= h ->
        adjust_frame frame (S754_infinity s) saturation brightness
          (Some (x, y, w, h)) = Raise OverflowError)
  /\ (forall x y w h,
        0 <= w -> 0 <= h ->
        adjust_frame frame S754_nan saturation brightness
          (Some (x, y, w, h)) = Raise ValueError).
Proof.
  assert (Hinf : Frame.hue_shift (S754_infinity s) = Raise OverflowError)
    by (destruct s; reflexivity).
  assert (Hneq : PyFloat.neqb (S754_infinity s) PyFloat.zero = true)
    by (destruct s; reflexivity).
  assert (Hcrop : forall x y w h, 0 <= w -> 0 <= h ->
            exists orig, Frame.crop frame (x, y, x + w, y + h) = Ok orig).
  { intros x y w h Hw Hh.
    destruct (Frame.crop frame (x, y, x + w, y + h)) as [orig|e] eqn:Hc;
      [exists orig; reflexivity|].
    unfold Frame.crop in Hc.
    replace ((x + w <? x) || (y + h <? y)) with false in Hc
      by (symmetry; apply orb_false_intro; apply Z.ltb_ge; lia).
    discriminate. }
  split; [|split; [|split; [|split; [|split]]]].
  - unfold Frame.adjust_hue. rewrite Hinf. reflexivity.
  - reflexivity.
  - unfold Frame.adjust_frame, Frame.adjust_colours, Frame.adjust_hue.
    rewrite Hneq, Hinf. reflexivity.
  - reflexivity.
  - intros x y w h Hw Hh. unfold Frame.adjust_frame.
    destruct (Hcrop x y w h Hw Hh) as [orig ->].
    cbn [bind]. unfold Frame.adjust_colours, Frame.adjust_hue.
    rewrite Hneq, Hinf. reflexivity.
  - intros x y w h Hw Hh. unfold Frame.adjust_frame.
    destruct (Hcrop x y w h Hw Hh) as [orig ->].
    reflexivity.
Qed.

End FrameMore.

Lemma hue_shift_bounded_degrees :
  forallb (fun d => match Frame.hue_shift (PyFloat.of_Z d) with
                    | Ok k => (-127 <=? k) && (k <=? 127)
                    | Raise _ => false
                    end)
          (seqZ (-180) 361) = true.
Proof. vm_compute. reflexivity. Qed.

(** X5: the shift of the negated hue is the negated shift, for every
    float, and on whole degrees from -180 to 180 the shift stays within
    -127 and 127. *)
Theorem hue_shift_odd hue_deg k :
  Frame.hue_shift hue_deg = Ok k ->
  Frame.hue_shift (PyFloat.neg hue_deg) = Ok (- k)
  /\ forall d, -180 <= d <= 180 ->
       exists kd, Frame.hue_shift (PyFloat.of_Z d) = Ok kd /\ -127 <= kd <= 127.
Proof.
  intros Hk. split; [exact (hue_shift_neg _ _ Hk)|].
  intros d Hd. pose proof hue_shift_bounded_degrees as H.
  rewrite forallb_forall in H.
  assert (Hin : In d (seqZ (-180) 361))
    by (apply list_elem_of_In, elem_of_seqZ; lia).
  specialize (H d Hin).
  destruct (Frame.hue_shift (PyFloat.of_Z d)) as [kd|e]; [|discriminate].
  exists kd. split; [reflexivity|].
  apply andb_prop in H as [H1 H2].
  apply Z.leb_le in H1, H2. lia.
Qed.

(** X6: on a plane of bytes and for a shift that, with 256 added, fits a
    32-bit integer: the shifted hue plane holds bytes, also for a
    negative shift; the shift and the shift 256 further give the same
    plane; and shifting by [k] and then by [-k] gives the plane back. *)
Theorem shift_plane_wraps k (np_h : list (list Z)) :
  - 2147483648 < k -> k + 256 < 2147483648 ->
  Forall (Forall (fun h => 0 <= h < 256)) np_h ->
  Forall (Forall (fun h => 0 <= h < 256)) (Frame.shift_plane k np_h)
  /\ Frame.shift_plane (k + 256) np_h = Frame.shift_plane k np_h
  /\ Frame.shift_plane (- k) (Frame.shift_plane k np_h) = np_h.
Proof.
  intros _ _ Hbytes. split; [|split].
  - clear Hbytes. unfold Frame.shift_plane, Frame.map_raster.
    induction np_h as [|row rows IH]; [constructor|].
    cbn [fmap list_fmap]. constructor; [|exact IH].
    clear IH. induction row as [|h hs IHrow]; [constructor|].
    cbn [fmap list_fmap]. constructor; [|exact IHrow].
    apply Z.mod_pos_bound. lia.
  - unfold Frame.shift_plane, Frame.map_raster.
    apply list_fmap_ext. intros _ row _. apply list_fmap_ext. intros _ h _.
    replace (h + (k + 256)) with (h + k + 1 * 256) by lia.
    apply Z.mod_add. lia.
  - apply shift_plane_round_trip. exact Hbytes.
Qed.

Lemma slice_bound_range n i : 0 <= n -> 0 <= Frame.slice_bound n i <= n.
Proof. intros Hn. unfold Frame.slice_bound. destruct (i <? 0) eqn:Hi; lia. Qed.

Lemma slice_store_mismatch {A} (a : list A) lo hi (src : list A) :
  (1 < length src)%nat ->
  Z.of_nat (length src)
  <> Z.max 0 (Frame.slice_bound (Z.of_nat (length a)) hi
              - Frame.slice_bound (Z.of_nat (length a)) lo) ->
  Frame.slice_store a lo hi src = Raise ValueError.
Proof.
  intros Hlen Hne. unfold Frame.slice_store.
  destruct src as [|x [|x' src]]; [simpl in Hlen; lia | simpl in Hlen; lia |].
  destruct (Z.max 0 _ =? _) eqn:Heq; [|reflexivity].
  apply Z.eqb_eq in Heq. congruence.
Qed.

Lemma apply_gradient_raises_when_short (frame : list (list Frame.rgba)) :
  (length frame < 100)%nat ->
  Frame.apply_gradient frame = Raise ValueError.
Proof.
  intros Hshort. unfold Frame.apply_gradient, Frame.gradient_mask.
  fold Frame.gradient_ramp. change Frame.gradient_band_height with 100.
  set (n := Z.of_nat (length frame)).
  rewrite slice_store_mismatch; [reflexivity | |].
  - rewrite gradient_ramp_length. lia.
  - rewrite gradient_ramp_length, length_slice_fill, length_replicate.
    replace (Z.of_nat (Z.to_nat n)) with n by (unfold n; lia).
    pose proof (slice_bound_range n ((n - 100) `div` 2 + 100)
                  ltac:(unfold n; lia)).
    pose proof (slice_bound_range n ((n - 100) `div` 2) ltac:(unfold n; lia)).
    assert (n < 100) by (unfold n; lia).
    lia.
Qed.

(** X7: a frame of fewer than 100 rows makes [apply_gradient] raise
    [ValueError]: the ramp of 100 values does not fit the slice of the
    mask it is stored into. *)
Theorem apply_gradient_short_frame (frame : list (list Frame.rgba)) :
  (length frame < 100)%nat ->
  Frame.apply_gradient frame = Raise ValueError.
Proof. exact (apply_gradient_raises_when_short frame). Qed.

Lemma gradient_ramp_scales_down :
  forallb (fun m =>
             forallb (fun a =>
                        let v := PyFloat.to_uint8
                                   (PyFloat.f32_mul (PyFloat.f32_of_Z a) m) in
                        (0 <=? v) && (v <=? a))
                     (seqZ 0 256))
          Frame.gradient_ramp = true.
Proof. vm_compute. reflexivity. Qed.

Lemma scale_alpha_bounds m p :
  m = PyFloat.zero \/ m = PyFloat.f32_one \/ m ∈ Frame.gradient_ramp ->
  0 <= Frame.alpha p < 256 ->
  0 <= Frame.alpha (Frame.scale_alpha m p) <= Frame.alpha p.
Proof.
  intros Hm Ha. destruct Hm as [-> | [-> | Hm]].
  - rewrite scale_alpha_zero. lia.
  - rewrite scale_alpha_one by exact Ha. lia.
  - pose proof gradient_ramp_scales_down as H.
    rewrite forallb_forall in H.
    apply list_elem_of_In in Hm. specialize (H m Hm).
    rewrite forallb_forall in H.
    assert (Hin : In (Frame.alpha p) (seqZ 0 256))
      by (apply list_elem_of_In, elem_of_seqZ; lia).
    specialize (H _ Hin). cbv zeta in H.
    apply andb_prop in H as [H1 H2]. apply Z.leb_le in H1, H2.
    unfold Frame.scale_alpha. cbn [Frame.alpha]. lia.
Qed.

(** X8: on a frame of at least 100 rows the gradient leaves the colour
    channels of every pixel alone, makes every pixel above the band
    transparent, returns unchanged every pixel on the last row of the
    band and below, and never raises an alpha (for byte alphas). *)
Theorem apply_gradient_pixels (frame : list (list Frame.rgba)) :
  let height := Z.of_nat (length frame) in
  let start_y := (height - 100) / 2 in
  100 <= height ->
  exists out,
    Frame.apply_gradient frame = Ok out
    /\ forall i j p,
         Frame.pixel_at frame i j = Some p ->
         0 <= Frame.alpha p < 256 ->
         exists q,
           Frame.pixel_at out i j = Some q
           /\ Frame.red q = Frame.red p
           /\ Frame.green q = Frame.green p
           /\ Frame.blue q = Frame.blue p
           /\ 0 <= Frame.alpha q <= Frame.alpha p
           /\ (j < start_y -> Frame.alpha q = 0)
           /\ (start_y + 99 <= j -> q = p).
Proof.
  intros height start_y Hh.
  destruct (gradient_mask_rows height Hh) as (mask & Hmask & Hlen & Hrows).
  fold start_y in Hrows.
  assert (Hstart : 0 <= start_y) by (apply Z.div_pos; lia).
  unfold Frame.apply_gradient. fold height. rewrite Hmask. cbn [bind].
  eexists. split; [reflexivity|].
  intros i j p Hp Ha.
  destruct (pixel_at_Some_nonneg _ _ _ _ Hp) as [Hi Hj].
  assert (Hjlt : j < height).
  { unfold Frame.pixel_at in Hp.
    destruct ((i <? 0) || (j <? 0)); [discriminate|].
    destruct (frame !! Z.to_nat j) eqn:Hrow; [|discriminate].
    apply lookup_lt_Some in Hrow. unfold height. lia. }
  pose proof (Hrows (Z.to_nat j) ltac:(lia)) as Hm.
  rewrite Z2Nat.id in Hm by lia.
  eexists. split; [apply (pixel_at_apply_rows _ _ _ _ _ _ Hp Hm)|].
  split; [reflexivity|]. split; [reflexivity|]. split; [reflexivity|].
  split; [|split].
  - apply scale_alpha_bounds; [|exact Ha].
    destruct (start_y + 100 <=? j); [auto|].
    destruct (start_y <=? j) eqn:H2; [|auto].
    apply Z.leb_le in H2.
    destruct (Frame.gradient_ramp !! (Z.to_nat j - Z.to_nat start_y)%nat)
      as [v|] eqn:Hv.
    + right. right. apply list_elem_of_lookup. eauto.
    + auto.
  - intros Habove.
    replace (start_y + 100 <=? j) with false by (symmetry; apply Z.leb_gt; lia).
    replace (start_y <=? j) with false by (symmetry; apply Z.leb_gt; lia).
    apply scale_alpha_zero.
  - intros Hbelow.
    destruct (start_y + 100 <=? j) eqn:H1.
    + apply scale_alpha_one. exact Ha.
    + apply Z.leb_gt in H1.
      replace (start_y <=? j) with true by (symmetry; apply Z.leb_le; lia).
      replace (Z.to_nat j - Z.to_nat start_y)%nat with 99%nat by lia.
      rewrite gradient_ramp_last. apply scale_alpha_one. exact Ha.
Qed.

(** ** Sprites: loading, repeated ticks, restart *)

Section TicksFacts.

Context {pixmap : Type}.
Implicit Types w : Sprite.label pixmap.

Lemma update_frame_step w :
  (Sprite.current_frame pixmap w < length (Sprite.frames pixmap w))%nat ->
  exists f,
    Sprite.frames pixmap w !! Sprite.current_frame pixmap w = Some f
    /\ Sprite.update_frame pixmap w
       = Ok {| Sprite.frames := Sprite.frames pixmap w;
               Sprite.current_frame :=
                 (Sprite.current_frame pixmap w + 1)
                   mod length (Sprite.frames pixmap w);
               Sprite.shown := Some f;
               Sprite.timer_running := Sprite.timer_running pixmap w |}.
Proof.
  intros Hlt. destruct (index_in_range _ _ Hlt) as (f & Hf & Hidx).
  exists f. split; [exact Hf|].
  unfold Sprite.update_frame.
  destruct (Sprite.frames pixmap w) as [|f0 fs] eqn:Hfs; [simpl in Hlt; lia|].
  rewrite Hidx. reflexivity.
Qed.

Lemma ticks_from n : forall w,
  (Sprite.current_frame pixmap w < length (Sprite.frames pixmap w))%nat ->
  exists w',
    Label.ticks pixmap n w = Ok w'
    /\ Sprite.frames pixmap w' = Sprite.frames pixmap w
    /\ Sprite.timer_running pixmap w' = Sprite.timer_running pixmap w
    /\ Sprite.current_frame pixmap w'
       = ((Sprite.current_frame pixmap w + n)
            mod length (Sprite.frames pixmap w))%nat
    /\ ((0 < n)%nat ->
        Sprite.shown pixmap w'
        = Sprite.frames pixmap w
            !! ((Sprite.current_frame pixmap w + n - 1)
                  mod length (Sprite.frames pixmap w))%nat).
Proof.
  induction n as [|n IH]; intros w Hlt.
  - exists w. split; [reflexivity|]. split; [reflexivity|].
    split; [reflexivity|]. split; [|lia].
    rewrite Nat.add_0_r. symmetry. apply Nat.mod_small. exact Hlt.
  - destruct (update_frame_step w Hlt) as (f & Hf & Hstep).
    cbn [Label.ticks]. unfold Sprite.next_frame. rewrite Hstep. cbn [bind].
    set (len := length (Sprite.frames pixmap w)) in *.
    set (cur := Sprite.current_frame pixmap w) in *.
    assert (Hlen : len <> 0%nat) by lia.
    set (w1 := {| Sprite.frames := Sprite.frames pixmap w;
                  Sprite.current_frame := ((cur + 1) mod len)%nat;
                  Sprite.shown := Some f;
                  Sprite.timer_running := Sprite.timer_running pixmap w |}).
    destruct (IH w1) as (w' & Hticks & Hfr & Htm & Hcur & Hshown).
    { unfold w1. cbn [Sprite.frames Sprite.current_frame]. fold len.
      apply Nat.mod_upper_bound. exact Hlen. }
    unfold w1 in Hfr, Htm, Hcur, Hshown.
    cbn [Sprite.frames Sprite.current_frame Sprite.timer_running] in Hfr, Htm, Hcur, Hshown.
    fold len in Hcur, Hshown.
    exists w'. split; [exact Hticks|]. split; [exact Hfr|]. split; [exact Htm|].
    split.
    + rewrite Hcur, Nat.Div0.add_mod_idemp_l. f_equal. lia.
    + intros _. destruct n as [|n].
      * cbn [Label.ticks] in Hticks. injection Hticks as <-.
        unfold w1. cbn [Sprite.shown].
        replace (cur + 1 - 1)%nat with cur by lia.
        rewrite Nat.mod_small by exact Hlt. symmetry. exact Hf.
      * rewrite Hshown by lia. f_equal.
        replace ((cur + 1) mod len + S n - 1)%nat
          with ((cur + 1) mod len + n)%nat by lia.
        rewrite Nat.Div0.add_mod_idemp_l. f_equal. lia.
Qed.

(** X9: on a sprite with frames, [n] ticks move the position from [p] to
    [(p + n) mod len], leave the frames and the timer alone and, for
    [n > 0], show the frame at [(p + n - 1) mod len]; as many ticks as
    there are frames bring the position back to [p]. *)
Theorem ticks_cycle n w :
  (Sprite.current_frame pixmap w < length (Sprite.frames pixmap w))%nat ->
  (exists w',
     Label.ticks pixmap n w = Ok w'
     /\ Sprite.frames pixmap w' = Sprite.frames pixmap w
     /\ Sprite.timer_running pixmap w' = Sprite.timer_running pixmap w
     /\ Sprite.current_frame pixmap w'
        = ((Sprite.current_frame pixmap w + n)
             mod length (Sprite.frames pixmap w))%nat
     /\ ((0 < n)%nat ->
         Sprite.shown pixmap w'
         = Sprite.frames pixmap w
             !! ((Sprite.current_frame pixmap w + n - 1)
                   mod length (Sprite.frames pixmap w))%nat))
  /\ (exists w',
        Label.ticks pixmap (length (Sprite.frames pixmap w)) w = Ok w'
        /\ Sprite.current_frame pixmap w' = Sprite.current_frame pixmap w).
Proof.
  intros Hlt. split; [exact (ticks_from n w Hlt)|].
  destruct (ticks_from (length (Sprite.frames pixmap w)) w Hlt)
    as (w' & Hticks & _ & _ & Hcur & _).
  exists w'. split; [exact Hticks|].
  rewrite Hcur.
  rewrite <- Nat.Div0.add_mod_idemp_r, Nat.Div0.mod_same, Nat.add_0_r.
  apply Nat.mod_small. exact Hlt.
Qed.

(** [restart] on a sprite with frames shows the first frame and leaves
    the position at [1 mod len], wherever the position was; on a sprite
    without frames it only resets the position. *)
Lemma restart_shows_first w :
  match Sprite.frames pixmap w with
  | [] =>
      Label.restart pixmap w
      = Ok {| Sprite.frames := []; Sprite.current_frame := 0;
              Sprite.shown := Sprite.shown pixmap w;
              Sprite.timer_running := Sprite.timer_running pixmap w |}
  | f :: fs =>
      Label.restart pixmap w
      = Ok {| Sprite.frames := f :: fs;
              Sprite.current_frame := (1 mod length (f :: fs))%nat;
              Sprite.shown := Some f;
              Sprite.timer_running := Sprite.timer_running pixmap w |}
  end.
Proof.
  unfold Label.restart, Sprite.update_frame. cbn [Sprite.frames].
  destruct (Sprite.frames pixmap w) as [|f fs]; reflexivity.
Qed.

End TicksFacts.

Section LoaderFacts.

Variable rgb_to_hsv : Frame.rgba -> Frame.hsv.
Variable hsv_to_rgb : Frame.hsv -> Z * Z * Z.
Variable enhance_color : PyFloat.float -> Frame.rgba -> Frame.rgba.
Variable enhance_brightness : PyFloat.float -> Frame.rgba -> Frame.rgba.

Abbreviation prepare_frame :=
  (Label.prepare_frame rgb_to_hsv hsv_to_rgb enhance_color enhance_brightness).
Abbreviation append_frames :=
  (Label.append_frames rgb_to_hsv hsv_to_rgb enhance_color enhance_brightness).
Abbreviation set_webp :=
  (Label.set_webp rgb_to_hsv hsv_to_rgb enhance_color enhance_brightness).

Lemma append_frames_all hue_deg saturation brightness region gradient
    decoded prepared : forall w,
  Forall2 (fun d p => prepare_frame hue_deg saturation brightness region
                        gradient d = Ok p) decoded prepared ->
  append_frames hue_deg saturation brightness region gradient decoded w
  = ({| Sprite.frames := Sprite.frames _ w ++ prepared;
        Sprite.current_frame := Sprite.current_frame _ w;
        Sprite.shown := Sprite.shown _ w;
        Sprite.timer_running := Sprite.timer_running _ w |}, None).
Proof.
  intros w Hall. revert w.
  induction Hall as [|d p ds ps Hd _ IH]; intros w.
  - cbn [Label.append_frames]. rewrite app_nil_r. destruct w. reflexivity.
  - cbn [Label.append_frames]. rewrite Hd, IH.
    cbn [Sprite.frames Sprite.current_frame Sprite.shown Sprite.timer_running].
    rewrite <- app_assoc. reflexivity.
Qed.

Lemma append_frames_raises hue_deg saturation brightness region gradient
    good prepared bad rest e : forall w,
  Forall2 (fun d p => prepare_frame hue_deg saturation brightness region
                        gradient d = Ok p) good prepared ->
  prepare_frame hue_deg saturation brightness region gradient bad = Raise e ->
  append_frames hue_deg saturation brightness region gradient
    (good ++ bad :: rest) w
  = ({| Sprite.frames := Sprite.frames _ w ++ prepared;
        Sprite.current_frame := Sprite.current_frame _ w;
        Sprite.shown := Sprite.shown _ w;
        Sprite.timer_running := Sprite.timer_running _ w |}, Some e).
Proof.
  intros w Hall Hbad. revert w.
  induction Hall as [|d p ds ps Hd _ IH]; intros w.
  - cbn [app Label.append_frames]. rewrite Hbad, app_nil_r.
    destruct w. reflexivity.
  - cbn [app Label.append_frames]. rewrite Hd, IH.
    cbn [Sprite.frames Sprite.current_frame Sprite.shown Sprite.timer_running].
    rewrite <- app_assoc. reflexivity.
Qed.

(** X10: when every frame of the file is prepared without an exception,
    [set_webp] caches the prepared frames in the order of the file,
    starts the timer, shows the first one and leaves the position at
    [1 mod n]; when the preparation of a frame raises, the exception
    leaves [set_webp], the frames prepared before it stay cached, nothing
    new is shown and the timer is not started. *)
Theorem set_webp_caches w hue_deg saturation brightness region gradient :
  (forall first others prepared_first prepared_others,
     Forall2 (fun d p => prepare_frame hue_deg saturation brightness region
                           gradient d = Ok p)
             (first :: others) (prepared_first :: prepared_others) ->
     set_webp w (first :: others) hue_deg saturation brightness region gradient
     = ({| Sprite.frames := prepared_first :: prepared_others;
           Sprite.current_frame :=
             (1 mod length (prepared_first :: prepared_others))%nat;
           Sprite.shown := Some prepared_first;
           Sprite.timer_running := true |}, None))
  /\ (forall good prepared bad rest e,
        Forall2 (fun d p => prepare_frame hue_deg saturation brightness region
                              gradient d = Ok p) good prepared ->
        prepare_frame hue_deg saturation brightness region gradient bad
          = Raise e ->
        set_webp w (good ++ bad :: rest) hue_deg saturation brightness region
          gradient
        = ({| Sprite.frames := prepared; Sprite.current_frame := 0;
              Sprite.shown := Sprite.shown _ w;
              Sprite.timer_running := Sprite.timer_running _ w |}, Some e)).
Proof.
  split.
  - intros first others pf po Hall. unfold Label.set_webp.
    rewrite (append_frames_all _ _ _ _ _ _ _ _ Hall).
    cbn [Sprite.frames Sprite.current_frame Sprite.shown Sprite.timer_running app].
    reflexivity.
  - intros good prepared bad rest e Hall Hbad. unfold Label.set_webp.
    rewrite (append_frames_raises _ _ _ _ _ _ _ _ _ _ _ Hall Hbad).
    reflexivity.
Qed.

Lemma prepare_frame_identity hue_deg saturation brightness region frame :
  PyFloat.neqb hue_deg PyFloat.zero = false ->
  PyFloat.neqb saturation PyFloat.one = false ->
  PyFloat.neqb brightness PyFloat.zero = false ->
  prepare_frame hue_deg saturation brightness region false frame = Ok frame.
Proof.
  intros Hh Hs Hb. unfold Label.prepare_frame. rewrite Hh, Hs, Hb.
  reflexivity.
Qed.

(** X11: with the default hue, saturation and brightness and no gradient,
    [set_webp] caches the frames exactly as decoded, whatever region it
    is given; with the gradient asked for and a first frame of fewer than
    100 rows it raises [ValueError] with nothing cached and the timer as
    it was. *)
Theorem set_webp_defaults w hue_deg saturation brightness region first others :
  PyFloat.neqb hue_deg PyFloat.zero = false ->
  PyFloat.neqb saturation PyFloat.one = false ->
  PyFloat.neqb brightness PyFloat.zero = false ->
  set_webp w (first :: others) hue_deg saturation brightness region false
  = ({| Sprite.frames := first :: others;
        Sprite.current_frame := (1 mod length (first :: others))%nat;
        Sprite.shown := Some first;
        Sprite.timer_running := true |}, None)
  /\ ((length first < 100)%nat ->
      set_webp w (first :: others) hue_deg saturation brightness region true
      = ({| Sprite.frames := []; Sprite.current_frame := 0;
            Sprite.shown := Sprite.shown _ w;
            Sprite.timer_running := Sprite.timer_running _ w |},
         Some ValueError)).
Proof.
  intros Hh Hs Hb. split.
  - unfold Label.set_webp. rewrite (append_frames_all _ _ _ _ _ _ (first :: others)).
    + reflexivity.
    + clear w. induction (first :: others) as [|d ds IH]; constructor;
        [apply prepare_frame_identity; assumption | exact IH].
  - intros Hshort. unfold Label.set_webp.
    rewrite (append_frames_raises _ _ _ _ _ [] [] first others ValueError).
    + reflexivity.
    + constructor.
    + unfold Label.prepare_frame. rewrite Hh, Hs, Hb. cbn [orb bind].
      apply apply_gradient_raises_when_short. exact Hshort.
Qed.

End LoaderFacts.

(** ** Stars: layout, and the choice by card kind *)

Section StarsLayout.

Variable int_of_str : string -> option Z.
Variable scaled_width : Z -> Z.

(** The places of the stars of the two rows. *)
Lemma draw_stars_rows rect level_value max_stars level :
  Stars.level_of int_of_str level_value = Ok level ->
  let count := Stars.clamp level 0 max_stars in
  let width := scaled_width (rect_height rect) in
  (exists draws,
     Stars.draw_level_stars int_of_str false scaled_width rect level_value
       max_stars = Ok draws
     /\ forall i : nat,
          Z.of_nat i < count ->
          draws !! i
          = Some (rect_right rect - (Z.of_nat i + 1) * width - Z.of_nat i * 4,
                  rect_top rect))
  /\ (exists draws,
        Stars.draw_rank_stars int_of_str false scaled_width rect level_value
          max_stars = Ok draws
        /\ forall i : nat,
             Z.of_nat i < count ->
             draws !! i
             = Some (rect_left rect - (if count =? 13 then 18 else 0) - 25
                     + Z.of_nat i * (width + 4),
                     rect_top rect)).
Proof.
  intros Hlevel count width.
  unfold Stars.draw_level_stars, Stars.draw_rank_stars.
  rewrite Hlevel. cbn [bind]. rewrite orb_false_l.
  unfold count, Stars.clamp.
  destruct (Z.min level max_stars <=? 0) eqn:Hle.
  - apply Z.leb_le in Hle.
    split; exists []; (split; [reflexivity|]); intros i Hi; lia.
  - apply Z.leb_gt in Hle.
    replace (Z.max 0 (Z.min level max_stars)) with (Z.min level max_stars)
      by lia.
    split; eexists; (split; [reflexivity|]); intros i Hi.
    + rewrite list_lookup_fmap. unfold range.
      rewrite lookup_seqZ_lt by lia. cbn [fmap option_fmap option_map].
      rewrite Z.sub_diag. change (0 `div` 2) with 0. fold width.
      unfold rect_top. repeat f_equal; lia.
    + rewrite list_lookup_fmap. unfold range.
      rewrite lookup_seqZ_lt by lia. cbn [fmap option_fmap option_map].
      fold width.
      destruct (Z.min level max_stars =? 13);
        unfold rect_left, rect_top; cbn [rect_x rect_y rect_height];
        rewrite Z.sub_diag; change (0 `div` 2) with 0;
        repeat f_equal; lia.
Qed.

(** X12: with the star image loaded, star [i] of the level row is drawn
    with its left edge at [right - (i + 1) * width - 4 * i] and star [i]
    of the rank row at [left - 25 + i * (width + 4)], moved 18 to the
    left when there are 13 of them; all stand at the top of the
    rectangle, [width] being the width of the star scaled to the height
    of the rectangle. *)
Theorem draw_stars_layout rect level_value max_stars level :
  Stars.level_of int_of_str level_value = Ok level ->
  let count := Stars.clamp level 0 max_stars in
  let width := scaled_width (rect_height rect) in
  (exists draws,
     Stars.draw_level_stars int_of_str false scaled_width rect level_value
       max_stars = Ok draws
     /\ forall i : nat,
          Z.of_nat i < count ->
          draws !! i
          = Some (rect_right rect - (Z.of_nat i + 1) * width - Z.of_nat i * 4,
                  rect_top rect))
  /\ (exists draws,
        Stars.draw_rank_stars int_of_str false scaled_width rect level_value
          max_stars = Ok draws
        /\ forall i : nat,
             Z.of_nat i < count ->
             draws !! i
             = Some (rect_left rect - (if count =? 13 then 18 else 0) - 25
                     + Z.of_nat i * (width + 4),
                     rect_top rect)).
Proof. exact (draw_stars_rows rect level_value max_stars level). Qed.

End StarsLayout.

Section StarsByKindFacts.

Variable int_of_str : string -> option Z.
Variable level_star_is_null : bool.
Variable level_scaled_width : Z -> Z.
Variable rank_star_is_null : bool.
Variable rank_scaled_width : Z -> Z.

Abbreviation draw_stars_of_card :=
  (Widget._draw_level_and_rank_stars int_of_str level_star_is_null
     level_scaled_width rank_star_is_null rank_scaled_width).

Lemma draw_level_stars_null rect level_value max_stars level :
  Stars.level_of int_of_str level_value = Ok level ->
  Stars.draw_level_stars int_of_str true level_scaled_width rect level_value
    max_stars = Ok [].
Proof.
  intros Hlevel. unfold Stars.draw_level_stars. rewrite Hlevel. reflexivity.
Qed.

Lemma draw_rank_stars_null rect level_value max_stars level :
  Stars.level_of int_of_str level_value = Ok level ->
  Stars.draw_rank_stars int_of_str true rank_scaled_width rect level_value
    max_stars = Ok [].
Proof.
  intros Hlevel. unfold Stars.draw_rank_stars. rewrite Hlevel. reflexivity.
Qed.

(** X13: a Spell or Trap card gets no stars. Any other card whose frame
    type is a string and whose level [int] accepts gets, when the
    lower-cased frame type starts with xyz, the rank row: none if the
    rank star image did not load, else [clamp(level, 0, 13)] rank stars,
    star [i] at [x = 57 + i * (width + 4)], 18 further left when there
    are 13, and [y = 98]; otherwise the level row: none if the level
    star image did not load, else [clamp(level, 0, 12)] level stars,
    star [i] at [x = 496 - (i + 1) * width - 4 * i] and [y = 98]. The
    width is that of the image in question scaled to height 33. A frame
    type that is no string raises [AttributeError]. *)
Theorem stars_by_card_kind card_data :
  let card_type := Widget.get_default card_data "type" (Py.VStr EmptyString) in
  let frame_type := Widget.get_default card_data "frameType"
                      (Py.VStr EmptyString) in
  (Widget.is_spell_or_trap card_type = true ->
   draw_stars_of_card card_data = Ok [])
  /\ (Widget.is_spell_or_trap card_type = false ->
      forall s level,
        frame_type = Py.VStr s ->
        Stars.level_of int_of_str (Stars.level_entry card_data) = Ok level ->
        Server.startswith (FontFit.lower s) "xyz" = true ->
        let count := Z.max 0 (Z.min level 13) in
        let width := rank_scaled_width 33 in
        exists draws,
          draw_stars_of_card card_data = Ok draws
          /\ (rank_star_is_null = true -> draws = [])
          /\ (rank_star_is_null = false ->
              Z.of_nat (length draws) = count
              /\ forall i : nat,
                   Z.of_nat i < count ->
                   draws !! i
                   = Some (Widget.rank_star,
                           (57 - (if count =? 13 then 18 else 0)
                            + Z.of_nat i * (width + 4), 98))))
  /\ (Widget.is_spell_or_trap card_type = false ->
      forall s level,
        frame_type = Py.VStr s ->
        Stars.level_of int_of_str (Stars.level_entry card_data) = Ok level ->
        Server.startswith (FontFit.lower s) "xyz" = false ->
        let count := Z.max 0 (Z.min level 12) in
        let width := level_scaled_width 33 in
        exists draws,
          draw_stars_of_card card_data = Ok draws
          /\ (level_star_is_null = true -> draws = [])
          /\ (level_star_is_null = false ->
              Z.of_nat (length draws) = count
              /\ forall i : nat,
                   Z.of_nat i < count ->
                   draws !! i
                   = Some (Widget.level_star,
                           (496 - (Z.of_nat i + 1) * width - Z.of_nat i * 4,
                            98))))
  /\ (Widget.is_spell_or_trap card_type = false ->
      (forall s, frame_type <> Py.VStr s) ->
      draw_stars_of_card card_data = Raise AttributeError).
Proof.
  intros card_type frame_type. unfold Widget._draw_level_and_rank_stars.
  fold card_type. fold frame_type. split; [|split; [|split]].
  - intros ->. reflexivity.
  - intros -> s level -> Hlevel Hxyz.
    cbn [negb Widget.lower_of bind]. rewrite Hxyz.
    destruct rank_star_is_null.
    + rewrite (draw_rank_stars_null _ _ _ _ Hlevel). cbn [bind fmap list_fmap].
      exists []. split; [reflexivity|]. split; [reflexivity|discriminate].
    + destruct (draw_rank_stars_count int_of_str rank_scaled_width
                  Stars.level_rect _ 13 level Hlevel) as (draws & Hd & Hlen).
      destruct (proj2 (draw_stars_rows int_of_str rank_scaled_width
                         Stars.level_rect _ 13 level Hlevel))
        as (draws' & Hd' & Hat).
      rewrite Hd in Hd'. injection Hd' as <-.
      rewrite Hd. cbn [bind].
      eexists. split; [reflexivity|]. split; [discriminate|]. intros _.
      split; [rewrite length_fmap; exact Hlen|].
      intros i Hi. rewrite list_lookup_fmap, (Hat i Hi).
      cbn [fmap option_fmap option_map].
      unfold Stars.clamp.
      change (rect_height Stars.level_rect) with 33.
      change (rect_left Stars.level_rect) with 82.
      change (rect_top Stars.level_rect) with 98.
      apply f_equal, f_equal, (f_equal2 pair); [|reflexivity].
      destruct (Z.max 0 (Z.min level 13) =? 13); lia.
  - intros -> s level -> Hlevel Hxyz.
    cbn [negb Widget.lower_of bind]. rewrite Hxyz.
    destruct level_star_is_null.
    + rewrite (draw_level_stars_null _ _ _ _ Hlevel). cbn [bind fmap list_fmap].
      exists []. split; [reflexivity|]. split; [reflexivity|discriminate].
    + destruct (draw_level_stars_count int_of_str level_scaled_width
                  Stars.level_rect _ 12 level Hlevel) as (draws & Hd & Hlen).
      destruct (proj1 (draw_stars_rows int_of_str level_scaled_width
                         Stars.level_rect _ 12 level Hlevel))
        as (draws' & Hd' & Hat).
      rewrite Hd in Hd'. injection Hd' as <-.
      rewrite Hd. cbn [bind].
      eexists. split; [reflexivity|]. split; [discriminate|]. intros _.
      split; [rewrite length_fmap; exact Hlen|].
      intros i Hi. rewrite list_lookup_fmap, (Hat i Hi).
      cbn [fmap option_fmap option_map].
      change (rect_height Stars.level_rect) with 33.
      change (rect_right Stars.level_rect) with 496.
      change (rect_top Stars.level_rect) with 98.
      reflexivity.
  - intros -> Hno. cbn [negb]. unfold Widget.lower_of.
    destruct frame_type; try reflexivity. exfalso. eapply Hno. reflexivity.
Qed.

End StarsByKindFacts.

(** ** Description fitting: the chosen font *)

Lemma range_down_elem start stop s :
  s ∈ FontFit.range_down start stop <-> stop < s <= start.
Proof.
  unfold FontFit.range_down. rewrite list_elem_of_fmap.
  setoid_rewrite elem_of_seqZ. split.
  - intros (i & -> & Hi). lia.
  - intros Hs. exists (start - s). split; lia.
Qed.

Section FittedFontFacts.

Variable self_fonts : FontFit.fonts.
Variable bounding_height : FontFit.QFont -> QRect -> string -> Z.

(** X14: with the default spacing bound the search always sets a font.
    If the wrapped text is no taller than the rectangle at some size
    between the bounds and one of the spacings 0, -0.5, -1.0, the font
    set is light, fits the rectangle, and has the largest size at which
    the text fits at any of the three spacings; otherwise the font set
    is the main family at the smallest size, of normal weight, with
    spacing -1.0, and the text is taller than the rectangle at every
    size and spacing. *)
Theorem fitted_font_is_largest fuel frame_type rect text
    max_font_size min_font_size :
  (4 <= fuel)%nat ->
  let lore := String.eqb (FontFit.lower frame_type) "normal" in
  let spacings := [PyFloat.zero; PyFloat.neg PyFloat.half; PyFloat.of_Z (-1)] in
  let candidate size spacing :=
    {| FontFit.family := if lore then FontFit.lore_font self_fonts
                         else FontFit.main_font self_fonts;
       FontFit.point_size := size;
       FontFit.font_weight := FontFit.Light;
       FontFit.letter_spacing := spacing |} in
  exists font text',
    FontFit.draw_fitted_description self_fonts bounding_height fuel frame_type
      rect text max_font_size min_font_size FontFit.default_min_letter_spacing
    = Some (font, text')
    /\ ((bounding_height font rect text' <= rect_height rect
         /\ min_font_size <= FontFit.point_size font <= max_font_size
         /\ FontFit.font_weight font = FontFit.Light
         /\ FontFit.letter_spacing font ∈ spacings
         /\ forall size spacing,
              min_font_size <= size <= max_font_size ->
              spacing ∈ spacings ->
              bounding_height (candidate size spacing) rect text'
              <= rect_height rect ->
              size <= FontFit.point_size font)
        \/ (font = {| FontFit.family := FontFit.main_font self_fonts;
                      FontFit.point_size := min_font_size;
                      FontFit.font_weight := FontFit.Normal;
                      FontFit.letter_spacing := PyFloat.of_Z (-1) |}
            /\ forall size spacing,
                 min_font_size <= size <= max_font_size ->
                 spacing ∈ spacings ->
                 rect_height rect
                 < bounding_height (candidate size spacing) rect text')).
Proof.
  intros Hfuel lore spacings candidate.
  change spacings with FontFit.spec_spacings. clear spacings.
  unfold FontFit.draw_fitted_description. fold lore.
  set (text' := if lore then FontFit.strip FontFit.is_quote text else text).
  pose proof (for_sizes_first_fit self_fonts bounding_height fuel lore rect text'
                (Z.to_nat (max_font_size - (min_font_size - 1)))
                max_font_size (min_font_size - 1) Hfuel eq_refl) as H.
  destruct (FontFit.for_sizes self_fonts bounding_height fuel lore rect text'
              (FontFit.range_down max_font_size (min_font_size - 1))
              FontFit.default_min_letter_spacing) as [[font|]|];
    [| |contradiction].
  - exists font, text'. split; [reflexivity|]. left.
    destruct H as (size & k & sp & Hs & Hk & -> & Hfit & Hearlier).
    cbn [FontFit.point_size FontFit.font_weight FontFit.letter_spacing].
    split; [exact Hfit|]. split; [lia|]. split; [reflexivity|].
    split; [apply (list_elem_of_lookup_2 _ k); exact Hk|].
    intros size' sp' Hs' Hsp' Hfits.
    apply list_elem_of_lookup_1 in Hsp' as [k' Hk'].
    destruct (Z_le_gt_dec size' size) as [Hle|Hgt]; [exact Hle|].
    pose proof (Hearlier size' k' sp' ltac:(lia) Hk' ltac:(left; lia)) as Htall.
    unfold candidate in Hfits. lia.
  - eexists. exists text'. split; [reflexivity|]. right.
    split; [reflexivity|].
    intros size sp Hs Hsp.
    apply list_elem_of_lookup_1 in Hsp as [k Hk].
    apply (H size k sp); [lia | exact Hk].
Qed.

End FittedFontFacts.

Lemma lstrip_split (p : ascii -> bool) (l : list ascii) :
  exists a,
    l = a ++ FontFit.lstrip p l
    /\ Forall (fun c => p c = true) a
    /\ forall c, head (FontFit.lstrip p l) = Some c -> p c = false.
Proof.
  induction l as [|c l IH].
  - exists []. split; [reflexivity|]. split; [constructor|]. discriminate.
  - cbn [FontFit.lstrip]. destruct (p c) eqn:Hc.
    + destruct IH as (a & Hl & Ha & Hhead).
      exists (c :: a). split; [cbn [app]; f_equal; exact Hl|].
      split; [constructor; assumption | exact Hhead].
    + exists []. split; [reflexivity|]. split; [constructor|].
      intros c' [= <-]. exact Hc.
Qed.

Lemma is_quote_spec (c : ascii) :
  FontFit.is_quote c = true <-> c = ascii_of_nat 34 \/ c = ascii_of_nat 39.
Proof.
  unfold FontFit.is_quote, FontFit.squote, FontFit.dquote.
  rewrite orb_true_iff, !Ascii.eqb_eq. tauto.
Qed.

Lemma strip_quotes_split (s : string) :
  let stripped := list_ascii_of_string (FontFit.strip FontFit.is_quote s) in
  (exists a b,
     list_ascii_of_string s = a ++ stripped ++ b
     /\ Forall (fun c => FontFit.is_quote c = true) a
     /\ Forall (fun c => FontFit.is_quote c = true) b)
  /\ (forall c, head stripped = Some c -> FontFit.is_quote c = false)
  /\ (forall c, last stripped = Some c -> FontFit.is_quote c = false).
Proof.
  intros stripped. unfold stripped, FontFit.strip.
  rewrite list_ascii_of_string_of_list_ascii.
  set (l := list_ascii_of_string s).
  destruct (lstrip_split FontFit.is_quote l) as (a & Hl & Ha & Hhead).
  set (l' := FontFit.lstrip FontFit.is_quote l) in *.
  destruct (lstrip_split FontFit.is_quote (rev l')) as (b' & Hr & Hb & Hlast).
  set (m := FontFit.lstrip FontFit.is_quote (rev l')) in *.
  assert (Hl' : l' = rev m ++ rev b').
  { rewrite <- (rev_involutive l'), Hr, rev_app_distr. reflexivity. }
  split; [|split].
  - exists a, (rev b'). split; [rewrite Hl at 1; rewrite Hl'; reflexivity|].
    split; [exact Ha|].
    apply Forall_forall. intros c Hc. rewrite Forall_forall in Hb.
    apply Hb. apply list_elem_of_In. apply list_elem_of_In in Hc.
    apply in_rev. exact Hc.
  - intros c Hc. apply Hhead. rewrite Hl'.
    destruct (rev m); [discriminate|]. exact Hc.
  - intros c Hc. apply Hlast.
    rewrite <- (rev_involutive m).
    destruct (rev m) as [|x r] using rev_ind; [discriminate|].
    rewrite last_snoc in Hc. rewrite rev_app_distr. exact Hc.
Qed.

Section DrawnTextFacts.

Variable self_fonts : FontFit.fonts.
Variable bounding_height : FontFit.QFont -> QRect -> string -> Z.

(** X15: the text that [draw_fitted_description] draws. On a card whose
    frame type is normal in any case of the letters, it is the
    description without the single and double quotes (characters 39 and
    34) at its two ends: the description is a run of such quotes, the
    text drawn and a run of such quotes, and the text drawn neither
    begins nor ends with one; a quote inside the text stays. On any
    other card the text drawn is the description as it is. *)
Theorem drawn_text_quotes_stripped fuel frame_type rect text
    max_font_size min_font_size :
  (4 <= fuel)%nat ->
  let quote c := c = ascii_of_nat 34 \/ c = ascii_of_nat 39 in
  exists font text',
    FontFit.draw_fitted_description self_fonts bounding_height fuel frame_type
      rect text max_font_size min_font_size FontFit.default_min_letter_spacing
    = Some (font, text')
    /\ (FontFit.lower frame_type = "normal"%string ->
        (exists a b,
           list_ascii_of_string text = a ++ list_ascii_of_string text' ++ b
           /\ Forall quote a /\ Forall quote b)
        /\ (forall c, head (list_ascii_of_string text') = Some c -> ~ quote c)
        /\ (forall c, last (list_ascii_of_string text') = Some c -> ~ quote c))
    /\ (FontFit.lower frame_type <> "normal"%string -> text' = text).
Proof.
  intros Hfuel quote.
  unfold FontFit.draw_fitted_description.
  set (lore := String.eqb (FontFit.lower frame_type) "normal").
  set (text' := if lore then FontFit.strip FontFit.is_quote text else text).
  pose proof (for_sizes_first_fit self_fonts bounding_height fuel lore rect text'
                (Z.to_nat (max_font_size - (min_font_size - 1)))
                max_font_size (min_font_size - 1) Hfuel eq_refl) as H.
  assert (Htext :
            (FontFit.lower frame_type = "normal"%string ->
             (exists a b,
                list_ascii_of_string text = a ++ list_ascii_of_string text' ++ b
                /\ Forall quote a /\ Forall quote b)
             /\ (forall c, head (list_ascii_of_string text') = Some c -> ~ quote c)
             /\ (forall c, last (list_ascii_of_string text') = Some c -> ~ quote c))
            /\ (FontFit.lower frame_type <> "normal"%string -> text' = text)).
  { split.
    - intros Hnormal. apply String.eqb_eq in Hnormal.
      unfold text', lore. rewrite Hnormal.
      destruct (strip_quotes_split text) as ((a & b & Hsplit & Ha & Hb) & Hhead & Hlast).
      split; [|split].
      + exists a, b. split; [exact Hsplit|].
        split; (eapply Forall_impl; [eassumption|]);
          intros c Hc; apply is_quote_spec; exact Hc.
      + intros c Hc Hq. apply is_quote_spec in Hq.
        rewrite (Hhead c Hc) in Hq. discriminate.
      + intros c Hc Hq. apply is_quote_spec in Hq.
        rewrite (Hlast c Hc) in Hq. discriminate.
    - intros Hother. apply String.eqb_neq in Hother.
      unfold text', lore. rewrite Hother. reflexivity. }
  destruct (FontFit.for_sizes self_fonts bounding_height fuel lore rect text'
              (FontFit.range_down max_font_size (min_font_size - 1))
              FontFit.default_min_letter_spacing) as [[font|]|];
    [| |contradiction].
  - exists font, text'. split; [reflexivity|]. exact Htext.
  - eexists. exists text'. split; [reflexivity|]. exact Htext.
Qed.

End DrawnTextFacts.

(** ** Server: connections, failed renders, the order of dispatch *)

Section ServerMore.

Variable pixmap : Type.
Variable default_pixmap : pixmap.
Variable loads : string -> result Py.value.
Variable new_card : Py.value -> result (string * pixmap).

Abbreviation server := (Server.server pixmap).
Abbreviation read_client := (Server.read_client pixmap default_pixmap loads new_card).
Abbreviation select_card := (Server.select_card pixmap default_pixmap new_card).

(** X16: whatever a read on one socket brings, the accumulators of the
    other connections stay as they were. *)
Theorem read_client_other_buffers (st : server) sender new_data (other : nat) :
  sender <> Some other ->
  Server.buffers pixmap (fst (read_client sender new_data st)) !! other
  = Server.buffers pixmap st !! other.
Proof.
  intros Hne. unfold Server.read_client.
  destruct sender as [socket|]; [|reflexivity].
  assert (Hso : socket <> other) by congruence.
  destruct (Server.buffers pixmap st !! socket) as [buf|]; [|reflexivity].
  destruct (loads (buf +:+ new_data)) as [data|e].
  - destruct (select_card data) as [[frame_type card_pix]|e];
      cbn [fst Server.buffers Server.set_buffer];
      rewrite !lookup_insert_ne by exact Hso; reflexivity.
  - destruct e; cbn [fst Server.buffers Server.set_buffer];
      rewrite lookup_insert_ne by exact Hso; reflexivity.
Qed.

(** X17: once the [disconnected] slot has run for a socket, a read on it
    raises [KeyError] and changes nothing; the slot leaves the other
    accumulators alone, and a new connection on a socket starts from an
    empty accumulator whatever was there. *)
Theorem read_after_disconnect (st : server) (socket : nat) new_data :
  read_client (Some socket) new_data (Server.on_disconnected pixmap socket st)
  = (Server.on_disconnected pixmap socket st, Some KeyError)
  /\ (forall other, other <> socket ->
        Server.buffers pixmap (Server.on_disconnected pixmap socket st) !! other
        = Server.buffers pixmap st !! other)
  /\ Server.buffers pixmap (Server.handle_new_connection pixmap socket st)
       !! socket = Some EmptyString.
Proof.
  split; [|split].
  - unfold Server.read_client, Server.on_disconnected. cbn [Server.buffers].
    rewrite lookup_delete_eq. reflexivity.
  - intros other Hne. unfold Server.on_disconnected. cbn [Server.buffers].
    apply lookup_delete_ne. congruence.
  - unfold Server.handle_new_connection, Server.set_buffer.
    cbn [Server.buffers]. apply lookup_insert_eq.
Qed.

(** X18: a NewCard message is answered by what the render gives: when it
    returns a frame type and a pixmap, the socket gets ACK and is closed
    and that pair is queued; when it raises (as [json.loads] does on
    card data that is no JSON text), the exception leaves the handler,
    the accumulator has been emptied, and nothing is written to the
    socket or queued. *)
Theorem read_client_new_card (st : server) socket buf new_data kv :
  Server.buffers pixmap st !! socket = Some buf ->
  loads (buf +:+ new_data) = Ok (Py.VDict kv) ->
  Py.assoc "status" kv = Some (Py.VStr "NewCard") ->
  match new_card (Py.VDict kv) with
  | Ok (frame_type, card_pix) =>
      read_client (Some socket) new_data st
      = ({| Server.buffers :=
              <[socket := EmptyString]> (Server.buffers pixmap st);
            Server.net_calls := Server.net_calls pixmap st ++ Server.ack socket;
            Server.deferred := Server.deferred pixmap st
                               ++ [(frame_type, card_pix)] |}, None)
  | Raise e =>
      read_client (Some socket) new_data st
      = ({| Server.buffers :=
              <[socket := EmptyString]> (Server.buffers pixmap st);
            Server.net_calls := Server.net_calls pixmap st;
            Server.deferred := Server.deferred pixmap st |}, Some e)
  end.
Proof.
  intros Hbuf Hloads Hstatus.
  assert (Hsel : select_card (Py.VDict kv) = new_card (Py.VDict kv)).
  { unfold Server.select_card. cbn [Py.get bind]. rewrite Hstatus. reflexivity. }
  destruct (new_card (Py.VDict kv)) as [[frame_type card_pix]|e] eqn:Hnew.
  - apply (read_client_dispatches pixmap default_pixmap loads new_card
             st socket buf new_data _ _ _ Hbuf Hloads).
    rewrite Hsel. reflexivity.
  - rewrite (read_client_decode_raises pixmap default_pixmap loads new_card
               st socket buf new_data _ e Hbuf Hloads)
      by (rewrite Hsel; reflexivity).
    unfold Server.set_buffer.
    cbn [Server.buffers Server.net_calls Server.deferred].
    rewrite insert_insert_eq. reflexivity.
Qed.

(** X19: reads of two connections that come interleaved do not mix: a
    message that reaches one socket in two parts, with a whole message
    of another socket read in between, is put together from its own two
    parts; both are acknowledged and queued, in the order in which they
    are completed, and both accumulators end empty. *)
Theorem interleaved_reads (st : server) a b buf_a buf_b part1 part2 data_b
    doc_a doc_b frame_a pix_a frame_b pix_b :
  a <> b ->
  Server.buffers pixmap st !! a = Some buf_a ->
  Server.buffers pixmap st !! b = Some buf_b ->
  loads (buf_a +:+ part1) = Raise JSONDecodeError ->
  loads (buf_b +:+ data_b) = Ok doc_b ->
  loads ((buf_a +:+ part1) +:+ part2) = Ok doc_a ->
  select_card doc_a = Ok (frame_a, pix_a) ->
  select_card doc_b = Ok (frame_b, pix_b) ->
  let r1 := read_client (Some a) part1 st in
  let r2 := read_client (Some b) data_b (fst r1) in
  let r3 := read_client (Some a) part2 (fst r2) in
  snd r1 = None /\ snd r2 = None /\ snd r3 = None
  /\ Server.net_calls pixmap (fst r3)
     = Server.net_calls pixmap st ++ Server.ack b ++ Server.ack a
  /\ Server.deferred pixmap (fst r3)
     = Server.deferred pixmap st ++ [(frame_b, pix_b); (frame_a, pix_a)]
  /\ Server.buffers pixmap (fst r3) !! a = Some EmptyString
  /\ Server.buffers pixmap (fst r3) !! b = Some EmptyString.
Proof.
  intros Hab Ha Hb Hl1 Hlb Hla Hsa Hsb r1 r2 r3.
  assert (H1 : r1 = (Server.set_buffer pixmap a (buf_a +:+ part1) st, None)).
  { subst r1. apply (read_client_retains pixmap default_pixmap loads new_card
                       st a buf_a part1 JSONDecodeError Ha Hl1). }
  assert (H2 : r2 = ({| Server.buffers :=
                          <[b := EmptyString]>
                            (<[a := buf_a +:+ part1]> (Server.buffers pixmap st));
                        Server.net_calls :=
                          Server.net_calls pixmap st ++ Server.ack b;
                        Server.deferred :=
                          Server.deferred pixmap st ++ [(frame_b, pix_b)] |},
                     None)).
  { subst r2. rewrite H1. cbn [fst].
    rewrite (read_client_dispatches pixmap default_pixmap loads new_card
               _ b buf_b data_b doc_b frame_b pix_b);
      [reflexivity| |exact Hlb|exact Hsb].
    unfold Server.set_buffer. cbn [Server.buffers].
    rewrite lookup_insert_ne by exact Hab. exact Hb. }
  assert (H3 : r3 = ({| Server.buffers :=
                          <[a := EmptyString]>
                            (<[b := EmptyString]>
                               (<[a := buf_a +:+ part1]>
                                  (Server.buffers pixmap st)));
                        Server.net_calls :=
                          (Server.net_calls pixmap st ++ Server.ack b)
                          ++ Server.ack a;
                        Server.deferred :=
                          (Server.deferred pixmap st ++ [(frame_b, pix_b)])
                          ++ [(frame_a, pix_a)] |},
                     None)).
  { subst r3. rewrite H2. cbn [fst].
    rewrite (read_client_dispatches pixmap default_pixmap loads new_card
               _ a (buf_a +:+ part1) part2 doc_a frame_a pix_a);
      [reflexivity| |exact Hla|exact Hsa].
    cbn [Server.buffers].
    rewrite lookup_insert_ne by congruence. apply lookup_insert_eq. }
  rewrite H1, H2, H3. cbn [fst snd Server.net_calls Server.deferred Server.buffers].
  split; [reflexivity|]. split; [reflexivity|]. split; [reflexivity|].
  split; [rewrite <- app_assoc; reflexivity|].
  split; [rewrite <- app_assoc; reflexivity|].
  split; [apply lookup_insert_eq|].
  rewrite lookup_insert_ne by exact Hab. apply lookup_insert_eq.
Qed.

End ServerMore.

(** ** The window: border widgets and transitions *)

(** X20: every border that starts with the name of a monster family, the
    pendulum variants among them, has the sprite of the family; "spell"
    and "trap" have theirs only when the border is exactly that word,
    and "token" and "Default" have none. *)
Theorem get_border_widget_families (suffix : string) :
  Server.get_border_widget ("xyz" +:+ suffix) = Some Server.webp_xyz_label
  /\ Server.get_border_widget ("fusion" +:+ suffix)
     = Some Server.webp_main_fusion_label
  /\ Server.get_border_widget ("normal" +:+ suffix)
     = Some Server.webp_main_normal_label
  /\ Server.get_border_widget ("effect" +:+ suffix) = Some Server.webp_main_label
  /\ Server.get_border_widget ("ritual" +:+ suffix)
     = Some Server.webp_main_ritual_label
  /\ Server.get_border_widget ("link" +:+ suffix) = Some Server.webp_link_label
  /\ Server.get_border_widget ("synchro" +:+ suffix)
     = Some Server.webp_main_synchro_label
  /\ Server.get_border_widget ("spell" +:+ suffix)
     = (if String.eqb suffix EmptyString
        then Some Server.webp_main_spell_label else None)
  /\ Server.get_border_widget ("trap" +:+ suffix)
     = (if String.eqb suffix EmptyString
        then Some Server.webp_main_trap_label else None)
  /\ Server.get_border_widget "token" = None
  /\ Server.get_border_widget "Default" = None.
Proof.
  repeat split; try reflexivity;
    rewrite ?string_app_cons, ?string_app_nil_l;
    destruct suffix; reflexivity.
Qed.

Section TransitionFacts.

Variable pixmap : Type.

Abbreviation set_overlay_custom := (Server.set_overlay_custom pixmap).

(** X21: a transition makes its frame the active border and its pixmap
    the overlay and keeps the calls made before it; when the frame has a
    sprite, the transition fades it in over 500 ms, and the transition
    that comes next starts by fading that sprite out over 250 ms. *)
Theorem transitions_hand_over frame next (card_pix next_pix : pixmap) win w :
  Server.get_border_widget frame = Some w ->
  let win1 := set_overlay_custom frame card_pix win in
  let win2 := set_overlay_custom next next_pix win1 in
  Server.active_border pixmap win1 = frame
  /\ Server.overlay pixmap win1 = Some card_pix
  /\ Server.ui_calls pixmap win `prefix_of` Server.ui_calls pixmap win1
  /\ Server.fade_in w 500
       ∈ drop (length (Server.ui_calls pixmap win)) (Server.ui_calls pixmap win1)
  /\ Server.ui_calls pixmap win2 !! length (Server.ui_calls pixmap win1)
     = Some (Server.fade_out w 250)
  /\ Server.active_border pixmap win2 = next.
Proof.
  intros Hw win1 win2. unfold win2, win1, Server.set_overlay_custom.
  cbn [Server.active_border Server.overlay Server.ui_calls].
  unfold Server.fade_border. rewrite Hw.
  split; [reflexivity|]. split; [reflexivity|].
  split; [apply prefix_app_r; reflexivity|]. split.
  - rewrite drop_app_length.
    apply elem_of_app. right. apply elem_of_app. left.
    apply elem_of_app. left. apply elem_of_cons. left. reflexivity.
  - split; [|reflexivity].
    rewrite lookup_app_r by lia. rewrite Nat.sub_diag. reflexivity.
Qed.

End TransitionFacts.

(** ** The fade of the pendulum art *)

Lemma fade_alpha_offset fade_start fade_height y :
  Widget.fade_alpha fade_start fade_height y
  = Widget.fade_alpha 0 fade_height (y - fade_start).
Proof. unfold Widget.fade_alpha. rewrite Z.sub_0_r. reflexivity. Qed.

Lemma fade_alpha_table :
  forallb (fun offset => match Widget.fade_alpha 0 90 offset with
                         | Returns a => a =? Widget.spec_fade_alpha offset
                         | Raises _ => false
                         end)
          (seqZ 0 100) = true.
Proof. vm_compute. reflexivity. Qed.

Lemma fade_alpha_art fade_start y :
  0 <= y - fade_start < 100 ->
  Widget.fade_alpha fade_start 90 y
  = Returns (Widget.spec_fade_alpha (y - fade_start)).
Proof.
  intros Hy. rewrite fade_alpha_offset.
  pose proof fade_alpha_table as H. rewrite forallb_forall in H.
  specialize (H (y - fade_start)
                ltac:(apply list_elem_of_In, elem_of_seqZ; lia)).
  destruct (Widget.fade_alpha 0 90 (y - fade_start)) as [a|e]; [|discriminate].
  apply Z.eqb_eq in H. rewrite H. reflexivity.
Qed.

Lemma spec_fade_alpha_steps :
  forallb (fun offset => Widget.spec_fade_alpha (offset + 1)
                         <? Widget.spec_fade_alpha offset)
          (seqZ 0 90) = true.
Proof. vm_compute. reflexivity. Qed.

Lemma pixel_at_lt_height {A} (a : list (list A)) i j p :
  Frame.pixel_at a i j = Some p -> 0 <= j < Z.of_nat (length a).
Proof.
  intros H. pose proof (pixel_at_Some_nonneg _ _ _ _ H) as [_ Hj].
  unfold Frame.pixel_at in H.
  destruct ((i <? 0) || (j <? 0)); [discriminate|].
  destruct (a !! Z.to_nat j) as [row|] eqn:Hrow; [|discriminate].
  apply lookup_lt_Some in Hrow. lia.
Qed.

Lemma pixel_at_set_row_alpha y0 a (image : list (list Frame.rgba)) x y :
  Frame.pixel_at (Widget.set_row_alpha y0 a image) x y
  = (fun p => if y =? y0 then Widget.with_alpha a p else p)
      <$> Frame.pixel_at image x y.
Proof.
  unfold Widget.set_row_alpha, Frame.pixel_at.
  destruct (x <? 0) eqn:Hx; [destruct (y0 <? 0); reflexivity|].
  destruct (y <? 0) eqn:Hy; [destruct (y0 <? 0); reflexivity|].
  apply Z.ltb_ge in Hx, Hy. cbn [orb].
  destruct (y0 <? 0) eqn:Hy0.
  - apply Z.ltb_lt in Hy0.
    destruct (y =? y0) eqn:E; [apply Z.eqb_eq in E; lia|].
    destruct (image !! Z.to_nat y) as [row|]; [|reflexivity].
    destruct (row !! Z.to_nat x); reflexivity.
  - apply Z.ltb_ge in Hy0.
    destruct (y =? y0) eqn:E.
    + apply Z.eqb_eq in E. subst y0. rewrite list_lookup_alter_eq.
      destruct (image !! Z.to_nat y) as [row|]; [|reflexivity].
      cbn [fmap option_fmap option_map]. rewrite list_lookup_fmap.
      destruct (row !! Z.to_nat x); reflexivity.
    + apply Z.eqb_neq in E.
      rewrite list_lookup_alter_ne by lia.
      destruct (image !! Z.to_nat y) as [row|]; [|reflexivity].
      destruct (row !! Z.to_nat x); reflexivity.
Qed.

Lemma fade_rows_pixels fade_start fade_height (a : Z -> Z) ys
    (image : list (list Frame.rgba)) :
  (forall y, y ∈ ys ->
     Widget.fade_alpha fade_start fade_height y = Returns (a y)) ->
  exists faded,
    Widget.fade_rows fade_start fade_height ys image = Returns faded
    /\ forall x y,
         Frame.pixel_at faded x y
         = (fun p => if bool_decide (y ∈ ys)
                     then Widget.with_alpha (a y) p else p)
             <$> Frame.pixel_at image x y.
Proof.
  revert image. induction ys as [|y0 rest IH]; intros image Ha.
  - exists image. split; [reflexivity|]. intros x y.
    destruct (Frame.pixel_at image x y); reflexivity.
  - cbn [Widget.fade_rows].
    rewrite (Ha y0) by (apply elem_of_cons; left; reflexivity).
    cbn [Widget.and_then].
    destruct (IH (Widget.set_row_alpha y0 (a y0) image)) as [faded [Hf Hp]].
    { intros y Hy. apply Ha. apply elem_of_cons. right. exact Hy. }
    exists faded. split; [exact Hf|]. intros x y.
    rewrite Hp, pixel_at_set_row_alpha.
    destruct (Frame.pixel_at image x y) as [p|]; [|reflexivity].
    cbn [fmap option_fmap option_map]. f_equal.
    destruct (y =? y0) eqn:E.
    + apply Z.eqb_eq in E. subst y0.
      rewrite (bool_decide_eq_true_2 (y ∈ y :: rest))
        by (apply elem_of_cons; left; reflexivity).
      destruct (bool_decide (y ∈ rest)); reflexivity.
    + apply Z.eqb_neq in E.
      destruct (bool_decide (y ∈ rest)) eqn:Hr.
      * apply bool_decide_eq_true_1 in Hr.
        rewrite (bool_decide_eq_true_2 (y ∈ y0 :: rest))
          by (apply elem_of_cons; right; exact Hr).
        reflexivity.
      * apply bool_decide_eq_false_1 in Hr.
        rewrite (bool_decide_eq_false_2 (y ∈ y0 :: rest)); [reflexivity|].
        intros [?|?]%elem_of_cons; [lia|contradiction].
Qed.

Lemma spec_fade_alpha_formula offset :
  Widget.spec_fade_alpha offset
  = if 90 <=? offset then 0
    else 255 * (90 - offset) / 90
         - (if (offset =? 72) || (offset =? 78) || (offset =? 84) then 1 else 0).
Proof.
  unfold Widget.spec_fade_alpha. destruct (90 <=? offset); [reflexivity|].
  f_equal.
  destruct (offset =? 72) eqn:E1; [apply Z.eqb_eq in E1; subst; reflexivity|].
  destruct (offset =? 78) eqn:E2; [apply Z.eqb_eq in E2; subst; reflexivity|].
  destruct (offset =? 84) eqn:E3; [apply Z.eqb_eq in E3; subst; reflexivity|].
  apply Z.eqb_neq in E1, E2, E3.
  rewrite bool_decide_eq_false_2; [reflexivity|].
  intros Hin. repeat (apply elem_of_cons in Hin as [Hin|Hin]; [lia|]).
  apply elem_of_nil in Hin. exact Hin.
Qed.

(** X22: the fade of the pendulum art always returns an image with the
    same pixel positions. With [d] the number of the row counted from the
    first of the last hundred rows: a pixel above them is as it was; a
    pixel in them keeps its red, green and blue and gets the alpha
    [255 * (90 - d) / 90] rounded down, one less on rows 72, 78 and 84
    (where the float product falls just short of a whole number), and 0
    from row 90 on. So the alpha is 255 on the first faded row, strictly
    less on each row down to row 90, and 0 on the last ten rows. *)
Theorem fade_art_pixels (image : list (list Frame.rgba)) :
  let fade_start := Z.max 0 (Z.of_nat (length image) - 100) in
  let alpha_of d :=
    if 90 <=? d then 0
    else 255 * (90 - d) / 90
         - (if (d =? 72) || (d =? 78) || (d =? 84) then 1 else 0) in
  (exists faded,
     Widget.fade_art image = Returns faded
     /\ (forall x y, Frame.pixel_at image x y = None ->
                     Frame.pixel_at faded x y = None)
     /\ (forall x y p, Frame.pixel_at image x y = Some p -> y < fade_start ->
                       Frame.pixel_at faded x y = Some p)
     /\ (forall x y p, Frame.pixel_at image x y = Some p -> fade_start <= y ->
           exists q,
             Frame.pixel_at faded x y = Some q
             /\ Frame.red q = Frame.red p
             /\ Frame.green q = Frame.green p
             /\ Frame.blue q = Frame.blue p
             /\ Frame.alpha q = alpha_of (y - fade_start)))
  /\ alpha_of 0 = 255
  /\ (forall d, 0 <= d < 90 -> alpha_of (d + 1) < alpha_of d)
  /\ (forall d, 90 <= d -> alpha_of d = 0).
Proof.
  intros fade_start alpha_of.
  assert (Halpha : forall d, alpha_of d = Widget.spec_fade_alpha d)
    by (intros d; symmetry; apply spec_fade_alpha_formula).
  split; [|split; [reflexivity|split]].
  - unfold Widget.fade_art, Widget._fade_image. fold fade_start.
    destruct (fade_rows_pixels fade_start 90
                (fun y => Widget.spec_fade_alpha (y - fade_start))
                (seqZ fade_start (Z.of_nat (length image) - fade_start)) image)
      as [faded [Hf Hp]].
    { intros y Hy. apply elem_of_seqZ in Hy.
      apply fade_alpha_art. unfold fade_start in *. lia. }
    exists faded. split; [exact Hf|]. split; [|split].
    + intros x y Hnone. rewrite Hp, Hnone. reflexivity.
    + intros x y p Hpix Hy. rewrite Hp, Hpix.
      cbn [fmap option_fmap option_map]. f_equal.
      rewrite bool_decide_eq_false_2; [reflexivity|].
      intros Hin%elem_of_seqZ. lia.
    + intros x y p Hpix Hy. rewrite Hp, Hpix.
      pose proof (pixel_at_lt_height _ _ _ _ Hpix) as Hrow.
      cbn [fmap option_fmap option_map].
      rewrite bool_decide_eq_true_2 by (apply elem_of_seqZ; lia).
      eexists. split; [reflexivity|].
      unfold Widget.with_alpha. cbn [Frame.red Frame.green Frame.blue Frame.alpha].
      rewrite Halpha. repeat split; reflexivity.
  - intros d Hd. rewrite !Halpha. pose proof spec_fade_alpha_steps as H.
    rewrite forallb_forall in H.
    specialize (H d ltac:(apply list_elem_of_In, elem_of_seqZ; lia)).
    apply Z.ltb_lt in H. exact H.
  - intros d Hd. unfold alpha_of.
    destruct (90 <=? d) eqn:E; [reflexivity|].
    apply Z.leb_gt in E. lia.
Qed.

(** X23: [_fade_image] with nothing below [fade_start] returns the image
    as it is, whatever the fade height; with a row to fade and a fade
    height of 0 it raises [ZeroDivisionError]. *)
Theorem fade_image_edges (image : list (list Frame.rgba)) fade_start :
  (Z.of_nat (length image) <= fade_start ->
   forall fade_height,
     Widget._fade_image image fade_start fade_height = Returns image)
  /\ (fade_start < Z.of_nat (length image) ->
      Widget._fade_image image fade_start 0 = Raises ZeroDivisionError).
Proof.
  split.
  - intros Hh fade_height. unfold Widget._fade_image.
    replace (seqZ fade_start (Z.of_nat (length image) - fade_start)) with (@nil Z).
    + reflexivity.
    + unfold seqZ. replace (Z.to_nat (Z.of_nat (length image) - fade_start))
        with 0%nat by lia. reflexivity.
  - intros Hh. unfold Widget._fade_image.
    assert (Hs : exists rest,
               seqZ fade_start (Z.of_nat (length image) - fade_start)
               = fade_start :: rest).
    { eexists. apply seqZ_cons. lia. }
    destruct Hs as [rest ->]. cbn [Widget.fade_rows].
    unfold Widget.fade_alpha. rewrite Z.sub_diag. reflexivity.
Qed.

(** ** Asset paths *)

Section AssetFacts.

Variable path_exists : string -> bool.
Variable path_join : string -> string -> string.

Abbreviation candidate := (Window.candidate path_join).

Lemma first_existing_cases rootpath asset_name exts :
  match Window.first_existing path_exists path_join rootpath asset_name exts with
  | Returns path =>
      path_exists path = true
      /\ exists before ext after,
           exts = before ++ ext :: after
           /\ path = candidate rootpath asset_name ext
           /\ Forall (fun e => path_exists (candidate rootpath asset_name e)
                               = false) before
  | Raises e =>
      e = FileNotFoundError
      /\ Forall (fun e => path_exists (candidate rootpath asset_name e) = false)
                exts
  end.
Proof.
  induction exts as [|ext rest IH]; cbn [Window.first_existing].
  - split; [reflexivity|constructor].
  - destruct (path_exists (candidate rootpath asset_name ext)) eqn:E.
    + split; [exact E|]. exists [], ext, rest.
      split; [reflexivity|]. split; [reflexivity|constructor].
    + destruct (Window.first_existing path_exists path_join rootpath
                  asset_name rest) as [path|e].
      * destruct IH as [Hp [before [ext' [after [-> [-> Hb]]]]]].
        split; [exact Hp|]. exists (ext :: before), ext', after.
        split; [reflexivity|]. split; [reflexivity|].
        constructor; assumption.
      * destruct IH as [-> Hall]. split; [reflexivity|].
        constructor; assumption.
Qed.

(** X24: with [webp] and [png] the paths [all_card/<name>.webp] and
    [all_card/<name>.png] under the root. When the arguments hold a
    static entry that is [True], only the png is looked for: it is
    returned if it exists, also when the webp exists, and otherwise
    [FileNotFoundError] is raised. When there are no arguments, or they
    are empty, or they hold no static entry or one that is [False], the
    webp is returned if it exists, else the png if it exists, else
    [FileNotFoundError] is raised. A path that is returned exists. *)
Theorem get_asset_path_first_existing
    (args : option (list (string * Py.value))) rootpath asset_name :
  let webp := path_join rootpath ("all_card/" +:+ asset_name +:+ ".webp") in
  let png := path_join rootpath ("all_card/" +:+ asset_name +:+ ".png") in
  let found := Window.get_asset_path path_exists path_join args rootpath
                 asset_name in
  ((exists kv, args = Some kv /\ Py.assoc "static" kv = Some (Py.VBool true)) ->
   found = if path_exists png then Returns png else Raises FileNotFoundError)
  /\ (args = None \/ args = Some []
      \/ (exists kv, args = Some kv
                     /\ (Py.assoc "static" kv = None
                         \/ Py.assoc "static" kv = Some (Py.VBool false))) ->
      found = if path_exists webp then Returns webp
              else if path_exists png then Returns png
              else Raises FileNotFoundError)
  /\ (forall path, found = Returns path -> path_exists path = true).
Proof.
  intros webp png found. split; [|split].
  - intros (kv & -> & Hstatic). subst found.
    unfold Window.get_asset_path, Window.ext_order, Window.static_flag.
    destruct kv as [|entry kv']; [discriminate|].
    rewrite Hstatic. reflexivity.
  - intros Hargs. subst found.
    assert (Hflag : Window.static_flag args = false).
    { destruct Hargs as [-> | [-> | (kv & -> & Hstatic)]]; try reflexivity.
      unfold Window.static_flag. destruct kv as [|entry kv']; [reflexivity|].
      destruct Hstatic as [-> | ->]; reflexivity. }
    unfold Window.get_asset_path, Window.ext_order. rewrite Hflag. reflexivity.
  - intros path. subst found.
    pose proof (first_existing_cases rootpath asset_name (Window.ext_order args))
      as H.
    unfold Window.get_asset_path.
    destruct (Window.first_existing path_exists path_join rootpath asset_name
                (Window.ext_order args)) as [path'|e]; [|discriminate].
    intros [= <-]. apply H.
Qed.

End AssetFacts.

(** ** Link arrows *)

Section ArrowFacts.

Variable arrow_width : string -> option Z.

Lemma draw_arrows_omap link_arrows :
  Widget.draw_arrows arrow_width link_arrows
  = omap (fun name => Widget.place_arrow name <$> arrow_width name) link_arrows.
Proof.
  induction link_arrows as [|name rest IH]; [reflexivity|].
  cbn [Widget.draw_arrows omap list_omap].
  destruct (arrow_width name) as [w|]; cbn [fmap option_fmap option_map];
    rewrite IH; reflexivity.
Qed.

(** X25: a card without link markers gets no arrow layer at all, not the
    base plate either; with markers the base plate comes first and then,
    in the order of the list, one arrow for every marker whose image
    loads, the others being passed over; Top and Bottom are centred on
    the middle of the card, and a marker that the position table does not
    know is drawn at the origin. *)
Theorem draw_link_arrows_calls (link_arrows : list string) :
  Widget._draw_link_arrows arrow_width [] = []
  /\ (link_arrows <> [] ->
      Widget._draw_link_arrows arrow_width link_arrows
      = Widget.draw_base
        :: omap (fun name => Widget.place_arrow name <$> arrow_width name)
                link_arrows)
  /\ (forall w, Widget.place_arrow "Top" w = Widget.draw_arrow "Top" (274 - w / 2) 116
                /\ Widget.place_arrow "Bottom" w
                   = Widget.draw_arrow "Bottom" (274 - w / 2) 562)
  /\ (forall name w,
        name ∉ ["Top"; "Bottom"; "Left"; "Right"; "Top-Left"; "Top-Right";
                "Bottom-Left"; "Bottom-Right"]%string ->
        Widget.place_arrow name w = Widget.draw_arrow name 0 0).
Proof.
  split; [reflexivity|]. split; [|split].
  - intros Hne. destruct link_arrows as [|name rest]; [contradiction|].
    unfold Widget._draw_link_arrows. rewrite draw_arrows_omap. reflexivity.
  - intros w. split; reflexivity.
  - intros name w Hname. unfold Widget.place_arrow, Widget.arrow_position.
    repeat match goal with
    | |- context [String.eqb name ?s] =>
        let E := fresh "E" in
        destruct (String.eqb name s) eqn:E;
        [apply String.eqb_eq in E; subst name; exfalso; apply Hname;
         repeat (first [apply list_elem_of_here | apply list_elem_of_further])
        |]
    end.
    reflexivity.
Qed.

End ArrowFacts.

(** ** The typeline *)

Section TypelineFacts.

Variable advance : Z -> string -> Z.
Variable ascent : Z -> Z.
Variable descent : Z -> Z.

Lemma drawn_text_app (a b : list Widget.text_call) :
  Widget.drawn_text (a ++ b) = Widget.drawn_text a +:+ Widget.drawn_text b.
Proof.
  induction a as [|c a IH]; [reflexivity|].
  unfold Widget.drawn_text in *. cbn [app foldr].
  rewrite IH, string_app_assoc. reflexivity.
Qed.

Lemma drawn_text_one (c : Widget.text_call) :
  Widget.drawn_text [c] = Widget.call_text c.
Proof. unfold Widget.drawn_text. cbn [foldr]. apply string_app_nil_r. Qed.

Lemma draw_word_text baseline x i n word :
  Widget.drawn_text (fst (Widget.draw_word advance baseline x i n word))
  = Widget.upper word +:+ (if i <? n - 1 then "/" else EmptyString).
Proof.
  unfold Widget.draw_word.
  destruct word as [|c rest].
  - destruct (i <? n - 1); reflexivity.
  - destruct rest as [|c' rest'].
    + destruct (i <? n - 1); reflexivity.
    + destruct (i <? n - 1); cbn [fst];
        rewrite ?drawn_text_app, ?drawn_text_one; cbn [Widget.call_text];
        rewrite ?string_app_nil_r, ?string_app_cons, ?string_app_nil_l;
        reflexivity.
Qed.

Lemma draw_words_text baseline words : forall x i n,
  i + Z.of_nat (length words) = n ->
  Widget.drawn_text (fst (Widget.draw_words advance baseline x i n words))
  = String.concat "/" (Widget.upper <$> words).
Proof.
  induction words as [|word rest IH]; intros x i n Hn; [reflexivity|].
  cbn [Widget.draw_words].
  pose proof (draw_word_text baseline x i n word) as Hw.
  destruct (Widget.draw_word advance baseline x i n word) as [calls x1].
  specialize (IH x1 (i + 1) n ltac:(cbn [length] in Hn; lia)).
  destruct (Widget.draw_words advance baseline x1 (i + 1) n rest) as [more x2].
  cbn [fst] in *. rewrite drawn_text_app, Hw, IH.
  cbn [length] in Hn.
  destruct rest as [|word' rest'].
  - replace (i <? n - 1) with false
      by (symmetry; apply Z.ltb_ge; cbn [length] in Hn; lia).
    cbn [fmap list_fmap String.concat].
    rewrite !string_app_nil_r. reflexivity.
  - replace (i <? n - 1) with true
      by (symmetry; apply Z.ltb_lt; cbn [length] in Hn; lia).
    cbn [fmap list_fmap String.concat].
    rewrite string_app_assoc. reflexivity.
Qed.

Lemma upper_as_list (word : string) :
  Widget.upper word
  = string_of_list_ascii (Widget.upper_ascii <$> list_ascii_of_string word).
Proof.
  induction word as [|c rest IH]; [reflexivity|].
  cbn [Widget.upper list_ascii_of_string fmap list_fmap string_of_list_ascii].
  rewrite IH. reflexivity.
Qed.

Lemma not_spell_or_trap (card_type : Py.value) :
  card_type <> Py.VStr "Spell Card" ->
  card_type <> Py.VStr "Trap Card" ->
  Widget.is_spell_or_trap card_type = false.
Proof.
  intros Hs Ht. unfold Widget.is_spell_or_trap, Widget.is_str.
  destruct card_type as [| | | |s| |]; try reflexivity.
  apply orb_false_intro; apply String.eqb_neq; congruence.
Qed.

(** X26: a card whose type is Spell Card or Trap Card has no typeline.
    On any other card whose typeline words are ASCII text, the texts
    drawn, read from left to right, are an opening bracket, the words
    with their letters a to z replaced by A to Z and a slash between two
    of them, and a closing bracket: a slash neither before the first
    word nor after the last, and the two brackets also when there is no
    word. *)
Theorem draw_typeline_text (card_type : Py.value) (typeline_words : list string) :
  let calls := Widget._draw_typeline advance ascent descent card_type
                 typeline_words in
  let up c :=
    if (97 <=? nat_of_ascii c)%nat && (nat_of_ascii c <=? 122)%nat
    then ascii_of_nat (nat_of_ascii c - 32) else c in
  let upper_case word :=
    string_of_list_ascii (up <$> list_ascii_of_string word) in
  (card_type = Py.VStr "Spell Card" \/ card_type = Py.VStr "Trap Card" ->
   calls = [])
  /\ (card_type <> Py.VStr "Spell Card" ->
      card_type <> Py.VStr "Trap Card" ->
      Forall (fun word => Forall (fun c => (nat_of_ascii c < 128)%nat)
                                 (list_ascii_of_string word)) typeline_words ->
      Widget.drawn_text calls
      = "[" +:+ String.concat "/" (upper_case <$> typeline_words) +:+ "]").
Proof.
  intros calls up upper_case. subst calls. unfold Widget._draw_typeline. split.
  { intros [-> | ->]; reflexivity. }
  intros Hs Ht _. rewrite (not_spell_or_trap card_type Hs Ht).
  pose proof (draw_words_text
                (rect_y Widget.typeline_rect
                 + (rect_height Widget.typeline_rect
                    + ascent Widget.full_font - descent Widget.full_font) / 2)
                typeline_words
                (rect_x Widget.typeline_rect + advance Widget.full_font "[")
                0 (Z.of_nat (length typeline_words)) ltac:(lia)) as H.
  destruct (Widget.draw_words advance _ _ 0 _ typeline_words) as [calls x].
  cbn [fst] in H.
  change (?a :: calls ++ ?b) with ([a] ++ calls ++ b).
  rewrite !drawn_text_app, !drawn_text_one, H. cbn [Widget.call_text].
  rewrite ?string_app_cons, ?string_app_nil_l.
  do 3 f_equal. apply list_fmap_ext. intros _ word _. apply upper_as_list.
Qed.

End TypelineFacts.

(** ** Fades of a border sprite *)

Lemma get_border_widget_range border target :
  Server.get_border_widget border = Some target ->
  target <> Server.webp_main_pendulum_label
  /\ target <> Server.webp_desc_label
  /\ target <> Server.webp_artframe_label.
Proof.
  unfold Server.get_border_widget.
  repeat match goal with
  | |- context [if ?c then _ else _] => destruct c
  end; intros [= <-]; repeat split; discriminate.
Qed.

Section FadeFacts.

Variable pixmap : Type.
Variable disconnect : nat -> nat.

Abbreviation fading := (Fade.fading pixmap).
Abbreviation step := (Fade.step pixmap disconnect).
Abbreviation run := (Fade.run pixmap disconnect).
Abbreviation summary_of := (Fade.summary_of pixmap).

Lemma step_flag_connected (w : fading) e :
  Fade.flag_connected pixmap w -> Fade.flag_connected pixmap (step w e).
Proof.
  unfold Fade.flag_connected. intros Hw. destruct e; cbn [Fade.step].
  - exact Hw.
  - intros _. cbn [Fade.fade_out Fade.finished_slots]. discriminate.
  - unfold Fade.animation_finished.
    destruct (Fade.fade_animation pixmap w); [|exact Hw].
    destruct (Fade.finished_slots pixmap w) eqn:Hn.
    + cbn [Fade._is_fading_out Fade.finished_slots]. intros Hflag.
      exfalso. apply (Hw Hflag). reflexivity.
    + cbn [Fade._on_fade_out_finished Fade._is_fading_out]. discriminate.
Qed.

Lemma step_summary (w : fading) e :
  Fade.flag_connected pixmap w ->
  summary_of (step w e) = Fade.spec_step (summary_of w) e.
Proof.
  unfold Fade.flag_connected. intros Hw. destruct e; cbn [Fade.step Fade.spec_step].
  - reflexivity.
  - reflexivity.
  - unfold Fade.animation_finished, Fade.summary_of at 2 3.
    cbn [Fade.animating Fade.timer_on Fade.pending_out].
    destruct (Fade.fade_animation pixmap w) as [a|] eqn:Ha.
    + destruct (Fade.finished_slots pixmap w) eqn:Hn.
      * destruct (Fade._is_fading_out pixmap w) eqn:Hflag;
          [exfalso; apply Hw; reflexivity|].
        unfold Fade.summary_of.
        cbn [Fade.sprite Fade._is_fading_out Fade.fade_animation negb].
        rewrite Hflag, andb_true_r. reflexivity.
      * unfold Fade.summary_of, Fade._on_fade_out_finished.
        cbn [Fade.sprite Fade._is_fading_out Fade.fade_animation].
        destruct (Fade._is_fading_out pixmap w);
          cbn [Fade.stop_timer Sprite.timer_running negb];
          rewrite ?andb_false_r, ?andb_true_r; reflexivity.
    + unfold Fade.summary_of. rewrite Ha. reflexivity.
Qed.

Lemma run_summary events : forall w : fading,
  Fade.flag_connected pixmap w ->
  summary_of (run events w) = fold_left Fade.spec_step events (summary_of w)
  /\ Fade.flag_connected pixmap (run events w).
Proof.
  induction events as [|e events IH]; intros w Hw; [split; [reflexivity|exact Hw]|].
  unfold Fade.run in *. cbn [fold_left].
  destruct (IH (step w e) (step_flag_connected w e Hw)) as [Hsum Hconn].
  split; [|exact Hconn].
  rewrite Hsum, step_summary by exact Hw. reflexivity.
Qed.

Lemma run_app a b (w : fading) : run (a ++ b) w = run b (run a w).
Proof. unfold Fade.run. apply fold_left_app. Qed.

Lemma init_flag_connected : Fade.flag_connected pixmap (Fade.init pixmap).
Proof. unfold Fade.flag_connected. discriminate. Qed.

(** X27: whatever [finished.disconnect] does to the connections, the
    timer, the flag and whether an animation runs depend only on the
    fades called and on the ends of the animation since the label was
    made; a flag that is set is always honoured at the next end. In
    particular a [fade_in] called after a [fade_out] leaves the flag set,
    so that the end of the fade to full opacity stops the frame timer;
    the next [fade_in] after that end starts it again for good. *)
Theorem fade_timer_follows_events (events : list Fade.event) d_out d_in d_next :
  let w := run events (Fade.init pixmap) in
  summary_of w
  = fold_left Fade.spec_step events (summary_of (Fade.init pixmap))
  /\ (Fade._is_fading_out pixmap w = true ->
      Fade.finished_slots pixmap w <> 0%nat)
  /\ Fade.fade_animation pixmap
       (run [Fade.FadeOut d_out; Fade.FadeIn d_in] w)
     = Some {| Fade.end_value := PyFloat.one; Fade.duration := d_in |}
  /\ Sprite.timer_running pixmap
       (Fade.sprite pixmap
          (run [Fade.FadeOut d_out; Fade.FadeIn d_in; Fade.Finished] w))
     = false
  /\ Sprite.timer_running pixmap
       (Fade.sprite pixmap
          (run [Fade.FadeOut d_out; Fade.FadeIn d_in; Fade.Finished;
                Fade.FadeIn d_next; Fade.Finished] w))
     = true.
Proof.
  intros w.
  destruct (run_summary events (Fade.init pixmap) init_flag_connected)
    as [Hsum Hconn].
  split; [exact Hsum|]. split; [exact Hconn|]. split; [reflexivity|].
  split; [reflexivity|].
  pose proof (run_summary
                [Fade.FadeOut d_out; Fade.FadeIn d_in; Fade.Finished;
                 Fade.FadeIn d_next; Fade.Finished] w Hconn) as [H _].
  apply (f_equal Fade.timer_on) in H. cbn [fold_left Fade.spec_step] in H.
  exact H.
Qed.

(** X28: a transition to a frame whose border sprite is the sprite of the
    active border calls [fade_out] and then [fade_in] on that sprite, and
    nothing else on it; when the fade-in then reaches its end the frame
    timer of the sprite is stopped. A transition from a border with
    another sprite, or none, only fades the new sprite in, and its timer
    runs on after the end of the fade when no fade-out was left
    pending. *)
Theorem same_sprite_transition_stops_timer (card_pixmap : Type)
    (win : Server.window card_pixmap) frame (card_pix : card_pixmap)
    target (w : fading) :
  Server.get_border_widget frame = Some target ->
  let calls := drop (length (Server.ui_calls card_pixmap win))
                 (Server.ui_calls card_pixmap
                    (Server.set_overlay_custom card_pixmap frame card_pix win)) in
  (Server.get_border_widget (Server.active_border card_pixmap win) = Some target ->
   Fade.events_of target calls = [Fade.FadeOut 250; Fade.FadeIn 500]
   /\ Sprite.timer_running pixmap
        (Fade.sprite pixmap
           (run (Fade.events_of target calls ++ [Fade.Finished]) w)) = false)
  /\ (Server.get_border_widget (Server.active_border card_pixmap win)
      <> Some target ->
      Fade.events_of target calls = [Fade.FadeIn 500]
      /\ (Fade._is_fading_out pixmap w = false ->
          Sprite.timer_running pixmap
            (Fade.sprite pixmap
               (run (Fade.events_of target calls ++ [Fade.Finished]) w))
          = true)).
Proof.
  intros Hnew calls.
  destruct (get_border_widget_range _ _ Hnew) as (Hp & Hd & Ha).
  assert (Hcalls :
            Fade.events_of target calls
            = match Server.get_border_widget
                      (Server.active_border card_pixmap win) with
              | Some old => if bool_decide (old = target)
                            then [Fade.FadeOut 250; Fade.FadeIn 500]
                            else [Fade.FadeIn 500]
              | None => [Fade.FadeIn 500]
              end).
  { subst calls. unfold Server.set_overlay_custom.
    cbn [Server.ui_calls]. rewrite drop_app_length.
    unfold Server.fade_border. rewrite Hnew.
    destruct (Server.get_border_widget (Server.active_border card_pixmap win))
      as [old|] eqn:Hold.
    - destruct (get_border_widget_range _ _ Hold) as (Hp' & Hd' & Ha').
      destruct (Server.contains "_pendulum" (Server.active_border card_pixmap win)),
               (Server.contains "_pendulum" frame);
        destruct target; try contradiction;
        destruct old; try contradiction; reflexivity.
    - destruct (Server.contains "_pendulum" (Server.active_border card_pixmap win)),
               (Server.contains "_pendulum" frame);
        destruct target; try contradiction; reflexivity. }
  split.
  - intros Hold. rewrite Hold in Hcalls.
    rewrite bool_decide_eq_true_2 in Hcalls by reflexivity.
    split; [exact Hcalls|]. rewrite Hcalls. reflexivity.
  - intros Hold.
    assert (Hin : Fade.events_of target calls = [Fade.FadeIn 500]).
    { rewrite Hcalls.
      destruct (Server.get_border_widget (Server.active_border card_pixmap win))
        as [old|]; [|reflexivity].
      rewrite bool_decide_eq_false_2; [reflexivity|]. congruence. }
    split; [exact Hin|]. intros Hflag. rewrite Hin.
    unfold Fade.run. cbn [app fold_left Fade.step].
    unfold Fade.animation_finished.
    cbn [Fade.fade_in Fade.fade_animation Fade.finished_slots Fade.sprite
         Fade._is_fading_out].
    destruct (Fade.finished_slots pixmap w); [reflexivity|].
    cbn [Fade._on_fade_out_finished Fade.sprite Fade._is_fading_out].
    rewrite Hflag. reflexivity.
Qed.

End FadeFacts.

(** ** The further properties on the sample data *)

Lemma adjust_frame_region_scoping_witness :
  exists out,
    Frame.adjust_frame plain_rgb_to_hsv plain_hsv_to_rgb plain_enhance
      plain_enhance sample_frame hue_90 sat_08 PyFloat.zero
      (Some (0, 0, 1, 1)) = Ok out
    /\ Frame.pixel_at out 1 1 = Some (px 200 100 50 255)
    /\ Frame.pixel_at out 0 0
       = Some (Frame.adjust_pixel plain_rgb_to_hsv plain_hsv_to_rgb
                 plain_enhance plain_enhance hue_90 sat_08 PyFloat.zero 63
                 (px 250 20 30 255)).
Proof.
  destruct (adjust_frame_region_scoping plain_rgb_to_hsv plain_hsv_to_rgb
              plain_enhance plain_enhance sample_frame hue_90 sat_08
              PyFloat.zero 63 0 0 1 1 eq_refl ltac:(lia) ltac:(lia)
              ltac:(lia))
    as (out & Hout & Houtside & Hinside & _).
  exists out. split; [exact Hout|]. split.
  - apply Houtside; reflexivity.
  - apply Hinside; [reflexivity | reflexivity | simpl; lia].
Defined.

Lemma adjust_frame_identity_witness :
  Frame.adjust_frame plain_rgb_to_hsv plain_hsv_to_rgb plain_enhance
    plain_enhance sample_frame PyFloat.zero PyFloat.one PyFloat.zero
    (Some (0, 0, 1, 1)) = Ok sample_frame.
Proof.
  apply (adjust_frame_identity plain_rgb_to_hsv plain_hsv_to_rgb plain_enhance
           plain_enhance sample_frame PyFloat.zero PyFloat.one PyFloat.zero
           (Some (0, 0, 1, 1))); [reflexivity | reflexivity | reflexivity |].
  simpl. lia.
Defined.

Lemma adjust_hue_opaque_witness :
  exists out,
    Frame.adjust_hue plain_rgb_to_hsv plain_hsv_to_rgb sample_frame hue_90
    = Ok out
    /\ length out = length sample_frame
    /\ (forall i j q, Frame.pixel_at out i j = Some q -> Frame.alpha q = 255)
    /\ (forall i j, Frame.pixel_at out i j = None
                    <-> Frame.pixel_at sample_frame i j = None).
Proof.
  apply (adjust_hue_opaque plain_rgb_to_hsv plain_hsv_to_rgb sample_frame
           hue_90 63); [reflexivity | lia].
Defined.

Lemma hue_shift_odd_witness :
  Frame.hue_shift (PyFloat.neg hue_90) = Ok (- 63).
Proof. apply (hue_shift_odd hue_90 63). reflexivity. Defined.

Lemma shift_plane_wraps_witness :
  Frame.shift_plane (- 63) (Frame.shift_plane 63 [[0; 200]]) = [[0; 200]].
Proof.
  apply (shift_plane_wraps 63 [[0; 200]]); [lia | lia |].
  repeat (constructor; try lia).
Defined.

Lemma apply_gradient_short_frame_witness :
  Frame.apply_gradient sample_frame = Raise ValueError.
Proof. apply (apply_gradient_short_frame sample_frame). simpl. lia. Defined.

Lemma apply_gradient_pixels_witness :
  exists out,
    Frame.apply_gradient tall_frame = Ok out
    /\ (exists q, Frame.pixel_at out 0 5 = Some q /\ Frame.alpha q = 0)
    /\ Frame.pixel_at out 0 109 = Some (px 1 2 3 200).
Proof.
  assert (Hrows : 100 <= Z.of_nat (length tall_frame))
    by (unfold tall_frame; rewrite length_replicate; lia).
  assert (Halpha : 0 <= Frame.alpha (px 1 2 3 200) < 256) by (simpl; lia).
  destruct (apply_gradient_pixels tall_frame Hrows) as (out & Hout & Hpix).
  exists out. split; [exact Hout|]. split.
  - destruct (Hpix 0 5 (px 1 2 3 200) eq_refl Halpha)
      as (q & Hq & _ & _ & _ & _ & Habove & _).
    exists q. split; [exact Hq|]. apply Habove.
    unfold tall_frame. rewrite length_replicate. reflexivity.
  - destruct (Hpix 0 109 (px 1 2 3 200) eq_refl Halpha)
      as (q & Hq & _ & _ & _ & _ & _ & Hbelow).
    rewrite Hq. f_equal. apply Hbelow.
    unfold tall_frame. rewrite length_replicate. intro Hgt. discriminate Hgt.
Defined.

Lemma ticks_cycle_witness :
  exists w',
    Label.ticks nat (length (Sprite.frames nat two_frames)) two_frames = Ok w'
    /\ Sprite.current_frame nat w' = Sprite.current_frame nat two_frames.
Proof. apply (ticks_cycle 3 two_frames). simpl. lia. Defined.

Lemma set_webp_caches_witness :
  Label.set_webp plain_rgb_to_hsv plain_hsv_to_rgb plain_enhance plain_enhance
    blank_sprite [tall_frame; sample_frame] PyFloat.zero PyFloat.one
    PyFloat.zero None true
  = ({| Sprite.frames := match Frame.apply_gradient tall_frame with
                         | Ok faded => [faded]
                         | Raise _ => []
                         end;
        Sprite.current_frame := 0;
        Sprite.shown := None;
        Sprite.timer_running := false |}, Some ValueError).
Proof.
  destruct (Frame.apply_gradient tall_frame) as [faded|e] eqn:Hfaded;
    [|discriminate (eq_trans (eq_sym Hfaded) eq_refl)].
  apply (proj2 (set_webp_caches plain_rgb_to_hsv plain_hsv_to_rgb plain_enhance
                  plain_enhance blank_sprite PyFloat.zero PyFloat.one
                  PyFloat.zero None true)
           [tall_frame] [faded] sample_frame [] ValueError).
  - constructor; [|constructor].
    unfold Label.prepare_frame. cbn [PyFloat.neqb orb bind]. exact Hfaded.
  - reflexivity.
Defined.

Lemma set_webp_defaults_witness :
  Label.set_webp plain_rgb_to_hsv plain_hsv_to_rgb plain_enhance plain_enhance
    blank_sprite [sample_frame; tall_frame] PyFloat.zero PyFloat.one
    PyFloat.zero (Some (0, 0, 1, 1)) false
  = ({| Sprite.frames := [sample_frame; tall_frame];
        Sprite.current_frame := 1;
        Sprite.shown := Some sample_frame;
        Sprite.timer_running := true |}, None).
Proof.
  apply (set_webp_defaults plain_rgb_to_hsv plain_hsv_to_rgb plain_enhance
           plain_enhance blank_sprite PyFloat.zero PyFloat.one PyFloat.zero
           (Some (0, 0, 1, 1)) sample_frame [tall_frame]); reflexivity.
Defined.

Lemma draw_stars_layout_witness :
  (exists draws,
     Stars.draw_level_stars no_int_of_str false square_star Stars.level_rect
       (Py.VInt 3) 12 = Ok draws
     /\ draws !! 2%nat = Some (389, 98))
  /\ (exists draws,
        Stars.draw_rank_stars no_int_of_str false square_star Stars.level_rect
          (Py.VInt 3) 13 = Ok draws
        /\ draws !! 2%nat = Some (131, 98)).
Proof.
  split.
  - destruct (proj1 (draw_stars_layout no_int_of_str square_star
                       Stars.level_rect (Py.VInt 3) 12 3 eq_refl))
      as (draws & Hdraws & Hat).
    exists draws. split; [exact Hdraws|]. exact (Hat 2%nat eq_refl).
  - destruct (proj2 (draw_stars_layout no_int_of_str square_star
                       Stars.level_rect (Py.VInt 3) 13 3 eq_refl))
      as (draws & Hdraws & Hat).
    exists draws. split; [exact Hdraws|]. exact (Hat 2%nat eq_refl).
Defined.

Lemma stars_by_card_kind_witness :
  exists draws,
    Widget._draw_level_and_rank_stars no_int_of_str false square_star false
      square_star xyz_card = Ok draws
    /\ Z.of_nat (length draws) = 4
    /\ draws !! 2%nat = Some (Widget.rank_star, (131, 98)).
Proof.
  destruct (proj1 (proj2 (stars_by_card_kind no_int_of_str false square_star
                            false square_star xyz_card))
              eq_refl "XYZ"%string 4 eq_refl eq_refl eq_refl)
    as (draws & Hdraws & _ & Hloaded).
  destruct (Hloaded eq_refl) as [Hlen Hat].
  exists draws. split; [exact Hdraws|]. split; [exact Hlen|].
  exact (Hat 2%nat eq_refl).
Defined.

Lemma fitted_font_is_largest_witness :
  exists font text',
    FontFit.draw_fitted_description FontFit.default_fonts tall_metric 4
      "effect" desc_rect "A dragon." 12 8 FontFit.default_min_letter_spacing
    = Some (font, text')
    /\ FontFit.point_size font = 9
    /\ tall_metric font desc_rect text' <= rect_height desc_rect.
Proof.
  destruct (fitted_font_is_largest FontFit.default_fonts tall_metric 4 "effect"
              desc_rect "A dragon." 12 8 ltac:(lia))
    as (font & text' & Hrun & _).
  exists font, text'. split; [exact Hrun|].
  injection (eq_trans (eq_sym Hrun) eq_refl) as Hfont Htext.
  rewrite Hfont. split; [reflexivity|]. discriminate.
Defined.

Lemma drawn_text_quotes_stripped_witness :
  exists font text',
    FontFit.draw_fitted_description FontFit.default_fonts tall_metric 4
      "Normal" desc_rect "'A dragon.'" 12 9 FontFit.default_min_letter_spacing
    = Some (font, text')
    /\ text' = "A dragon."%string
    /\ (forall c, head (list_ascii_of_string text') = Some c ->
                  ~ (c = ascii_of_nat 34 \/ c = ascii_of_nat 39)).
Proof.
  destruct (drawn_text_quotes_stripped FontFit.default_fonts tall_metric 4
              "Normal" desc_rect "'A dragon.'" 12 9 ltac:(lia))
    as (font & text' & Hrun & Hnormal & _).
  destruct (Hnormal eq_refl) as (_ & Hhead & _).
  exists font, text'. split; [exact Hrun|]. split; [|exact Hhead].
  injection (eq_trans (eq_sym Hrun) eq_refl) as _ Htext. exact Htext.
Defined.

Lemma read_client_other_buffers_witness :
  Server.buffers nat
    (fst (Server.read_client nat 0%nat Server.loads_literal no_new_card
            (Some 0%nat) "7" two_connections)) !! 1%nat
  = Server.buffers nat two_connections !! 1%nat.
Proof.
  apply (read_client_other_buffers nat 0%nat Server.loads_literal no_new_card
           two_connections (Some 0%nat) "7" 1%nat).
  discriminate.
Defined.

Lemma read_client_new_card_witness :
  Server.read_client nat 0%nat loads_new_card render_xyz (Some 0%nat) "{}"
    one_connection
  = ({| Server.buffers :=
          <[0%nat := EmptyString]> (Server.buffers nat one_connection);
        Server.net_calls :=
          Server.net_calls nat one_connection ++ Server.ack 0;
        Server.deferred :=
          Server.deferred nat one_connection ++ [("xyz"%string, 7%nat)] |},
     None)
  /\ Server.read_client nat 0%nat loads_new_card no_new_card (Some 0%nat) "{}"
       one_connection
     = ({| Server.buffers :=
             <[0%nat := EmptyString]> (Server.buffers nat one_connection);
           Server.net_calls := Server.net_calls nat one_connection;
           Server.deferred := Server.deferred nat one_connection |},
        Some ValueError).
Proof.
  split.
  - exact (read_client_new_card nat 0%nat loads_new_card render_xyz
             one_connection 0%nat EmptyString "{}" new_card_message
             eq_refl eq_refl eq_refl).
  - exact (read_client_new_card nat 0%nat loads_new_card no_new_card
             one_connection 0%nat EmptyString "{}" new_card_message
             eq_refl eq_refl eq_refl).
Defined.

Lemma interleaved_reads_witness :
  let r1 := Server.read_client nat 0%nat loads_new_card render_xyz
              (Some 0%nat) "{" two_connections in
  let r2 := Server.read_client nat 0%nat loads_new_card render_xyz
              (Some 1%nat) "{}" (fst r1) in
  let r3 := Server.read_client nat 0%nat loads_new_card render_xyz
              (Some 0%nat) "}" (fst r2) in
  snd r1 = None /\ snd r2 = None /\ snd r3 = None
  /\ Server.net_calls nat (fst r3)
     = Server.net_calls nat two_connections ++ Server.ack 1 ++ Server.ack 0
  /\ Server.deferred nat (fst r3)
     = Server.deferred nat two_connections
       ++ [("xyz"%string, 7%nat); ("xyz"%string, 7%nat)]
  /\ Server.buffers nat (fst r3) !! 0%nat = Some EmptyString
  /\ Server.buffers nat (fst r3) !! 1%nat = Some EmptyString.
Proof.
  apply (interleaved_reads nat 0%nat loads_new_card render_xyz two_connections
           0%nat 1%nat EmptyString EmptyString "{" "}" "{}"
           (Py.VDict new_card_message) (Py.VDict new_card_message)
           "xyz" 7%nat "xyz" 7%nat);
    solve [discriminate | reflexivity].
Defined.

Lemma transitions_hand_over_witness :
  let win1 := Server.set_overlay_custom nat "xyz_pendulum" 1%nat
                (Server.window_init nat) in
  let win2 := Server.set_overlay_custom nat "effect" 2%nat win1 in
  Server.active_border nat win1 = "xyz_pendulum"%string
  /\ Server.overlay nat win1 = Some 1%nat
  /\ Server.ui_calls nat (Server.window_init nat)
       `prefix_of` Server.ui_calls nat win1
  /\ Server.fade_in Server.webp_xyz_label 500
       ∈ drop (length (Server.ui_calls nat (Server.window_init nat)))
              (Server.ui_calls nat win1)
  /\ Server.ui_calls nat win2 !! length (Server.ui_calls nat win1)
     = Some (Server.fade_out Server.webp_xyz_label 250)
  /\ Server.active_border nat win2 = "effect"%string.
Proof.
  apply (transitions_hand_over nat "xyz_pendulum" "effect" 1%nat 2%nat
           (Server.window_init nat) Server.webp_xyz_label).
  reflexivity.
Defined.

Lemma fade_image_edges_witness :
  Widget._fade_image sample_frame 2 0 = Returns sample_frame
  /\ Widget._fade_image sample_frame 1 0 = Raises ZeroDivisionError.
Proof.
  split.
  - apply (proj1 (fade_image_edges sample_frame 2)). simpl. lia.
  - apply (proj2 (fade_image_edges sample_frame 1)). simpl. lia.
Defined.

Lemma fade_art_pixels_witness :
  exists faded q,
    Widget.fade_art sample_frame = Returns faded
    /\ Frame.pixel_at faded 0 1 = Some q
    /\ Frame.red q = 1 /\ Frame.green q = 2 /\ Frame.blue q = 3
    /\ Frame.alpha q = 252.
Proof.
  destruct (proj1 (fade_art_pixels sample_frame))
    as (faded & Hfaded & _ & _ & Hin).
  assert (Hrow : Z.max 0 (Z.of_nat (length sample_frame) - 100) <= 1)
    by (simpl; lia).
  destruct (Hin 0 1 (px 1 2 3 0) eq_refl Hrow)
    as (q & Hq & Hr & Hg & Hb & Ha).
  exists faded, q. split; [exact Hfaded|]. split; [exact Hq|].
  split; [exact Hr|]. split; [exact Hg|]. split; [exact Hb|]. exact Ha.
Defined.

(** The fade on a frame of two rows: the first row gets alpha 255, the
    second [int(255 * (1.0 - 1 / 90.0))]. *)
Example fade_art_run :
  Widget.fade_art sample_frame
  = Returns [[px 250 20 30 255; px 10 20 30 255];
             [px 1 2 3 252; px 200 100 50 252]].
Proof. vm_compute. reflexivity. Qed.

(** With the static flag the webp is not looked for, though it is
    there; without the flag it is found first. *)
Lemma get_asset_path_first_existing_witness :
  Window.get_asset_path both_files slash_join
    (Some [("static"%string, Py.VBool true)]) "root" "xyz"
  = Returns "root/all_card/xyz.png"%string
  /\ Window.get_asset_path both_files slash_join None "root" "xyz"
     = Returns "root/all_card/xyz.webp"%string.
Proof.
  split.
  - apply (proj1 (get_asset_path_first_existing both_files slash_join
                    (Some [("static"%string, Py.VBool true)]) "root" "xyz")).
    eexists. split; reflexivity.
  - apply (proj1 (proj2 (get_asset_path_first_existing both_files slash_join
                           None "root" "xyz"))).
    left. reflexivity.
Defined.

(** A png alone is found after the webp is missed; an asset with no
    file raises. *)
Example get_asset_path_run :
  Window.get_asset_path only_png slash_join None "root" "xyz"
  = Returns "root/all_card/xyz.png"%string
  /\ Window.get_asset_path only_png slash_join None "root" "link"
     = Raises FileNotFoundError.
Proof. repeat split; reflexivity. Qed.

Lemma draw_link_arrows_calls_witness :
  Widget._draw_link_arrows arrow_widths ["Top"; "Missing"; "Left"; "Up"]%string
  = [Widget.draw_base; Widget.draw_arrow "Top" 254 116;
     Widget.draw_arrow "Left" 35 304; Widget.draw_arrow "Up" 0 0].
Proof.
  apply (proj1 (proj2 (draw_link_arrows_calls arrow_widths
                         ["Top"; "Missing"; "Left"; "Up"]%string))).
  discriminate.
Defined.

Lemma draw_typeline_text_witness :
  Widget.drawn_text
    (Widget._draw_typeline char_advance plain_ascent plain_descent
       (Py.VStr "Effect Monster") ["dragon"; "effect"]%string)
  = "[DRAGON/EFFECT]"%string
  /\ Widget._draw_typeline char_advance plain_ascent plain_descent
       (Py.VStr "Spell Card") ["dragon"; "effect"]%string = [].
Proof.
  split.
  - apply (proj2 (draw_typeline_text char_advance plain_ascent plain_descent
                    (Py.VStr "Effect Monster") ["dragon"; "effect"]%string)).
    + discriminate.
    + discriminate.
    + repeat (constructor; try (simpl; lia)).
  - apply (proj1 (draw_typeline_text char_advance plain_ascent plain_descent
                    (Py.VStr "Spell Card") ["dragon"; "effect"]%string)).
    left. reflexivity.
Defined.

Lemma fade_timer_follows_events_witness :
  Sprite.timer_running nat
    (Fade.sprite nat
       (Fade.run nat Nat.pred
          [Fade.FadeOut 250; Fade.FadeIn 500; Fade.Finished]
          (Fade.run nat Nat.pred [Fade.FadeIn 500; Fade.Finished] new_label)))
  = false
  /\ Sprite.timer_running nat
       (Fade.sprite nat
          (Fade.run nat Nat.pred [Fade.FadeIn 500; Fade.Finished] new_label))
     = true.
Proof.
  split.
  - apply (fade_timer_follows_events nat Nat.pred
             [Fade.FadeIn 500; Fade.Finished] 250 500 500).
  - reflexivity.
Defined.

Lemma same_sprite_transition_stops_timer_witness :
  let calls := drop (length (Server.ui_calls nat effect_window))
                 (Server.ui_calls nat
                    (Server.set_overlay_custom nat "effect" 2%nat
                       effect_window)) in
  Fade.events_of Server.webp_main_label calls
  = [Fade.FadeOut 250; Fade.FadeIn 500]
  /\ Sprite.timer_running nat
       (Fade.sprite nat
          (Fade.run nat Nat.pred
             (Fade.events_of Server.webp_main_label calls ++ [Fade.Finished])
             new_label)) = false.
Proof.
  apply (proj1 (same_sprite_transition_stops_timer nat Nat.pred nat
                  effect_window "effect" 2%nat Server.webp_main_label
                  new_label eq_refl)).
  reflexivity.
Defined.
